(** * scaleway-cli: [scw instance server create]

    A shallow embedding of
    [internal/namespaces/instance/v1/command_server_create.go] and the
    properties of its volume parser, volume validators, IP resolver,
    provisioning orchestrator and image-label autocompleter.

    Conventions of the embedding:
    - Go [string]s are byte strings: Rocq [string].
    - [scw.Size] is [uint64]: a size is an [N], and [+=] wraps modulo 2^64
      ([wadd]).
    - [map[string]*instance.VolumeTemplate] is a [gmap string VolumeTemplate].
    - The remote API is a record of operations over an abstract world [W];
      a run threads the world and records every remote call and log line in
      a trace.
    - A Go function returning [(T, error)] that may also dereference a nil
      pointer has three outcomes: [Return], [Error] and [Panic]. *)

From Stdlib Require Import NArith Ascii String List.
From stdpp Require Import base option list strings pretty gmap fin_maps.

Local Open Scope string_scope.
Local Open Scope N_scope.

(** ** Go strings *)

Module GoStrings.

(** [strings.Split(s, sep)] for a one-byte separator: every occurrence of
    [sep] cuts; the empty string yields one empty part. *)
Fixpoint Split (sep : ascii) (s : string) : list string :=
  match s with
  | EmptyString => [EmptyString]
  | String c s' =>
      if Ascii.eqb c sep then EmptyString :: Split sep s'
      else match Split sep s' with
           | h :: t => String c h :: t
           | [] => [String c EmptyString]
           end
  end.

(** [strings.HasPrefix(s, prefix)]. *)
Definition HasPrefix (s prefix : string) : bool := String.prefix prefix s.

(** [strings.Replace(s, old, new, -1)] for one-byte [old] and [new]. *)
Fixpoint ReplaceAll (old new : ascii) (s : string) : string :=
  match s with
  | EmptyString => EmptyString
  | String c s' =>
      String (if Ascii.eqb c old then new else c) (ReplaceAll old new s')
  end.

(** [utf8.RuneSelf = 0x80]: bytes below it are one-byte runes. *)
Definition isASCIIbyte (c : ascii) : bool := (N_of_ascii c <? 128)%N.

Fixpoint isASCII (s : string) : bool :=
  match s with
  | EmptyString => true
  | String c s' => isASCIIbyte c && isASCII s'
  end.

(** ['A' <= c && c <= 'Z' ? c + ('a' - 'A') : c]. *)
Definition lowerByte (c : ascii) : ascii :=
  let n := N_of_ascii c in
  if ((65 <=? n) && (n <=? 90))%N then ascii_of_N (n + 32) else c.

Fixpoint lowerASCII (s : string) : string :=
  match s with
  | EmptyString => EmptyString
  | String c s' => String (lowerByte c) (lowerASCII s')
  end.

(** [strings.Contains(s, substr)]. *)
Fixpoint Contains (s substr : string) : bool :=
  String.prefix substr s
  || match s with
     | EmptyString => false
     | String _ s' => Contains s' substr
     end.

(** [strconv.Itoa] on a non-negative [int]: the decimal numeral. *)
Definition Itoa (n : nat) : string := pretty n.

End GoStrings.
Export GoStrings.

(** ** Library functions outside the repository

    The command relies on functions of the Go standard library, of
    [go-humanize] and of the SDK whose sources are not part of the
    repository.  They are the fields of a class; every statement below holds
    for each implementation of them. *)

Class Externals := {
  (** [validation.IsUUID] *)
  IsUUID : string → bool;
  (** [net.ParseIP(s) != nil] *)
  ParseIP : string → bool;
  (** [humanize.ParseBytes]: the size, or [None] when it returns an error *)
  ParseBytes : string → option N;
  (** [humanize.Bytes] *)
  HumanizeBytes : N → string;
  (** [strings.TrimSpace] *)
  TrimSpace : string → string;
  (** [strings.Map(unicode.ToLower, s)]: the path [strings.ToLower] takes on
      a string that is not pure ASCII *)
  UnicodeToLower : string → string
}.

(** [strings.ToLower]: pure ASCII strings are lowered byte by byte, all
    others rune by rune. *)
Definition ToLower `{Externals} (s : string) : string :=
  if isASCII s then lowerASCII s else UnicodeToLower s.

(** ** Sizes *)

(** [scw.Size] is a [uint64]; [a += b] wraps. *)
Definition wadd (a b : N) : N := (a + b) mod 2 ^ 64.

(** ** Errors and outcomes *)

(** A Go [error]: one built by [fmt.Errorf] or returned by the SDK, known by
    its message, or a [core.CliError]. *)
Inductive error : Type :=
| Errorf (msg : string)
| CliError (Err : error) (Details Hint : string).

(** [err.Error()] *)
Fixpoint ErrorMsg (e : error) : string :=
  match e with
  | Errorf msg => msg
  | CliError e' _ _ => ErrorMsg e'
  end.

(** What a remote call hands back: the SDK returns [(resp, nil)] or
    [(nil, err)]. *)
Inductive reply (A : Type) : Type :=
| Ok (resp : A)
| Fail (err : error).
Arguments Ok {A} resp.
Arguments Fail {A} err.

Inductive outcome (A : Type) : Type :=
| Return (a : A)
| Error (e : error)
| Panic.
Arguments Return {A} a.
Arguments Error {A} e.
Arguments Panic {A}.

(** ** Data model (the SDK structs, reduced to the fields the command reads
    or writes) *)

(** [instance.VolumeType] is a string type. *)
Definition VolumeTypeLSSD : string := "l_ssd".
Definition VolumeTypeBSSD : string := "b_ssd".

(** [instance.VolumeTemplate] *)
Record VolumeTemplate : Type := mkVolumeTemplate {
  ID : string;
  Name : string;
  Size : N;
  VolumeType : string;
  Organization : string
}.

(** [&instance.VolumeTemplate{}] *)
Definition zeroVolumeTemplate : VolumeTemplate :=
  {| ID := ""; Name := ""; Size := 0; VolumeType := ""; Organization := "" |}.

Definition withName (v : VolumeTemplate) (n : string) : VolumeTemplate :=
  {| ID := ID v; Name := n; Size := Size v; VolumeType := VolumeType v;
     Organization := Organization v |}.
Definition withOrganization (v : VolumeTemplate) (o : string) : VolumeTemplate :=
  {| ID := ID v; Name := Name v; Size := Size v; VolumeType := VolumeType v;
     Organization := o |}.

(** [instance.ServerSummary], [instance.Volume] (of [GetVolumeResponse]) *)
Record ServerSummary : Type := { ServerSummary_ID : string }.
Record Volume : Type := {
  Volume_ID : string;
  Volume_VolumeType : string;
  Volume_Size : N;
  Volume_Server : option ServerSummary     (* nil when not attached *)
}.

(** [instance.ServerType.VolumesConstraint] *)
Record VolumesConstraint : Type := { MinSize : N; MaxSize : N }.
Record ServerType : Type := { ServerType_VolumesConstraint : VolumesConstraint }.

(** [GetImageResponse.Image], by [Image.RootVolume.Size] *)
Record Image : Type := { Image_RootVolume_Size : N }.

(** [instance.IP], [instance.Server], [marketplace.Image] *)
Record IP : Type := { IP_ID : string }.
Record Server : Type := { Server_ID : string }.
Record MarketplaceImage : Type := { Label : string }.

(** [instance.CreateServerRequest]; the pointer fields are options. *)
Record CreateServerRequest : Type := mkCreateServerRequest {
  req_Zone : string;
  req_Organization : string;
  req_Name : string;
  req_CommercialType : string;
  req_EnableIPv6 : bool;
  req_Tags : list string;
  req_Image : string;
  req_PublicIP : option string;
  req_DynamicIPRequired : option bool;
  req_Volumes : gmap string VolumeTemplate;
  req_Bootscript : option string;
  req_SecurityGroup : option string;
  req_PlacementGroup : option string
}.

Definition withImage (r : CreateServerRequest) (x : string) :=
  mkCreateServerRequest (req_Zone r) (req_Organization r) (req_Name r)
    (req_CommercialType r) (req_EnableIPv6 r) (req_Tags r) x (req_PublicIP r)
    (req_DynamicIPRequired r) (req_Volumes r) (req_Bootscript r)
    (req_SecurityGroup r) (req_PlacementGroup r).
Definition withPublicIP (r : CreateServerRequest) (x : option string) :=
  mkCreateServerRequest (req_Zone r) (req_Organization r) (req_Name r)
    (req_CommercialType r) (req_EnableIPv6 r) (req_Tags r) (req_Image r) x
    (req_DynamicIPRequired r) (req_Volumes r) (req_Bootscript r)
    (req_SecurityGroup r) (req_PlacementGroup r).
Definition withDynamicIPRequired (r : CreateServerRequest) (x : option bool) :=
  mkCreateServerRequest (req_Zone r) (req_Organization r) (req_Name r)
    (req_CommercialType r) (req_EnableIPv6 r) (req_Tags r) (req_Image r)
    (req_PublicIP r) x (req_Volumes r) (req_Bootscript r)
    (req_SecurityGroup r) (req_PlacementGroup r).
Definition withVolumes (r : CreateServerRequest) (x : gmap string VolumeTemplate) :=
  mkCreateServerRequest (req_Zone r) (req_Organization r) (req_Name r)
    (req_CommercialType r) (req_EnableIPv6 r) (req_Tags r) (req_Image r)
    (req_PublicIP r) (req_DynamicIPRequired r) x (req_Bootscript r)
    (req_SecurityGroup r) (req_PlacementGroup r).
Definition withBootscript (r : CreateServerRequest) (x : option string) :=
  mkCreateServerRequest (req_Zone r) (req_Organization r) (req_Name r)
    (req_CommercialType r) (req_EnableIPv6 r) (req_Tags r) (req_Image r)
    (req_PublicIP r) (req_DynamicIPRequired r) (req_Volumes r) x
    (req_SecurityGroup r) (req_PlacementGroup r).
Definition withSecurityGroup (r : CreateServerRequest) (x : option string) :=
  mkCreateServerRequest (req_Zone r) (req_Organization r) (req_Name r)
    (req_CommercialType r) (req_EnableIPv6 r) (req_Tags r) (req_Image r)
    (req_PublicIP r) (req_DynamicIPRequired r) (req_Volumes r)
    (req_Bootscript r) x (req_PlacementGroup r).
Definition withPlacementGroup (r : CreateServerRequest) (x : option string) :=
  mkCreateServerRequest (req_Zone r) (req_Organization r) (req_Name r)
    (req_CommercialType r) (req_EnableIPv6 r) (req_Tags r) (req_Image r)
    (req_PublicIP r) (req_DynamicIPRequired r) (req_Volumes r)
    (req_Bootscript r) (req_SecurityGroup r) x.

(** [instanceCreateServerRequest]: the arguments of the command. *)
Record instanceCreateServerRequest : Type := {
  arg_Zone : string;
  arg_OrganizationID : string;
  arg_Image : string;
  arg_Type : string;
  arg_Name : string;
  arg_RootVolume : string;
  arg_AdditionalVolumes : list string;
  arg_IP : string;
  arg_Tags : list string;
  arg_IPv6 : bool;
  arg_Start : bool;
  arg_SecurityGroupID : string;
  arg_PlacementGroupID : string;
  arg_BootscriptID : string
}.

(** ** The remote API

    Each operation reads and changes the remote world [W].
    [CreateIPResponse.IP] and [CreateServerResponse.Server] are pointers,
    which the code dereferences once the resource is created: the reply of
    a creation that returns no error carries the object, or none.  The
    reply of a lookup that returns no error is taken with its object
    ([res.IP], [res.Volume], [res.Image]): a lookup comes before any
    creation. *)

Record instanceAPI (W : Type) : Type := {
  GetIP : string → string → W → reply IP * W;
  GetVolume : string → string → W → reply Volume * W;
  ListServersTypes : string → W → reply (gmap string ServerType) * W;
  GetImage : string → string → W → reply Image * W;
  GetBootscript : string → string → W → reply unit * W;
  CreateIP : string → string → W → reply (option IP) * W;
  CreateServer : CreateServerRequest → W → reply (option Server) * W;
  DeleteIP : string → string → W → option error * W;
  ServerActionPoweron : string → string → W → reply unit * W
}.
Arguments GetIP {W}. Arguments GetVolume {W}. Arguments ListServersTypes {W}.
Arguments GetImage {W}. Arguments GetBootscript {W}. Arguments CreateIP {W}.
Arguments CreateServer {W}. Arguments DeleteIP {W}.
Arguments ServerActionPoweron {W}.

Record marketplaceAPI (W : Type) : Type := {
  GetLocalImageIDByLabel : string → string → string → W → reply string * W;
  ListImages : W → reply (list MarketplaceImage) * W
}.
Arguments GetLocalImageIDByLabel {W}. Arguments ListImages {W}.

(** The [ctx] of a command: the client's two APIs and the default
    organization ([core.GetOrganizationIdFromContext]). *)
Record CommandContext (W : Type) : Type := {
  apiInstance : instanceAPI W;
  apiMarketplace : marketplaceAPI W;
  ctx_OrganizationID : string
}.
Arguments apiInstance {W}. Arguments apiMarketplace {W}.
Arguments ctx_OrganizationID {W}.

(** ** Traces *)

Inductive level : Type := Info | Warning.

(** A remote call with its arguments and what it returned, or a log line
    with its format and arguments. *)
Inductive event : Type :=
| EvGetLocalImageIDByLabel (zone label commercialType : string) (r : reply string)
| EvGetIP (zone ip : string) (r : reply IP)
| EvGetVolume (zone volumeID : string) (r : reply Volume)
| EvListServersTypes (zone : string) (r : reply (gmap string ServerType))
| EvGetImage (zone imageID : string) (r : reply Image)
| EvGetBootscript (zone bootscriptID : string) (r : reply unit)
| EvCreateIP (zone organization : string) (r : reply (option IP))
| EvCreateServer (req : CreateServerRequest) (r : reply (option Server))
| EvDeleteIP (zone ip : string) (r : option error)
| EvServerAction (zone serverID : string) (r : reply unit)
| EvListImages (r : reply (list MarketplaceImage))
| EvLog (lvl : level) (format : string) (args : list string).

(** ** The monad of a command run: remote world, trace, early error return,
    panic *)

Record state (W : Type) : Type := mkState { world : W; trace : list event }.
Arguments mkState {W}. Arguments world {W}. Arguments trace {W}.

Definition M (W A : Type) : Type := state W → outcome A * state W.

Section Monad.
Context {W : Type}.

Definition ret {A} (a : A) : M W A := λ s, (Return a, s).

Definition bind {A B} (m : M W A) (f : A → M W B) : M W B :=
  λ s, match m s with
       | (Return a, s') => f a s'
       | (Error e, s') => (Error e, s')
       | (Panic, s') => (Panic, s')
       end.

(** [return nil, err] *)
Definition fail {A} (e : error) : M W A := λ s, (Error e, s).

(** a nil pointer dereference *)
Definition panic {A} : M W A := λ s, (Panic, s).

Definition emit (ev : event) : M W unit :=
  λ s, (Return tt, mkState (world s) (trace s ++ [ev])).

(** A remote call: run it on the world, record it with its reply. *)
Definition call {A} (op : W → A * W) (ev : A → event) : M W A :=
  λ s, let '(r, w') := op (world s) in
       (Return r, mkState w' (trace s ++ [ev r])).

(** [logger.Infof], [logger.Warningf] *)
Definition Infof (format : string) (args : list string) : M W unit :=
  emit (EvLog Info format args).
Definition Warningf (format : string) (args : list string) : M W unit :=
  emit (EvLog Warning format args).
End Monad.

#[global] Instance M_ret {W} : MRet (M W) := @ret W.
#[global] Instance M_bind {W} : MBind (M W) := λ A B f m, bind m f.

(** ** The program *)

Section Program.
Context {W : Type} `{Externals}.

Implicit Types (api : instanceAPI W) (ctx : CommandContext W).
Implicit Types (volumes : gmap string VolumeTemplate).

(** *** [buildVolumeTemplateFromUUID] *)
Definition buildVolumeTemplateFromUUID api (zone volumeUUID : string)
  : M W VolumeTemplate :=
  r ← call (GetVolume api zone volumeUUID) (EvGetVolume zone volumeUUID);
  match r with
  | Fail _ =>
      fail (Errorf ("Volume " +:+ volumeUUID +:+ " does not exist."))
  | Ok vol =>
      match Volume_Server vol with
      | Some srv =>
          fail (Errorf ("Volume " +:+ Volume_ID vol +:+ " is already attached to "
                        +:+ ServerSummary_ID srv +:+ " server."))
      | None =>
          mret {| ID := Volume_ID vol; Name := "";
                  Size := Volume_Size vol;
                  VolumeType := Volume_VolumeType vol;
                  Organization := "" |}
      end
  end.

(** The hint of the format error; [quoted s] is [s] between double
    quotes. *)
Definition quoted (s : string) : string :=
  String (ascii_of_N 34) (s +:+ String (ascii_of_N 34) EmptyString).

Definition volumeFormatHint : string :=
  "You must provide either a UUID (" +:+ quoted "11111111-1111-1111-1111-111111111111"
  +:+ "), a local volume size (" +:+ quoted "local:100G" +:+ " or " +:+ quoted "l:100G"
  +:+ ") or a block volume size (" +:+ quoted "block:100G" +:+ " or " +:+ quoted "b:100G"
  +:+ ").".

Definition invalidVolumeFormat (flagV : string) : error :=
  CliError (Errorf ("invalid volume format '" +:+ flagV +:+ "'")) "" volumeFormatHint.

(** *** [buildVolumeTemplate] *)
Definition buildVolumeTemplate api (zone orgID flagV : string)
  : M W VolumeTemplate :=
  let parts := Split ":" (TrimSpace flagV) in
  match parts with
  | [part0; part1] =>
      (* len(parts) == 2: create volume *)
      vt ← (if (part0 =? "l")%string || (part0 =? "local")%string then
              mret {| ID := ""; Name := ""; Size := 0;
                      VolumeType := VolumeTypeLSSD; Organization := "" |}
            else if (part0 =? "b")%string || (part0 =? "block")%string then
              mret {| ID := ""; Name := ""; Size := 0;
                      VolumeType := VolumeTypeBSSD; Organization := "" |}
            else
              fail (Errorf ("Invalid volume type " +:+ part0 +:+ " in "
                            +:+ flagV +:+ " volume.")));
      match ParseBytes part1 with
      | None =>
          fail (Errorf ("Invalid size format " +:+ part1 +:+ " in "
                        +:+ flagV +:+ " volume."))
      | Some size =>
          mret {| ID := ID vt; Name := Name vt; Size := size;
                  VolumeType := VolumeType vt; Organization := orgID |}
      end
  | [part0] =>
      (* len(parts) == 1 && validation.IsUUID(parts[0]) *)
      if IsUUID part0 then buildVolumeTemplateFromUUID api zone part0
      else fail (invalidVolumeFormat flagV)
  | _ => fail (invalidVolumeFormat flagV)
  end.

(** *** [buildVolumes] *)

(** The body of the loop on the additional volumes, after the template is
    built: name it, and reduce a template with an id to its id and name. *)
Definition additionalVolume (serverName index : string)
    (volumeTemplate : VolumeTemplate) : VolumeTemplate :=
  let volumeTemplate := withName volumeTemplate (serverName +:+ "-" +:+ index) in
  (* Remove extra data for API validation. *)
  if negb (ID volumeTemplate =? "")%string then
    {| ID := ID volumeTemplate; Name := Name volumeTemplate;
       Size := 0; VolumeType := ""; Organization := "" |}
  else volumeTemplate.

(** The loop [for i, v := range additionalVolumes], from position [i]. *)
Fixpoint buildAdditionalVolumes api (zone organizationID serverName : string)
    (i : nat) (additionalVolumes : list string) volumes
  : M W (gmap string VolumeTemplate) :=
  match additionalVolumes with
  | [] => mret volumes
  | v :: rest =>
      volumeTemplate ← buildVolumeTemplate api zone organizationID v;
      let index := Itoa (i + 1) in
      buildAdditionalVolumes api zone organizationID serverName (S i) rest
        (<[index := additionalVolume serverName index volumeTemplate]> volumes)
  end.

Definition buildVolumes api (zone organizationID serverName rootVolume : string)
    (additionalVolumes : list string) : M W (gmap string VolumeTemplate) :=
  volumes ← (if negb (rootVolume =? "")%string then
               rootVolumeTemplate ← buildVolumeTemplate api zone organizationID rootVolume;
               mret (<["0" := withOrganization rootVolumeTemplate ""]> ∅)
             else mret ∅);
  buildAdditionalVolumes api zone organizationID serverName 0 additionalVolumes volumes.

(** *** [validateLocalVolumeSizes] *)

(** The first loop: the wrapping sum of the sizes of the local volumes. *)
Definition localVolumeTotalSize volumes : N :=
  map_fold (λ _ volume total,
              if (VolumeType volume =? VolumeTypeLSSD)%string
              then wadd total (Size volume) else total) 0 volumes.

Definition validateLocalVolumeSizes api volumes (zone commercialType : string)
  : M W unit :=
  let localVolumeTotalSize := localVolumeTotalSize volumes in
  r ← call (ListServersTypes api zone) (EvListServersTypes zone);
  match r with
  | Fail err =>
      (* Ignore root volume size check. *)
      Warningf "cannot get server types: %s" [ErrorMsg err];;
      Warningf "skip local volume size validation" [];;
      mret tt
  | Ok servers =>
      match servers !! commercialType with
      | Some serverType =>
          let volumeConstraint := ServerType_VolumesConstraint serverType in
          (* If no root volume provided, count the default root volume size
             added by the API. *)
          let localVolumeTotalSize :=
            match volumes !! "0" with
            | None => wadd localVolumeTotalSize (MinSize volumeConstraint)
            | Some _ => localVolumeTotalSize
            end in
          if (localVolumeTotalSize <? MinSize volumeConstraint)
             || (MaxSize volumeConstraint <? localVolumeTotalSize) then
            let min := HumanizeBytes (MinSize volumeConstraint) in
            if MinSize volumeConstraint =? MaxSize volumeConstraint then
              fail (Errorf (commercialType +:+ " total local volume size must be equal to "
                            +:+ min +:+ "."))
            else
              let max := HumanizeBytes (MaxSize volumeConstraint) in
              fail (Errorf (commercialType +:+ " total local volume size must be between "
                            +:+ min +:+ " and " +:+ max +:+ "."))
          else mret tt
      | None =>
          Warningf "unrecognized server type: %s" [commercialType];;
          Warningf "skip local volume size validation" [];;
          mret tt
      end
  end.

(** *** [validateRootVolume]

    [rootVolume] is [volumes["0"]]: [None] is the nil pointer. *)
Definition validateRootVolume api (zone image : string)
    (rootVolume : option VolumeTemplate) : M W unit :=
  match rootVolume with
  | None => mret tt
  | Some rootVolume =>
      if negb (VolumeType rootVolume =? VolumeTypeLSSD)%string then
        fail (Errorf "First volume must be local.")
      else if negb (ID rootVolume =? "")%string then
        fail (Errorf "You cannot use an existing volume as a root volume. You must create an image of this volume and use its ID in the 'image' argument.")
      else
        r ← call (GetImage api zone image) (EvGetImage zone image);
        (* if err != nil: two warnings, and no return *)
        match r with
         | Fail err =>
             Warningf "cannot get image %s: %s" [image; ErrorMsg err];;
             Warningf "skip root volume size validation" []
         | Ok _ => mret tt
         end;;
        (* res.Image.RootVolume.Size: res is nil when the call failed *)
        match r with
        | Fail _ => panic
        | Ok res =>
            if Size rootVolume <? Image_RootVolume_Size res then
              fail (Errorf ("First volume size must be at least "
                            +:+ HumanizeBytes (Image_RootVolume_Size res)
                            +:+ " for this image."))
            else mret tt
        end
  end.

(** *** [sanitizeVolumeMap]

    The range loop writes one entry of [m] per entry of [volumes].  (It also
    writes the name into the template that [volumes] points to; [volumes] is
    not read again after the call.) *)
Definition sanitizeVolume (serverName index : string) (v : VolumeTemplate)
  : VolumeTemplate :=
  let v := withName v (serverName +:+ "-" +:+ index) in
  (* Remove extra data for API validation. *)
  if negb (ID v =? "")%string then
    {| ID := ID v; Name := Name v; Size := 0; VolumeType := ""; Organization := "" |}
  else if (index =? "0")%string && negb (Size v =? 0) then
    {| ID := ""; Name := ""; Size := Size v; VolumeType := ""; Organization := "" |}
  else v.

Definition sanitizeVolumeMap (serverName : string) volumes
  : gmap string VolumeTemplate :=
  map_imap (λ index v, Some (sanitizeVolume serverName index v)) volumes.

(** *** [instanceServerCreateImageAutoCompleteFunc] *)
Definition instanceServerCreateImageAutoCompleteFunc ctx (prefix : string)
  : M W (list string) :=
  r ← call (ListImages (apiMarketplace ctx)) EvListImages;
  match r with
  | Fail _ => mret []
  | Ok images =>
      let prefix := ToLower (ReplaceAll "-" "_" prefix) in
      mret (map Label (List.filter (λ image, HasPrefix (Label image) prefix) images))
  end.

(** *** [instanceServerCreateRun]

    The body is embedded block by block, under the headings of its
    comments; [serverReq] and [needIPCreation] are passed from block to
    block. *)

(** Image: a local image UUID, or an image label. *)
Definition resolveImage ctx (args : instanceCreateServerRequest)
    (serverReq : CreateServerRequest) : M W CreateServerRequest :=
  if negb (IsUUID (arg_Image args)) then
    (* Find the corresponding local image UUID. *)
    r ← call (GetLocalImageIDByLabel (apiMarketplace ctx) (arg_Zone args)
                (arg_Image args) (req_CommercialType serverReq))
             (EvGetLocalImageIDByLabel (arg_Zone args) (arg_Image args)
                (req_CommercialType serverReq));
    match r with
    | Fail _ =>
        fail (Errorf ("Bad image label '" +:+ arg_Image args +:+ "' for "
                      +:+ req_CommercialType serverReq +:+ "."))
    | Ok imageId => mret (withImage serverReq imageId)
    end
  else mret (withImage serverReq (arg_Image args)).

(** IP: the [switch] on [args.IP], its cases in order.  Returns
    [needIPCreation] and the request. *)
Definition resolveIP ctx (args : instanceCreateServerRequest)
    (serverReq : CreateServerRequest) : M W (bool * CreateServerRequest) :=
  if (arg_IP args =? "")%string || (arg_IP args =? "new")%string then
    mret (true, serverReq)
  else if IsUUID (arg_IP args) then
    mret (false, withPublicIP serverReq (Some (arg_IP args)))
  else if ParseIP (arg_IP args) then
    (* Find the corresponding flexible IP UUID. *)
    Infof "finding public IP UUID from address: %s" [arg_IP args];;
    r ← call (GetIP (apiInstance ctx) (arg_Zone args) (arg_IP args))
             (EvGetIP (arg_Zone args) (arg_IP args));
    match r with
    | Fail _ => fail (Errorf (arg_IP args +:+ " does not belongs to you."))
    | Ok ip => mret (false, withPublicIP serverReq (Some (IP_ID ip)))
    end
  else if (arg_IP args =? "dynamic")%string then
    mret (false, withDynamicIPRequired serverReq (Some true))
  else if (arg_IP args =? "none")%string then
    mret (false, serverReq)
  else
    fail (Errorf ("Invalid IP " +:+ quoted (arg_IP args)
                  +:+ ", should be either 'new', 'dynamic', 'none', an IP address ID or a reserved flexible IP address.")).

(** Volumes. *)
Definition resolveVolumes ctx (args : instanceCreateServerRequest)
    (serverReq : CreateServerRequest) : M W CreateServerRequest :=
  if (0 <? length (arg_AdditionalVolumes args))%nat
     || negb (arg_RootVolume args =? "")%string then
    (* Get default organization ID. *)
    let organizationID :=
      if (arg_OrganizationID args =? "")%string then ctx_OrganizationID ctx
      else arg_OrganizationID args in
    (* Create initial volume template map. *)
    volumes ← buildVolumes (apiInstance ctx) (arg_Zone args) organizationID
                (req_Name serverReq) (arg_RootVolume args)
                (arg_AdditionalVolumes args);
    (* Validate root volume type and size. *)
    validateRootVolume (apiInstance ctx) (arg_Zone args) (req_Image serverReq)
      (volumes !! "0");;
    (* Validate total local volume sizes. *)
    validateLocalVolumeSizes (apiInstance ctx) volumes (arg_Zone args)
      (req_CommercialType serverReq);;
    (* Sanitize the volume map to respect API schemas *)
    mret (withVolumes serverReq (sanitizeVolumeMap (req_Name serverReq) volumes))
  else mret serverReq.

(** Bootscript. *)
Definition resolveBootscript ctx (args : instanceCreateServerRequest)
    (serverReq : CreateServerRequest) : M W CreateServerRequest :=
  if negb (arg_BootscriptID args =? "")%string then
    if negb (IsUUID (arg_BootscriptID args)) then
      fail (Errorf ("Bootscript ID " +:+ arg_BootscriptID args
                    +:+ " is not a valid UUID."))
    else
      r ← call (GetBootscript (apiInstance ctx) (arg_Zone args) (arg_BootscriptID args))
               (EvGetBootscript (arg_Zone args) (arg_BootscriptID args));
      match r with
      | Fail _ =>
          fail (Errorf ("Bootscript ID " +:+ arg_BootscriptID args
                        +:+ " does not exists."))
      | Ok _ => mret (withBootscript serverReq (Some (arg_BootscriptID args)))
      end
  else mret serverReq.

(** Security group, placement group. *)
Definition setGroups (args : instanceCreateServerRequest)
    (serverReq : CreateServerRequest) : CreateServerRequest :=
  let serverReq :=
    if negb (arg_SecurityGroupID args =? "")%string
    then withSecurityGroup serverReq (Some (arg_SecurityGroupID args))
    else serverReq in
  if negb (arg_PlacementGroupID args =? "")%string
  then withPlacementGroup serverReq (Some (arg_PlacementGroupID args))
  else serverReq.

(** STEP 1: argument validation and API requests creation. *)
Definition prepareRequest ctx (args : instanceCreateServerRequest)
  : M W (bool * CreateServerRequest) :=
  let serverReq :=
    {| req_Zone := arg_Zone args;
       req_Organization := arg_OrganizationID args;
       req_Name := arg_Name args;
       req_CommercialType := arg_Type args;
       req_EnableIPv6 := arg_IPv6 args;
       req_Tags := arg_Tags args;
       req_Image := "";
       req_PublicIP := None;
       req_DynamicIPRequired := None;
       req_Volumes := ∅;
       req_Bootscript := None;
       req_SecurityGroup := None;
       req_PlacementGroup := None |} in
  serverReq ← resolveImage ctx args serverReq;
  '(needIPCreation, serverReq) ← resolveIP ctx args serverReq;
  serverReq ← resolveVolumes ctx args serverReq;
  serverReq ← resolveBootscript ctx args serverReq;
  mret (needIPCreation, setGroups args serverReq).

(** STEP 2, IP: create the IP when one is needed. *)
Definition createIP ctx (args : instanceCreateServerRequest)
    (needIPCreation : bool) (serverReq : CreateServerRequest)
  : M W CreateServerRequest :=
  if needIPCreation then
    Infof "creating IP" [];;
    r ← call (CreateIP (apiInstance ctx) (arg_Zone args) (arg_OrganizationID args))
             (EvCreateIP (arg_Zone args) (arg_OrganizationID args));
    match r with
    | Fail err =>
        fail (Errorf ("Error while creating your public IP: " +:+ ErrorMsg err +:+ "."))
    | Ok None =>
        (* res.IP.ID: res.IP is nil *)
        panic
    | Ok (Some ip) =>
        let serverReq := withPublicIP serverReq (Some (IP_ID ip)) in
        Infof "IP created: %s" [IP_ID ip];;
        mret serverReq
    end
  else mret serverReq.

(** STEP 2, the block under [if needIPCreation && serverReq.PublicIP != nil]:
    delete the created IP. *)
Definition deleteCreatedIP ctx (args : instanceCreateServerRequest)
    (needIPCreation : bool) (serverReq : CreateServerRequest) : M W unit :=
  match needIPCreation, req_PublicIP serverReq with
  | true, Some publicIP =>
      Infof "deleting created IP: %s" [publicIP];;
      err ← call (DeleteIP (apiInstance ctx) (arg_Zone args) publicIP)
                 (EvDeleteIP (arg_Zone args) publicIP);
      match err with
      | Some err =>
          Warningf "cannot delete the create IP %s: %s." [publicIP; ErrorMsg err]
      | None => mret tt
      end
  | _, _ => mret tt
  end.

(** STEP 2, Server and Start. *)
Definition createServer ctx (args : instanceCreateServerRequest)
    (needIPCreation : bool) (serverReq : CreateServerRequest) : M W Server :=
  Infof "creating server" [];;
  serverRes ← call (CreateServer (apiInstance ctx) serverReq) (EvCreateServer serverReq);
  match serverRes with
  | Fail err =>
      deleteCreatedIP ctx args needIPCreation serverReq;;
      fail (Errorf ("Cannot create the server: " +:+ ErrorMsg err +:+ "."))
  | Ok None =>
      (* server.ID: serverRes.Server is nil *)
      panic
  | Ok (Some server) =>
      Infof "server created %s" [Server_ID server];;
      (if arg_Start args then
         Infof "starting server" [];;
         r ← call (ServerActionPoweron (apiInstance ctx) (arg_Zone args) (Server_ID server))
                  (EvServerAction (arg_Zone args) (Server_ID server));
         match r with
         | Fail err =>
             Warningf "Cannot start the server: %s. Note that the server is successfully created."
               [ErrorMsg err]
         | Ok _ => Infof "server started" []
         end
       else mret tt);;
      mret server
  end.

Definition instanceServerCreateRun ctx (args : instanceCreateServerRequest)
  : M W Server :=
  '(needIPCreation, serverReq) ← prepareRequest ctx args;
  serverReq ← createIP ctx args needIPCreation serverReq;
  createServer ctx args needIPCreation serverReq.

(** A run of a command from a world, with an empty trace. *)
Definition run {A} (m : M W A) (w : W) : outcome A * state W :=
  m (mkState w []).
End Program.

(** ** Reading a trace *)

Definition isDeleteIP (e : event) : bool :=
  match e with EvDeleteIP _ _ _ => true | _ => false end.

(** The calls that create or delete a remote resource. *)
Definition isMutation (e : event) : bool :=
  match e with
  | EvCreateIP _ _ _ | EvCreateServer _ _ | EvDeleteIP _ _ _
  | EvServerAction _ _ _ => true
  | _ => false
  end.

(** A call that leaves the remote resources as they are, or a log line. *)
Definition quiet (e : event) : Prop := isMutation e = false.

(** Whatever the start state, [m] only adds events that satisfy [P] to the
    trace. *)
Definition emits {W A} (P : event → Prop) (m : M W A) : Prop :=
  ∀ s, ∃ evs, trace (m s).2 = (trace s ++ evs)%list ∧ Forall P evs.

(** ** Reference quantities of the local-storage check *)

(** The size a template adds to the local sum: its size when it is of the
    local class, nothing otherwise. *)
Definition localSize (v : VolumeTemplate) : N :=
  if (VolumeType v =? VolumeTypeLSSD)%string then Size v else 0.

(** The sum, in unbounded arithmetic, of the sizes of the local-class
    templates of a volume map. *)
Definition sumLocal (volumes : gmap string VolumeTemplate) : N :=
  foldr (λ kv acc, localSize kv.2 + acc) 0 (map_to_list volumes).

(** The total the check compares with the constraint: the local sum, plus
    the minimum when no template occupies key 0, as a [uint64]. *)
Definition checkedTotal (volumes : gmap string VolumeTemplate) (min : N) : N :=
  (sumLocal volumes + (if volumes !! "0" is None then min else 0)) mod 2 ^ 64.

(** ** Reference notion for the autocompleter: a label matches a prefix
    without regard to case when their lower-cased forms do. *)
Definition matchesIgnoringCase `{Externals} (label prefix : string) : bool :=
  HasPrefix (ToLower label) (ToLower prefix).

(** ** An instance of the library functions to run the embedding on

    ASCII approximations: UUIDs in the 8-4-4-4-12 hexadecimal shape, dotted
    decimal IPv4 literals, sizes as a decimal integer with an optional unit,
    ASCII white space. *)

Module Reference.

Definition isHex (c : ascii) : bool :=
  let n := N_of_ascii c in
  ((48 <=? n) && (n <=? 57)) || ((65 <=? n) && (n <=? 70))
  || ((97 <=? n) && (n <=? 102)).

Fixpoint uuidShape (pos : nat) (s : string) : bool :=
  match s with
  | EmptyString => Nat.eqb pos 36
  | String c s' =>
      (if Nat.eqb pos 8 || Nat.eqb pos 13 || Nat.eqb pos 18 || Nat.eqb pos 23
       then Ascii.eqb c "-" else isHex c)
      && uuidShape (S pos) s'
  end.

Definition isDigit (c : ascii) : bool :=
  let n := N_of_ascii c in (48 <=? n) && (n <=? 57).

Fixpoint digitsValue (acc : N) (s : string) : option N :=
  match s with
  | EmptyString => Some acc
  | String c s' =>
      if isDigit c then digitsValue (acc * 10 + (N_of_ascii c - 48)) s'
      else None
  end.

Definition decimal (s : string) : option N :=
  match s with
  | EmptyString => None
  | _ => digitsValue 0 s
  end.

Definition isOctet (s : string) : bool :=
  match decimal s with
  | Some n => n <=? 255
  | None => false
  end.

Definition dottedIPv4 (s : string) : bool :=
  match Split "." s with
  | [a; b; c; d] => isOctet a && isOctet b && isOctet c && isOctet d
  | _ => false
  end.

Fixpoint spanDigits (s : string) : string * string :=
  match s with
  | EmptyString => (EmptyString, EmptyString)
  | String c s' =>
      if isDigit c then let '(d, u) := spanDigits s' in (String c d, u)
      else (EmptyString, s)
  end.

Definition unitBytes (u : string) : option N :=
  if (u =? "")%string || (u =? "B")%string then Some 1
  else if (u =? "K")%string || (u =? "KB")%string then Some (10 ^ 3)
  else if (u =? "M")%string || (u =? "MB")%string then Some (10 ^ 6)
  else if (u =? "G")%string || (u =? "GB")%string then Some (10 ^ 9)
  else if (u =? "T")%string || (u =? "TB")%string then Some (10 ^ 12)
  else None.

Definition parseSize (s : string) : option N :=
  let '(d, u) := spanDigits s in
  match decimal d, unitBytes u with
  | Some n, Some m => if n * m <? 2 ^ 64 then Some (n * m) else None
  | _, _ => None
  end.

Definition isSpace (c : ascii) : bool :=
  let n := N_of_ascii c in ((9 <=? n) && (n <=? 13)) || (n =? 32).

Fixpoint trimLeft (s : string) : string :=
  match s with
  | EmptyString => EmptyString
  | String c s' => if isSpace c then trimLeft s' else s
  end.

Fixpoint trimRight (s : string) : string :=
  match s with
  | EmptyString => EmptyString
  | String c s' =>
      let t := trimRight s' in
      if isSpace c && (t =? "")%string then EmptyString else String c t
  end.

Definition externals : Externals := {|
  IsUUID := uuidShape 0;
  ParseIP := dottedIPv4;
  ParseBytes := parseSize;
  HumanizeBytes := λ n, pretty n +:+ " B";
  TrimSpace := λ s, trimRight (trimLeft s);
  UnicodeToLower := λ s, s
|}.

(** A remote side without state that answers from a script. *)
Record script : Type := {
  onGetIP : reply IP;
  onGetVolume : string → reply Volume;
  onListServersTypes : reply (gmap string ServerType);
  onGetImage : reply Image;
  onGetBootscript : reply unit;
  onCreateIP : reply (option IP);
  onCreateServer : reply (option Server);
  onDeleteIP : option error;
  onServerAction : reply unit;
  onGetLocalImageIDByLabel : reply string;
  onListImages : reply (list MarketplaceImage)
}.

Definition scripted (sc : script) : CommandContext unit := {|
  apiInstance := {|
    GetIP := λ _ _ w, (onGetIP sc, w);
    GetVolume := λ _ id w, (onGetVolume sc id, w);
    ListServersTypes := λ _ w, (onListServersTypes sc, w);
    GetImage := λ _ _ w, (onGetImage sc, w);
    GetBootscript := λ _ _ w, (onGetBootscript sc, w);
    CreateIP := λ _ _ w, (onCreateIP sc, w);
    CreateServer := λ _ w, (onCreateServer sc, w);
    DeleteIP := λ _ _ w, (onDeleteIP sc, w);
    ServerActionPoweron := λ _ _ w, (onServerAction sc, w)
  |};
  apiMarketplace := {|
    GetLocalImageIDByLabel := λ _ _ _ w, (onGetLocalImageIDByLabel sc, w);
    ListImages := λ w, (onListImages sc, w)
  |};
  ctx_OrganizationID := "org-default"
|}.

Definition unavailable : error := Errorf "service unavailable".

(** Constraints of one commercial type, [DEV1-S], from 20 GB to 100 GB. *)
Definition serverTypes (min max : N) : gmap string ServerType :=
  {[ "DEV1-S" := {| ServerType_VolumesConstraint :=
                      {| MinSize := min; MaxSize := max |} |} ]}.

(** Every remote call succeeds. *)
Definition healthy : script := {|
  onGetIP := Ok {| IP_ID := "ip-1" |};
  onGetVolume := λ id, Ok {| Volume_ID := id; Volume_VolumeType := VolumeTypeBSSD;
                             Volume_Size := 50 * 10 ^ 9; Volume_Server := None |};
  onListServersTypes := Ok (serverTypes (20 * 10 ^ 9) (100 * 10 ^ 9));
  onGetImage := Ok {| Image_RootVolume_Size := 10 * 10 ^ 9 |};
  onGetBootscript := Ok tt;
  onCreateIP := Ok (Some {| IP_ID := "ip-new" |});
  onCreateServer := Ok (Some {| Server_ID := "srv-1" |});
  onDeleteIP := None;
  onServerAction := Ok tt;
  onGetLocalImageIDByLabel := Ok "22222222-2222-2222-2222-222222222222";
  onListImages := Ok [ {| Label := "ubuntu_bionic" |}; {| Label := "Ubuntu_Focal" |};
                       {| Label := "debian_buster" |} ]
|}.

(** [healthy], with one answer changed. *)
Definition withGetImage (sc : script) (r : reply Image) : script := {|
  onGetIP := onGetIP sc; onGetVolume := onGetVolume sc;
  onListServersTypes := onListServersTypes sc; onGetImage := r;
  onGetBootscript := onGetBootscript sc; onCreateIP := onCreateIP sc;
  onCreateServer := onCreateServer sc; onDeleteIP := onDeleteIP sc;
  onServerAction := onServerAction sc;
  onGetLocalImageIDByLabel := onGetLocalImageIDByLabel sc;
  onListImages := onListImages sc
|}.
Definition withCreateServer (sc : script) (r : reply (option Server))
    (d : option error) : script := {|
  onGetIP := onGetIP sc; onGetVolume := onGetVolume sc;
  onListServersTypes := onListServersTypes sc; onGetImage := onGetImage sc;
  onGetBootscript := onGetBootscript sc; onCreateIP := onCreateIP sc;
  onCreateServer := r; onDeleteIP := d;
  onServerAction := onServerAction sc;
  onGetLocalImageIDByLabel := onGetLocalImageIDByLabel sc;
  onListImages := onListImages sc
|}.
Definition withGetVolume (sc : script) (f : string → reply Volume) : script := {|
  onGetIP := onGetIP sc; onGetVolume := f;
  onListServersTypes := onListServersTypes sc; onGetImage := onGetImage sc;
  onGetBootscript := onGetBootscript sc; onCreateIP := onCreateIP sc;
  onCreateServer := onCreateServer sc; onDeleteIP := onDeleteIP sc;
  onServerAction := onServerAction sc;
  onGetLocalImageIDByLabel := onGetLocalImageIDByLabel sc;
  onListImages := onListImages sc
|}.

(** The image lookup fails. *)
Definition imageDown : script := withGetImage healthy (Fail unavailable).

(** The server creation fails, and so does the IP deletion. *)
Definition serverDown : script :=
  withCreateServer healthy (Fail unavailable) (Some (Errorf "ip is busy")).

Definition uuid1 : string := "11111111-1111-1111-1111-111111111111".

(** The start of a run: an empty trace. *)
Definition start : state unit := mkState tt [].

Definition exampleArgs : instanceCreateServerRequest := {|
  arg_Zone := "fr-par-1";
  arg_OrganizationID := "";
  arg_Image := "ubuntu_bionic";
  arg_Type := "DEV1-S";
  arg_Name := "srv";
  arg_RootVolume := "";
  arg_AdditionalVolumes := [];
  arg_IP := "new";
  arg_Tags := [];
  arg_IPv6 := false;
  arg_Start := false;
  arg_SecurityGroupID := "";
  arg_PlacementGroupID := "";
  arg_BootscriptID := ""
|}.

(** [exampleArgs] with a root volume descriptor. *)
Definition withRootVolume (args : instanceCreateServerRequest) (root : string)
  : instanceCreateServerRequest := {|
  arg_Zone := arg_Zone args;
  arg_OrganizationID := arg_OrganizationID args;
  arg_Image := arg_Image args;
  arg_Type := arg_Type args;
  arg_Name := arg_Name args;
  arg_RootVolume := root;
  arg_AdditionalVolumes := arg_AdditionalVolumes args;
  arg_IP := arg_IP args;
  arg_Tags := arg_Tags args;
  arg_IPv6 := arg_IPv6 args;
  arg_Start := arg_Start args;
  arg_SecurityGroupID := arg_SecurityGroupID args;
  arg_PlacementGroupID := arg_PlacementGroupID args;
  arg_BootscriptID := arg_BootscriptID args
|}.

Definition withIP (args : instanceCreateServerRequest) (ip : string)
  : instanceCreateServerRequest := {|
  arg_Zone := arg_Zone args;
  arg_OrganizationID := arg_OrganizationID args;
  arg_Image := arg_Image args;
  arg_Type := arg_Type args;
  arg_Name := arg_Name args;
  arg_RootVolume := arg_RootVolume args;
  arg_AdditionalVolumes := arg_AdditionalVolumes args;
  arg_IP := ip;
  arg_Tags := arg_Tags args;
  arg_IPv6 := arg_IPv6 args;
  arg_Start := arg_Start args;
  arg_SecurityGroupID := arg_SecurityGroupID args;
  arg_PlacementGroupID := arg_PlacementGroupID args;
  arg_BootscriptID := arg_BootscriptID args
|}.

(** The request before the IP block of [exampleArgs]. *)
Definition exampleReq : CreateServerRequest := {|
  req_Zone := "fr-par-1";
  req_Organization := "";
  req_Name := "srv";
  req_CommercialType := "DEV1-S";
  req_EnableIPv6 := false;
  req_Tags := [];
  req_Image := "22222222-2222-2222-2222-222222222222";
  req_PublicIP := None;
  req_DynamicIPRequired := None;
  req_Volumes := ∅;
  req_Bootscript := None;
  req_SecurityGroup := None;
  req_PlacementGroup := None
|}.

End Reference.

(** ** Names for the outcomes the statements speak of *)

(** The template of a new volume of a class and a size. *)
Definition newVolume (class : string) (size : N) (orgID : string) : VolumeTemplate :=
  {| ID := ""; Name := ""; Size := size; VolumeType := class;
     Organization := orgID |}.

(** The storage class that a class token of a descriptor stands for. *)
Definition storageClass (token class : string) : Prop :=
  ((token = "l" ∨ token = "local") ∧ class = VolumeTypeLSSD)
  ∨ ((token = "b" ∨ token = "block") ∧ class = VolumeTypeBSSD).

(** The request [r] with the given public IP and the given
    dynamic-IP-required flag, its other fields as they are. *)
Definition withIPFields (r : CreateServerRequest) (publicIP : option string)
    (dynamicIPRequired : option bool) : CreateServerRequest :=
  {| req_Zone := req_Zone r;
     req_Organization := req_Organization r;
     req_Name := req_Name r;
     req_CommercialType := req_CommercialType r;
     req_EnableIPv6 := req_EnableIPv6 r;
     req_Tags := req_Tags r;
     req_Image := req_Image r;
     req_PublicIP := publicIP;
     req_DynamicIPRequired := dynamicIPRequired;
     req_Volumes := req_Volumes r;
     req_Bootscript := req_Bootscript r;
     req_SecurityGroup := req_SecurityGroup r;
     req_PlacementGroup := req_PlacementGroup r |}.

(** The three errors of [validateRootVolume]. *)
Definition RootVolumeMustBeLocal : error := Errorf "First volume must be local.".
Definition RootVolumeCannotBeExisting : error :=
  Errorf "You cannot use an existing volume as a root volume. You must create an image of this volume and use its ID in the 'image' argument.".
Definition RootVolumeTooSmall `{Externals} (imageRootSize : N) : error :=
  Errorf ("First volume size must be at least " +:+ HumanizeBytes imageRootSize
          +:+ " for this image.").

(** The two errors of [validateLocalVolumeSizes]. *)
Definition LocalVolumeSizeMustEqual `{Externals} (commercialType : string) (min : N) : error :=
  Errorf (commercialType +:+ " total local volume size must be equal to "
          +:+ HumanizeBytes min +:+ ".").
Definition LocalVolumeSizeOutOfRange `{Externals} (commercialType : string) (min max : N)
  : error :=
  Errorf (commercialType +:+ " total local volume size must be between "
          +:+ HumanizeBytes min +:+ " and " +:+ HumanizeBytes max +:+ ".").

(** The error of a failed server creation. *)
Definition CannotCreateServer (err : error) : error :=
  Errorf ("Cannot create the server: " +:+ ErrorMsg err +:+ ".").

(** ** The shape of a run

    Names for what the statements about whole runs speak of. *)

(** A read-only remote call. *)
Definition isLookup (e : event) : bool :=
  match e with
  | EvGetLocalImageIDByLabel _ _ _ _ | EvGetIP _ _ _ | EvGetVolume _ _ _
  | EvListServersTypes _ _ | EvGetImage _ _ _ | EvGetBootscript _ _ _
  | EvListImages _ => true
  | _ => false
  end.

Definition isCreateIP (e : event) : bool :=
  match e with EvCreateIP _ _ _ => true | _ => false end.
Definition isCreateServer (e : event) : bool :=
  match e with EvCreateServer _ _ => true | _ => false end.
Definition isServerAction (e : event) : bool :=
  match e with EvServerAction _ _ _ => true | _ => false end.
Definition isGetLocalImageIDByLabel (e : event) : bool :=
  match e with EvGetLocalImageIDByLabel _ _ _ _ => true | _ => false end.
Definition isVolumeLookup (e : event) : bool :=
  match e with
  | EvGetVolume _ _ _ | EvListServersTypes _ _ | EvGetImage _ _ _ => true
  | _ => false
  end.

(** The error of a failed IP creation. *)
Definition CannotCreateIP (err : error) : error :=
  Errorf ("Error while creating your public IP: " +:+ ErrorMsg err +:+ ".").

(** The events of the deletion of the created IP, [d] being what the delete
    call returned. *)
Definition deleteEvents (zone ip : string) (d : option error) : list event :=
  [EvLog Info "deleting created IP: %s" [ip]; EvDeleteIP zone ip d]
  ++ match d with
     | Some derr =>
         [EvLog Warning "cannot delete the create IP %s: %s." [ip; ErrorMsg derr]]
     | None => []
     end.

(** The events of the start of the server, [action] being what the power-on
    call returned, [None] when the server is not to be started. *)
Definition startEvents (zone : string) (server : Server)
    (action : option (reply unit)) : list event :=
  match action with
  | None => []
  | Some r =>
      [EvLog Info "starting server" [];
       EvServerAction zone (Server_ID server) r;
       match r with
       | Fail err =>
           EvLog Warning
             "Cannot start the server: %s. Note that the server is successfully created."
             [ErrorMsg err]
       | Ok _ => EvLog Info "server started" []
       end]
  end.

(** The ways step 2 (resource creations) goes, for the request [req] that
    step 1 made: whether an IP is needed, the result, the events.  A
    creation that returns neither an error nor the object ends the run in a
    panic, at [res.IP.ID] or at [server.ID]. *)
Inductive Step2 (args : instanceCreateServerRequest) (req : CreateServerRequest)
  : bool → outcome Server → list event → Prop :=
| Step2_ip_failed cerr :
    Step2 args req true (Error (CannotCreateIP cerr))
      [EvLog Info "creating IP" [];
       EvCreateIP (arg_Zone args) (arg_OrganizationID args) (Fail cerr)]
| Step2_ip_missing :
    Step2 args req true Panic
      [EvLog Info "creating IP" [];
       EvCreateIP (arg_Zone args) (arg_OrganizationID args) (Ok None)]
| Step2_compensated res serr d :
    Step2 args req true (Error (CannotCreateServer serr))
      ([EvLog Info "creating IP" [];
        EvCreateIP (arg_Zone args) (arg_OrganizationID args) (Ok (Some res));
        EvLog Info "IP created: %s" [IP_ID res];
        EvLog Info "creating server" [];
        EvCreateServer (withPublicIP req (Some (IP_ID res))) (Fail serr)]
       ++ deleteEvents (arg_Zone args) (IP_ID res) d)
| Step2_server_missing_with_ip res :
    Step2 args req true Panic
      [EvLog Info "creating IP" [];
       EvCreateIP (arg_Zone args) (arg_OrganizationID args) (Ok (Some res));
       EvLog Info "IP created: %s" [IP_ID res];
       EvLog Info "creating server" [];
       EvCreateServer (withPublicIP req (Some (IP_ID res))) (Ok None)]
| Step2_created_with_ip res server action :
    (action = None ↔ arg_Start args = false) →
    Step2 args req true (Return server)
      ([EvLog Info "creating IP" [];
        EvCreateIP (arg_Zone args) (arg_OrganizationID args) (Ok (Some res));
        EvLog Info "IP created: %s" [IP_ID res];
        EvLog Info "creating server" [];
        EvCreateServer (withPublicIP req (Some (IP_ID res))) (Ok (Some server));
        EvLog Info "server created %s" [Server_ID server]]
       ++ startEvents (arg_Zone args) server action)
| Step2_failed serr :
    Step2 args req false (Error (CannotCreateServer serr))
      [EvLog Info "creating server" []; EvCreateServer req (Fail serr)]
| Step2_server_missing :
    Step2 args req false Panic
      [EvLog Info "creating server" []; EvCreateServer req (Ok None)]
| Step2_created server action :
    (action = None ↔ arg_Start args = false) →
    Step2 args req false (Return server)
      ([EvLog Info "creating server" [];
        EvCreateServer req (Ok (Some server));
        EvLog Info "server created %s" [Server_ID server]]
       ++ startEvents (arg_Zone args) server action).

(** ** The range loops, for a given order of visit

    Go visits the entries of a map in an order that it does not specify.
    These are the two loops over the volume map as they run when the
    entries are visited in the order of a list. *)

(** [for _, volume := range volumes] of [validateLocalVolumeSizes]. *)
Definition accumulateLocal (entries : list (string * VolumeTemplate)) : N :=
  fold_left (λ total entry,
               if (VolumeType entry.2 =? VolumeTypeLSSD)%string
               then wadd total (Size entry.2) else total)
            entries 0.

(** [for index, v := range volumes] of [sanitizeVolumeMap]. *)
Definition sanitizeEntries (serverName : string)
    (entries : list (string * VolumeTemplate)) : gmap string VolumeTemplate :=
  fold_left (λ m entry, <[entry.1 := sanitizeVolume serverName entry.1 entry.2]> m)
            entries ∅.

(** The events of each block of step 1. *)
Definition fromImage (e : event) : bool :=
  match e with EvGetLocalImageIDByLabel _ _ _ _ => true | _ => false end.
Definition fromIP (e : event) : bool :=
  match e with EvGetIP _ _ _ | EvLog _ _ _ => true | _ => false end.
Definition fromVolumes (e : event) : bool :=
  match e with
  | EvGetVolume _ _ _ | EvGetImage _ _ _ | EvListServersTypes _ _
  | EvLog _ _ _ => true
  | _ => false
  end.
Definition fromBootscript (e : event) : bool :=
  match e with EvGetBootscript _ _ _ => true | _ => false end.

(** The request as [instanceServerCreateRun] first makes it from the
    arguments. *)
Definition initialRequest (args : instanceCreateServerRequest) : CreateServerRequest :=
  {| req_Zone := arg_Zone args;
     req_Organization := arg_OrganizationID args;
     req_Name := arg_Name args;
     req_CommercialType := arg_Type args;
     req_EnableIPv6 := arg_IPv6 args;
     req_Tags := arg_Tags args;
     req_Image := "";
     req_PublicIP := None;
     req_DynamicIPRequired := None;
     req_Volumes := ∅;
     req_Bootscript := None;
     req_SecurityGroup := None;
     req_PlacementGroup := None |}.

(** The UUID that [buildVolumeTemplate] looks up for a descriptor: the
    descriptor trimmed, when it has one part and that part is a UUID. *)
Definition lookedUp `{Externals} (flagV : string) : option string :=
  match Split ":" (TrimSpace flagV) with
  | [uuid] => if IsUUID uuid then Some uuid else None
  | _ => None
  end.

(** The descriptors of a volume set, in the order [buildVolumes] parses
    them: the root descriptor when there is one, then the additional
    ones. *)
Definition descriptors (rootVolume : string) (additionalVolumes : list string)
  : list string :=
  (if (rootVolume =? "")%string then [] else [rootVolume]) ++ additionalVolumes.

(** The prefix of the autocompleter, as it is compared with the labels. *)
Definition normalizedPrefix `{Externals} (prefix : string) : string :=
  ToLower (ReplaceAll "-" "_" prefix).

(** ** More scripts and arguments to run the embedding on *)

Module Scenarios.
Import Reference.

(** The arguments of a command in zone fr-par-1, for the type DEV1-S and
    the name srv. *)
Definition arguments (image ip root : string) (additional : list string)
    (start : bool) (bootscript : string) : instanceCreateServerRequest := {|
  arg_Zone := "fr-par-1";
  arg_OrganizationID := "org-1";
  arg_Image := image;
  arg_Type := "DEV1-S";
  arg_Name := "srv";
  arg_RootVolume := root;
  arg_AdditionalVolumes := additional;
  arg_IP := ip;
  arg_Tags := ["web"];
  arg_IPv6 := true;
  arg_Start := start;
  arg_SecurityGroupID := "sg-1";
  arg_PlacementGroupID := "";
  arg_BootscriptID := bootscript
|}.

Definition uuid2 : string := "22222222-2222-2222-2222-222222222222".

(** The request that step 1 makes of [arguments uuid2 ip "" [] start ""],
    but for its IP fields. *)
Definition request : CreateServerRequest := {|
  req_Zone := "fr-par-1";
  req_Organization := "org-1";
  req_Name := "srv";
  req_CommercialType := "DEV1-S";
  req_EnableIPv6 := true;
  req_Tags := ["web"];
  req_Image := uuid2;
  req_PublicIP := None;
  req_DynamicIPRequired := None;
  req_Volumes := ∅;
  req_Bootscript := None;
  req_SecurityGroup := Some "sg-1";
  req_PlacementGroup := None
|}.

(** [healthy], with a failing IP creation, bootscript lookup or label
    lookup. *)
Definition ipDown : script := {|
  onGetIP := onGetIP healthy; onGetVolume := onGetVolume healthy;
  onListServersTypes := onListServersTypes healthy;
  onGetImage := onGetImage healthy; onGetBootscript := onGetBootscript healthy;
  onCreateIP := Fail unavailable; onCreateServer := onCreateServer healthy;
  onDeleteIP := onDeleteIP healthy; onServerAction := onServerAction healthy;
  onGetLocalImageIDByLabel := onGetLocalImageIDByLabel healthy;
  onListImages := onListImages healthy
|}.

Definition bootscriptDown : script := {|
  onGetIP := onGetIP healthy; onGetVolume := onGetVolume healthy;
  onListServersTypes := onListServersTypes healthy;
  onGetImage := onGetImage healthy; onGetBootscript := Fail unavailable;
  onCreateIP := onCreateIP healthy; onCreateServer := onCreateServer healthy;
  onDeleteIP := onDeleteIP healthy; onServerAction := onServerAction healthy;
  onGetLocalImageIDByLabel := onGetLocalImageIDByLabel healthy;
  onListImages := onListImages healthy
|}.

Definition labelDown : script := {|
  onGetIP := onGetIP healthy; onGetVolume := onGetVolume healthy;
  onListServersTypes := onListServersTypes healthy;
  onGetImage := onGetImage healthy; onGetBootscript := onGetBootscript healthy;
  onCreateIP := onCreateIP healthy; onCreateServer := onCreateServer healthy;
  onDeleteIP := onDeleteIP healthy; onServerAction := onServerAction healthy;
  onGetLocalImageIDByLabel := Fail unavailable;
  onListImages := onListImages healthy
|}.

(** [healthy], with a failing power-on. *)
Definition powerDown : script := {|
  onGetIP := onGetIP healthy; onGetVolume := onGetVolume healthy;
  onListServersTypes := onListServersTypes healthy;
  onGetImage := onGetImage healthy; onGetBootscript := onGetBootscript healthy;
  onCreateIP := onCreateIP healthy; onCreateServer := onCreateServer healthy;
  onDeleteIP := onDeleteIP healthy; onServerAction := Fail unavailable;
  onGetLocalImageIDByLabel := onGetLocalImageIDByLabel healthy;
  onListImages := onListImages healthy
|}.

(** [healthy], with a server creation that returns neither an error nor a
    server. *)
Definition serverMissing : script := {|
  onGetIP := onGetIP healthy; onGetVolume := onGetVolume healthy;
  onListServersTypes := onListServersTypes healthy;
  onGetImage := onGetImage healthy; onGetBootscript := onGetBootscript healthy;
  onCreateIP := onCreateIP healthy; onCreateServer := Ok None;
  onDeleteIP := onDeleteIP healthy; onServerAction := onServerAction healthy;
  onGetLocalImageIDByLabel := onGetLocalImageIDByLabel healthy;
  onListImages := onListImages healthy
|}.

(** A root volume, a block volume and a local volume. *)
Definition threeVolumes : gmap string VolumeTemplate :=
  {[ "0" := newVolume VolumeTypeLSSD (20 * 10 ^ 9) "";
     "1" := newVolume VolumeTypeBSSD (100 * 10 ^ 9) "org-1";
     "2" := newVolume VolumeTypeLSSD (30 * 10 ^ 9) "org-1" ]}.

End Scenarios.

(** * Properties *)

(** ** Go strings on small inputs *)

Example Split_two_parts : Split ":" "l:20GB" = ["l"; "20GB"].
Proof. reflexivity. Qed.

Example Split_no_separator : Split ":" "20GB" = ["20GB"].
Proof. reflexivity. Qed.

Example Split_empty : Split ":" "" = [""].
Proof. reflexivity. Qed.

Example Split_trailing_separator : Split ":" "l:20GB:" = ["l"; "20GB"; ""].
Proof. reflexivity. Qed.

(** [strings.Split] never returns an empty slice: the last branch of [Split]
    is dead code. *)
Lemma Split_not_nil sep s : Split sep s ≠ [].
Proof.
  destruct s as [| c s]; simpl; [done |].
  destruct (Ascii.eqb c sep); [done |]. by destruct (Split sep s).
Qed.

Example ReplaceAll_dashes : ReplaceAll "-" "_" "ubuntu-bionic-x" = "ubuntu_bionic_x".
Proof. reflexivity. Qed.

Example ToLower_ascii : ToLower (H := Reference.externals) "Ubuntu_B" = "ubuntu_b".
Proof. reflexivity. Qed.

Example HasPrefix_is_case_sensitive :
  HasPrefix "ubuntu_bionic" "ubuntu" = true ∧ HasPrefix "Ubuntu_Focal" "ubuntu" = false.
Proof. split; reflexivity. Qed.

Example Itoa_12 : Itoa 12 = "12".
Proof. reflexivity. Qed.

Example wadd_wraps : wadd (2 ^ 64 - 1) 2 = 1.
Proof. reflexivity. Qed.

(** ** Running the monad *)

Section MonadFacts.
Context {W : Type}.

Lemma bind_run {A B} (m : M W A) (f : A → M W B) s :
  (m ≫= f) s = match m s with
               | (Return a, s') => f a s'
               | (Error e, s') => (Error e, s')
               | (Panic, s') => (Panic, s')
               end.
Proof. reflexivity. Qed.

Lemma ret_run {A} (a : A) (s : state W) : (mret a : M W A) s = (Return a, s).
Proof. reflexivity. Qed.

Lemma call_run {A} (op : W → A * W) (ev : A → event) (s : state W) r w' :
  op (world s) = (r, w') →
  call op ev s = (Return r, mkState w' (trace s ++ [ev r])).
Proof. intros E. unfold call. by rewrite E. Qed.
End MonadFacts.

Ltac unfold_monad :=
  unfold mbind, M_bind, mret, M_ret, bind, ret, fail, panic, emit, Infof, Warningf in *.

Lemma eqb_string_true (a b : string) : (a =? b)%string = true ↔ a = b.
Proof. apply String.eqb_eq. Qed.

Lemma eqb_string_false (a b : string) : (a =? b)%string = false ↔ a ≠ b.
Proof. apply String.eqb_neq. Qed.

(** ** Volume resolution from a UUID *)

Section VolumeResolver.
Context {W : Type} `{Externals}.
Implicit Types (api : instanceAPI W) (s : state W).

(** C6. [buildVolumeTemplateFromUUID] performs one lookup of the volume.
    When the lookup fails, it fails with the error that the volume does not
    exist.  When the volume found is attached to a server, it fails with
    the error that the volume is already attached, naming that server.
    Otherwise it returns the template that carries the id, the storage
    class and the size of the volume found, with an empty organization
    (and an empty name). *)
Theorem buildVolumeTemplateFromUUID_outcomes api zone volumeUUID s r w' :
  GetVolume api zone volumeUUID (world s) = (r, w') →
  let out := (buildVolumeTemplateFromUUID api zone volumeUUID s).1 in
  (∀ err, r = Fail err →
     out = Error (Errorf ("Volume " +:+ volumeUUID +:+ " does not exist.")))
  ∧ (∀ vol srv, r = Ok vol → Volume_Server vol = Some srv →
     out = Error (Errorf ("Volume " +:+ Volume_ID vol +:+ " is already attached to "
                          +:+ ServerSummary_ID srv +:+ " server.")))
  ∧ (∀ vol, r = Ok vol → Volume_Server vol = None →
     out = Return {| ID := Volume_ID vol; Name := "";
                     Size := Volume_Size vol;
                     VolumeType := Volume_VolumeType vol;
                     Organization := "" |}).
Proof.
  intros E out. subst out. unfold buildVolumeTemplateFromUUID.
  rewrite bind_run, (call_run _ _ _ _ _ E).
  repeat split.
  - by intros err ->.
  - intros vol srv -> Hs. by rewrite Hs.
  - intros vol -> Hs. by rewrite Hs.
Qed.

(** The only remote call of the resolver is the lookup. *)
Lemma buildVolumeTemplateFromUUID_trace api zone volumeUUID s :
  ∃ r, trace (buildVolumeTemplateFromUUID api zone volumeUUID s).2
       = (trace s ++ [EvGetVolume zone volumeUUID r])%list.
Proof.
  unfold buildVolumeTemplateFromUUID. rewrite bind_run.
  destruct (GetVolume api zone volumeUUID (world s)) as [r w'] eqn:E.
  rewrite (call_run _ _ _ _ _ E). exists r.
  destruct r as [vol|err]; [destruct (Volume_Server vol)|]; reflexivity.
Qed.
End VolumeResolver.

(** ** The volume descriptor parser *)

Section VolumeParser.
Context {W : Type} `{Externals}.
Implicit Types (api : instanceAPI W) (s : state W).

(** C5. Let [parts] be the descriptor trimmed and split on the colon.
    With exactly two parts: a class token among l, local (local class) and
    b, block (block class) with a size that parses gives the template of a
    new volume of that class and that size, without a remote call; any
    other class token fails with the invalid volume type error; a class
    token that is accepted with a size that does not parse fails with the
    invalid size format error.  With one part that is a valid UUID the
    parser is the resolution of that UUID.  Every other descriptor fails
    with the invalid volume format error, whose hint names the UUID form,
    the local volume size form and the block volume size form. *)
Theorem buildVolumeTemplate_forms api zone orgID flagV s :
  let parts := Split ":" (TrimSpace flagV) in
  let out := buildVolumeTemplate api zone orgID flagV s in
  (∀ class size n, parts = [class; size] → ParseBytes size = Some n →
     ((class = "l" ∨ class = "local") →
        out = (Return (newVolume VolumeTypeLSSD n orgID), s))
     ∧ ((class = "b" ∨ class = "block") →
        out = (Return (newVolume VolumeTypeBSSD n orgID), s)))
  ∧ (∀ class size, parts = [class; size] →
     class ≠ "l" → class ≠ "local" → class ≠ "b" → class ≠ "block" →
     out = (Error (Errorf ("Invalid volume type " +:+ class +:+ " in "
                           +:+ flagV +:+ " volume.")), s))
  ∧ (∀ class size, parts = [class; size] →
     class = "l" ∨ class = "local" ∨ class = "b" ∨ class = "block" →
     ParseBytes size = None →
     out = (Error (Errorf ("Invalid size format " +:+ size +:+ " in "
                           +:+ flagV +:+ " volume.")), s))
  ∧ (∀ uuid, parts = [uuid] → IsUUID uuid = true →
     out = buildVolumeTemplateFromUUID api zone uuid s)
  ∧ ((∀ class size, parts ≠ [class; size]) →
     (∀ uuid, parts = [uuid] → IsUUID uuid = false) →
     out = (Error (CliError (Errorf ("invalid volume format '" +:+ flagV +:+ "'"))
                     "" volumeFormatHint), s)
     ∧ Contains volumeFormatHint "UUID" = true
     ∧ Contains volumeFormatHint "local volume size" = true
     ∧ Contains volumeFormatHint "block volume size" = true).
Proof.
  intros parts out. subst out. unfold buildVolumeTemplate. fold parts.
  clearbody parts.
  split; [|split; [|split; [|split]]].
  - intros class size n -> Hn.
    split; intros [-> | ->]; rewrite bind_run; cbn; by rewrite Hn.
  - intros class size -> Hl Hlocal Hb Hblock. rewrite bind_run.
    apply eqb_string_false in Hl, Hlocal, Hb, Hblock.
    by rewrite Hl, Hlocal, Hb, Hblock.
  - intros class size -> Hc Hsize. rewrite bind_run.
    destruct Hc as [-> | [-> | [-> | ->]]]; cbn; by rewrite Hsize.
  - intros uuid -> Hu. by rewrite Hu.
  - intros Hnot2 Hnotuuid. split; [|by repeat split].
    destruct parts as [|p0 [|p1 [|p2 rest]]]; try reflexivity.
    + by rewrite (Hnotuuid p0 eq_refl).
    + by destruct (Hnot2 p0 p1).
Qed.
End VolumeParser.

(** ** Root volume validation *)

Section RootVolume.
Context {W : Type} `{Externals}.
Implicit Types (api : instanceAPI W) (s : state W).

(** C3, as the code has it.  For a root template that is present: a class
    other than the local one fails with the error that the first volume
    must be local; a template of the local class that references an
    existing volume (non-empty id) fails with the error that an existing
    volume cannot be the root; a new volume of the local class smaller than
    the root volume size that the image declares fails with the error that
    the size must be at least that size.  An absent root template passes.
    (A template that is both of another class and a reference to an
    existing volume falls under the first case.) *)
Theorem validateRootVolume_outcomes api zone image s :
  (∀ rootVolume, VolumeType rootVolume ≠ VolumeTypeLSSD →
     validateRootVolume api zone image (Some rootVolume) s
     = (Error RootVolumeMustBeLocal, s))
  ∧ (∀ rootVolume, VolumeType rootVolume = VolumeTypeLSSD → ID rootVolume ≠ "" →
     validateRootVolume api zone image (Some rootVolume) s
     = (Error RootVolumeCannotBeExisting, s))
  ∧ (∀ rootVolume res w', VolumeType rootVolume = VolumeTypeLSSD →
     ID rootVolume = "" →
     GetImage api zone image (world s) = (Ok res, w') →
     Size rootVolume < Image_RootVolume_Size res →
     (validateRootVolume api zone image (Some rootVolume) s).1
     = Error (RootVolumeTooSmall (Image_RootVolume_Size res)))
  ∧ validateRootVolume api zone image None s = (Return tt, s).
Proof.
  unfold validateRootVolume. repeat split.
  - intros rv Hty. apply eqb_string_false in Hty. by rewrite Hty.
  - intros rv Hty Hid. apply eqb_string_true in Hty.
    apply eqb_string_false in Hid. by rewrite Hty, Hid.
  - intros rv res w' Hty Hid Hget Hlt. apply eqb_string_true in Hty.
    rewrite Hty, Hid. cbn [negb String.eqb].
    rewrite bind_run, (call_run _ _ _ _ _ Hget), bind_run, ret_run.
    apply N.ltb_lt in Hlt. by rewrite Hlt.
Qed.

(** A new local root volume at least as large as the image's root volume
    passes, after one image lookup. *)
Lemma validateRootVolume_large_enough api zone image s rootVolume res w' :
  VolumeType rootVolume = VolumeTypeLSSD → ID rootVolume = "" →
  GetImage api zone image (world s) = (Ok res, w') →
  Image_RootVolume_Size res ≤ Size rootVolume →
  validateRootVolume api zone image (Some rootVolume) s
  = (Return tt, mkState w' (trace s ++ [EvGetImage zone image (Ok res)])).
Proof.
  intros Hty Hid Hget Hle. unfold validateRootVolume.
  apply eqb_string_true in Hty. rewrite Hty, Hid. cbn [negb String.eqb].
  rewrite bind_run, (call_run _ _ _ _ _ Hget), bind_run, ret_run.
  apply N.ltb_ge in Hle. by rewrite Hle.
Qed.

(** When the image lookup fails, the two warnings are logged and the size
    comparison that follows dereferences the nil response. *)
Lemma validateRootVolume_lookup_failure api zone image s rootVolume err w' :
  VolumeType rootVolume = VolumeTypeLSSD → ID rootVolume = "" →
  GetImage api zone image (world s) = (Fail err, w') →
  validateRootVolume api zone image (Some rootVolume) s
  = (Panic,
     mkState w' (trace s ++ [EvGetImage zone image (Fail err)]
                   ++ [EvLog Warning "cannot get image %s: %s" [image; ErrorMsg err]]
                   ++ [EvLog Warning "skip root volume size validation" []])).
Proof.
  intros Hty Hid Hget. unfold validateRootVolume.
  apply eqb_string_true in Hty. rewrite Hty, Hid. cbn [negb String.eqb].
  rewrite bind_run, (call_run _ _ _ _ _ Hget), bind_run.
  unfold_monad. cbn. by rewrite <- !app_assoc.
Qed.
End RootVolume.

(** ** What a command adds to the trace *)

Section Emits.
Context {W : Type}.

Lemma emits_ret {A} P (a : A) : emits (W:=W) P (mret a).
Proof. intros s. exists []. by rewrite app_nil_r. Qed.

Lemma emits_fail {A} P e : emits (W:=W) (A:=A) P (fail e).
Proof. intros s. exists []. by rewrite app_nil_r. Qed.

Lemma emits_panic {A} P : emits (W:=W) (A:=A) P panic.
Proof. intros s. exists []. by rewrite app_nil_r. Qed.

Lemma emits_emit (P : event → Prop) ev : P ev → emits (W:=W) P (emit ev).
Proof. intros HP s. exists [ev]. split; [done | by constructor]. Qed.

Lemma emits_call {A} (P : event → Prop) (op : W → A * W) ev :
  (∀ r, P (ev r)) → emits P (call op ev).
Proof.
  intros HP s. unfold call. destruct (op (world s)) as [r w'].
  exists [ev r]. split; [done | by constructor].
Qed.

Lemma emits_bind {A B} P (m : M W A) (f : A → M W B) :
  emits P m → (∀ a, emits P (f a)) → emits P (m ≫= f).
Proof.
  intros Hm Hf s. rewrite bind_run.
  destruct (Hm s) as (evs1 & E1 & F1).
  destruct (m s) as [[a | e |] s1]; simpl in E1; [| by exists evs1 ..].
  destruct (Hf a s1) as (evs2 & E2 & F2).
  exists (evs1 ++ evs2)%list. split.
  - by rewrite E2, E1, app_assoc.
  - by apply Forall_app.
Qed.

Lemma emits_run {A} P (m : M W A) s out s' :
  emits P m → m s = (out, s') →
  ∃ evs, trace s' = (trace s ++ evs)%list ∧ Forall P evs.
Proof. intros Hm E. specialize (Hm s). by rewrite E in Hm. Qed.
End Emits.

(** Case analysis of a membership in a trace written as a concatenation. *)
Ltac in_cases H :=
  repeat match type of H with
         | _ ∈ (_ ++ _)%list => apply elem_of_app in H as [H | H]
         | _ ∈ _ :: _ => apply elem_of_cons in H as [H | H]
         | _ ∈ [] => apply elem_of_nil in H; destruct H
         end.

Ltac emits_step :=
  first
    [ apply emits_ret | apply emits_fail | apply emits_panic
    | apply emits_emit; reflexivity
    | apply emits_call; intros; reflexivity
    | apply emits_bind; [| intros ] ].

Ltac emits_cases :=
  repeat (emits_step
          || match goal with
             | |- emits _ (match ?x with _ => _ end) => destruct x
             | |- emits _ (if ?b then _ else _) => destruct b
             | |- emits _ (let (_, _) := ?x in _) => destruct x
             end).

(** ** Step 1 of the orchestrator makes no mutating call *)

Section ReadOnly.
Context {W : Type} `{Externals}.
Implicit Types (api : instanceAPI W) (ctx : CommandContext W).

Lemma buildVolumeTemplate_quiet api zone orgID flagV :
  emits quiet (buildVolumeTemplate api zone orgID flagV).
Proof.
  unfold buildVolumeTemplate, buildVolumeTemplateFromUUID.
  destruct (Split ":" (TrimSpace flagV)) as [|p0 [|p1 [|p2 rest]]];
    emits_cases.
Qed.

Lemma buildAdditionalVolumes_quiet api zone org name additional :
  ∀ i volumes,
    emits quiet (buildAdditionalVolumes api zone org name i additional volumes).
Proof.
  induction additional as [|v rest IH]; intros i volumes; simpl.
  - apply emits_ret.
  - apply emits_bind; [apply buildVolumeTemplate_quiet | intros; apply IH].
Qed.

Lemma buildVolumes_quiet api zone org name root additional :
  emits quiet (buildVolumes api zone org name root additional).
Proof.
  unfold buildVolumes. apply emits_bind.
  - destruct (negb _); [| apply emits_ret].
    apply emits_bind; [apply buildVolumeTemplate_quiet | intros; apply emits_ret].
  - intros. apply buildAdditionalVolumes_quiet.
Qed.

Lemma validateRootVolume_quiet api zone image rootVolume :
  emits quiet (validateRootVolume api zone image rootVolume).
Proof. unfold validateRootVolume, Warningf. emits_cases. Qed.

Lemma validateLocalVolumeSizes_quiet api volumes zone commercialType :
  emits quiet (validateLocalVolumeSizes api volumes zone commercialType).
Proof. unfold validateLocalVolumeSizes, Warningf. emits_cases. Qed.

Lemma prepareRequest_quiet ctx args : emits quiet (prepareRequest ctx args).
Proof.
  unfold prepareRequest.
  apply emits_bind; [unfold resolveImage; emits_cases | intros].
  apply emits_bind; [unfold resolveIP, Infof; emits_cases | intros [need req]].
  apply emits_bind; [| intros].
  { unfold resolveVolumes. destruct (_ || _); [| apply emits_ret].
    apply emits_bind; [apply buildVolumes_quiet | intros].
    apply emits_bind; [apply validateRootVolume_quiet | intros].
    apply emits_bind; [apply validateLocalVolumeSizes_quiet | intros].
    apply emits_ret. }
  apply emits_bind; [unfold resolveBootscript; emits_cases | intros].
  apply emits_ret.
Qed.
End ReadOnly.

(** ** The compensating transaction *)

Section Compensation.
Context {W : Type} `{Externals}.
Implicit Types (ctx : CommandContext W) (s : state W).

Lemma quiet_no_delete evs : Forall quiet evs → List.filter isDeleteIP evs = [].
Proof.
  induction 1 as [|e evs Q _ IH]; [done |]. simpl. rewrite IH.
  by destruct e.
Qed.

Lemma quiet_in evs e : Forall quiet evs → e ∈ evs → isMutation e = false.
Proof. intros Q Hin. rewrite Forall_forall in Q. exact (Q _ Hin). Qed.

(** The failure path of [createServer] after an IP was created: the delete
    call follows the failed creation, its failure adds a warning, and the
    error is the one of the creation. *)
Lemma createServer_failure ctx args serverReq s publicIP err w1 d w2 :
  req_PublicIP serverReq = Some publicIP →
  CreateServer (apiInstance ctx) serverReq (world s) = (Fail err, w1) →
  DeleteIP (apiInstance ctx) (arg_Zone args) publicIP w1 = (d, w2) →
  createServer ctx args true serverReq s
  = (Error (CannotCreateServer err),
     mkState w2
       (trace s
        ++ [EvLog Info "creating server" [];
            EvCreateServer serverReq (Fail err);
            EvLog Info "deleting created IP: %s" [publicIP];
            EvDeleteIP (arg_Zone args) publicIP d]
        ++ match d with
           | Some derr =>
               [EvLog Warning "cannot delete the create IP %s: %s."
                  [publicIP; ErrorMsg derr]]
           | None => []
           end)).
Proof.
  intros Hip Hcreate Hdelete.
  unfold createServer, deleteCreatedIP. rewrite Hip.
  unfold_monad. unfold call. cbn. rewrite Hcreate. cbn. rewrite Hdelete.
  destruct d; cbn; unfold CannotCreateServer;
    repeat rewrite <- app_assoc; reflexivity.
Qed.

(** The success path of [createServer] records no failed creation and no
    delete call. *)
Lemma createServer_success ctx args need serverReq s server w1 :
  CreateServer (apiInstance ctx) serverReq (world s) = (Ok server, w1) →
  ∃ evs, trace (createServer ctx args need serverReq s).2
         = (trace s ++ EvLog Info "creating server" []
              :: EvCreateServer serverReq (Ok server) :: evs)%list
         ∧ Forall (λ e, match e with
                        | EvLog _ _ _ | EvServerAction _ _ _ => True
                        | _ => False
                        end) evs.
Proof.
  intros Hcreate. unfold createServer.
  unfold_monad. unfold call. cbn. rewrite Hcreate.
  destruct server as [server |]; cbn.
  - destruct (arg_Start args); cbn.
    + destruct (ServerActionPoweron _ _ _ _) as [[[]|e] w2]; cbn;
        eexists; (split; [repeat rewrite <- app_assoc; reflexivity |]);
        repeat constructor.
    + eexists; (split; [repeat rewrite <- app_assoc; reflexivity |]);
        repeat constructor.
  - exists []. split; [repeat rewrite <- app_assoc; reflexivity | constructor].
Qed.

(** [createIP] when an IP is needed: one create-IP call between two log
    lines, or an error after the failed call, or a panic after a call that
    returned no IP. *)
Lemma createIP_needed ctx args serverReq s r w1 :
  CreateIP (apiInstance ctx) (arg_Zone args) (arg_OrganizationID args) (world s)
  = (r, w1) →
  createIP ctx args true serverReq s
  = match r with
    | Ok (Some res) =>
        (Return (withPublicIP serverReq (Some (IP_ID res))),
         mkState w1
           (trace s
            ++ [EvLog Info "creating IP" [];
                EvCreateIP (arg_Zone args) (arg_OrganizationID args)
                  (Ok (Some res));
                EvLog Info "IP created: %s" [IP_ID res]]))
    | Ok None =>
        (Panic,
         mkState w1
           (trace s
            ++ [EvLog Info "creating IP" [];
                EvCreateIP (arg_Zone args) (arg_OrganizationID args) (Ok None)]))
    | Fail cerr =>
        (Error (Errorf ("Error while creating your public IP: "
                        +:+ ErrorMsg cerr +:+ ".")),
         mkState w1
           (trace s
            ++ [EvLog Info "creating IP" [];
                EvCreateIP (arg_Zone args) (arg_OrganizationID args) (Fail cerr)]))
    end.
Proof.
  intros Hcreate. unfold createIP. unfold_monad. unfold call. cbn.
  rewrite Hcreate.
  destruct r as [[res |] | cerr]; cbn; repeat rewrite <- app_assoc; reflexivity.
Qed.

(** [createServer] when the creation fails and no IP was created by the
    run: no delete call. *)
Lemma createServer_failure_no_ip ctx args serverReq s err w1 :
  CreateServer (apiInstance ctx) serverReq (world s) = (Fail err, w1) →
  createServer ctx args false serverReq s
  = (Error (CannotCreateServer err),
     mkState w1 (trace s ++ [EvLog Info "creating server" [];
                             EvCreateServer serverReq (Fail err)])).
Proof.
  intros Hcreate. unfold createServer, deleteCreatedIP.
  unfold_monad. unfold call. cbn. rewrite Hcreate. cbn.
  repeat rewrite <- app_assoc; reflexivity.
Qed.

(** C1. In every run of [instanceServerCreateRun] whose trace holds a
    successful create-IP call (one that returned the IP) and a failed
    create-server call, the run returns the server creation error built
    from the error of that failed call, and the trace holds exactly one
    delete-IP call: the one for the id of the created IP, in the zone of
    the arguments.  When that delete call fails, its error is logged as a
    warning; it changes nothing in the error returned. *)
Theorem compensation_invariant ctx args w zone org ip serverReq err :
  let result := run (instanceServerCreateRun ctx args) w in
  EvCreateIP zone org (Ok (Some ip)) ∈ trace result.2 →
  EvCreateServer serverReq (Fail err) ∈ trace result.2 →
  result.1 = Error (CannotCreateServer err)
  ∧ ∃ d, List.filter isDeleteIP (trace result.2)
         = [EvDeleteIP (arg_Zone args) (IP_ID ip) d]
         ∧ ∀ derr, d = Some derr →
             EvLog Warning "cannot delete the create IP %s: %s."
               [IP_ID ip; ErrorMsg derr] ∈ trace result.2.
Proof.
  intros result. subst result. unfold run, instanceServerCreateRun.
  rewrite bind_run.
  destruct (prepareRequest ctx args (mkState w [])) as [o1 s1] eqn:E1.
  destruct (emits_run _ _ _ _ _ (prepareRequest_quiet ctx args) E1)
    as (evs1 & T1 & Q1).
  simpl in T1.
  destruct o1 as [[need req] | e |]; simpl.
  2, 3: intros Hin; rewrite T1 in Hin;
        by pose proof (quiet_in _ _ Q1 Hin).
  rewrite bind_run. destruct need.
  - (* an IP is needed *)
    destruct (CreateIP (apiInstance ctx) (arg_Zone args) (arg_OrganizationID args)
                (world s1)) as [[[res |] | cerr] w1] eqn:Ecreate;
      rewrite (createIP_needed _ _ _ _ _ _ Ecreate), T1.
    + (* the IP is created *)
      set (s2 := mkState w1 _).
      set (req2 := withPublicIP req (Some (IP_ID res))).
      destruct (CreateServer (apiInstance ctx) req2 (world s2))
        as [[server | serr] w2] eqn:Eserver.
      * (* the server is created: no failed creation in the trace *)
        intros _ Hin.
        destruct (createServer_success ctx args true req2 s2 server w2 Eserver)
          as (evs & T & F).
        rewrite T in Hin. subst s2. simpl in Hin.
        in_cases Hin; try discriminate.
        -- by pose proof (quiet_in _ _ Q1 Hin).
        -- rewrite Forall_forall in F. by destruct (F _ Hin).
      * (* the server creation fails *)
        destruct (DeleteIP (apiInstance ctx) (arg_Zone args) (IP_ID res) w2)
          as [d w3] eqn:Edelete.
        rewrite (createServer_failure ctx args req2 s2 (IP_ID res) serr w2 d w3
                   eq_refl Eserver Edelete).
        subst s2. simpl. intros Hip Hsrv.
        assert (ip = res ∧ err = serr) as [-> ->].
        { split.
          - in_cases Hip; try discriminate.
            + by pose proof (quiet_in _ _ Q1 Hip).
            + by injection Hip.
            + destruct d; in_cases Hip; discriminate.
          - in_cases Hsrv; try discriminate.
            + by pose proof (quiet_in _ _ Q1 Hsrv).
            + by injection Hsrv.
            + destruct d; in_cases Hsrv; discriminate. }
        split; [done |]. exists d. split.
        -- rewrite !List.filter_app, (quiet_no_delete _ Q1). simpl.
           by destruct d.
        -- intros derr ->. rewrite !elem_of_app, !elem_of_cons. auto 10.
    + (* the reply holds no IP: no create-server call in the trace *)
      simpl. intros _ Hin. in_cases Hin; try discriminate.
      by pose proof (quiet_in _ _ Q1 Hin).
    + (* the IP creation fails: no create-server call in the trace *)
      simpl. intros _ Hin. in_cases Hin; try discriminate.
      by pose proof (quiet_in _ _ Q1 Hin).
  - (* no IP is needed: no create-IP call in the trace *)
    unfold createIP. rewrite ret_run. intros Hin _.
    destruct (CreateServer (apiInstance ctx) req (world s1))
      as [[server | serr] w2] eqn:Eserver.
    + destruct (createServer_success ctx args false req s1 server w2 Eserver)
        as (evs & T & F).
      rewrite T, T1 in Hin. in_cases Hin; try discriminate.
      * by pose proof (quiet_in _ _ Q1 Hin).
      * rewrite Forall_forall in F. by destruct (F _ Hin).
    + rewrite (createServer_failure_no_ip _ _ _ _ _ _ Eserver) in Hin.
      simpl in Hin. rewrite T1 in Hin. in_cases Hin; try discriminate.
      by pose proof (quiet_in _ _ Q1 Hin).
Qed.
End Compensation.

(** ** The aggregate local-storage check *)

Section LocalStorage.
Context {W : Type} `{Externals}.
Implicit Types (api : instanceAPI W) (s : state W).
Implicit Types (volumes : gmap string VolumeTemplate).

Lemma sumLocal_empty : sumLocal ∅ = 0.
Proof. unfold sumLocal. by rewrite map_to_list_empty. Qed.

(** [sumLocal] counts each template once, whatever the order of the keys. *)
Lemma sumLocal_insert volumes k v :
  volumes !! k = None →
  sumLocal (<[k := v]> volumes) = localSize v + sumLocal volumes.
Proof.
  intros Hk. unfold sumLocal.
  assert (Hperm : ∀ l1 l2 : list (string * VolumeTemplate), l1 ≡ₚ l2 →
            foldr (λ kv acc, localSize kv.2 + acc) 0 l1
            = foldr (λ kv acc, localSize kv.2 + acc) 0 l2).
  { induction 1 as [| x l1 l2 _ IH | x y l | l1 l2 l3 _ IH1 _ IH2]; simpl;
      [done | by rewrite IH | lia | by rewrite IH1]. }
  exact (Hperm _ _ (map_to_list_insert volumes k v Hk)).
Qed.

(** The loop computes the local sum modulo 2^64. *)
Lemma localVolumeTotalSize_sum volumes :
  localVolumeTotalSize volumes = sumLocal volumes mod 2 ^ 64.
Proof.
  unfold localVolumeTotalSize, sumLocal. rewrite map_fold_foldr.
  induction (map_to_list volumes) as [| [k v] l IH]; [done |].
  simpl. rewrite IH. unfold wadd, localSize.
  destruct (VolumeType v =? VolumeTypeLSSD)%string.
  - by rewrite N.Div0.add_mod_idemp_l, N.add_comm.
  - by rewrite N.add_0_l.
Qed.

Lemma localVolumeTotalSize_bound volumes : localVolumeTotalSize volumes < 2 ^ 64.
Proof. rewrite localVolumeTotalSize_sum. by apply N.mod_lt. Qed.

(** The total that [validateLocalVolumeSizes] compares with the
    constraint. *)
Lemma comparedTotal_checkedTotal volumes min :
  match volumes !! "0" with
  | None => wadd (localVolumeTotalSize volumes) min
  | Some _ => localVolumeTotalSize volumes
  end = checkedTotal volumes min.
Proof.
  unfold checkedTotal. rewrite localVolumeTotalSize_sum.
  destruct (volumes !! "0").
  - by rewrite N.add_0_r.
  - unfold wadd. by rewrite N.Div0.add_mod_idemp_l.
Qed.

(** The run of the check once the constraints are listed and the
    commercial type is known. *)
Lemma validateLocalVolumeSizes_known api volumes zone commercialType s servers w'
    serverType :
  ListServersTypes api zone (world s) = (Ok servers, w') →
  servers !! commercialType = Some serverType →
  let min := MinSize (ServerType_VolumesConstraint serverType) in
  let max := MaxSize (ServerType_VolumesConstraint serverType) in
  let total := checkedTotal volumes min in
  validateLocalVolumeSizes api volumes zone commercialType s
  = (if (total <? min) || (max <? total)
     then if min =? max
          then Error (LocalVolumeSizeMustEqual commercialType min)
          else Error (LocalVolumeSizeOutOfRange commercialType min max)
     else Return tt,
     mkState w' (trace s ++ [EvListServersTypes zone (Ok servers)])).
Proof.
  intros Hlist Hty min max total. unfold validateLocalVolumeSizes.
  rewrite bind_run, (call_run _ _ _ _ _ Hlist), Hty.
  rewrite comparedTotal_checkedTotal. fold min max total.
  destruct ((total <? min) || (max <? total)); [| done].
  by destruct (min =? max).
Qed.


(** C10, as the code has it.  When no template is at key 0 and adding the
    minimum to the local total does not wrap around 2^64, the total checked
    is never below the minimum, and the check fails exactly when the total
    is above the maximum. *)
Theorem validateLocalVolumeSizes_no_root api volumes zone commercialType s
    servers w' serverType :
  ListServersTypes api zone (world s) = (Ok servers, w') →
  servers !! commercialType = Some serverType →
  volumes !! "0" = None →
  let min := MinSize (ServerType_VolumesConstraint serverType) in
  let max := MaxSize (ServerType_VolumesConstraint serverType) in
  let total := checkedTotal volumes min in
  localVolumeTotalSize volumes + min < 2 ^ 64 →
  total = localVolumeTotalSize volumes + min
  ∧ ¬ (total < min)
  ∧ ((∃ e, (validateLocalVolumeSizes api volumes zone commercialType s).1 = Error e)
     ↔ max < total).
Proof.
  intros Hlist Hty Hroot min max total Hnowrap.
  assert (Htotal : total = localVolumeTotalSize volumes + min).
  { subst total. rewrite <- comparedTotal_checkedTotal, Hroot.
    unfold wadd. by apply N.mod_small. }
  split; [done |]. split; [lia |].
  rewrite (validateLocalVolumeSizes_known _ _ _ _ _ _ _ _ Hlist Hty).
  fold min max total. cbn [fst].
  replace (total <? min) with false by (symmetry; apply N.ltb_ge; lia).
  cbn [orb]. destruct (max <? total) eqn:Hmax.
  - apply N.ltb_lt in Hmax. split; [done |]. intros _.
    destruct (min =? max); eauto.
  - apply N.ltb_ge in Hmax. split; [by intros [e ?] | lia].
Qed.
End LocalStorage.

(** ** IP argument resolution *)

Section IPResolution.
Context {W : Type} `{Externals}.
Implicit Types (ctx : CommandContext W) (s : state W).

(** C7. [resolveIP] decides every value of the [ip] argument.  The empty
    string and new ask for the creation of an IP, the request as it is.  A
    valid UUID becomes the public IP of the request as it is.  A string
    that parses as an IP literal is looked up: the id found becomes the
    public IP, and a failed lookup is the error that the address does not
    belong to the caller.  dynamic sets the dynamic-IP-required flag.  none
    leaves the request as it is, without a public IP of this block's.
    Every other string is the invalid IP error, whose message lists the
    accepted forms.  The requests are given field by field ([withIPFields]):
    in each case the other fields of the request are untouched.  The side
    conditions say that the forms do not overlap (a UUID is neither empty
    nor new, an IP literal is not a UUID, dynamic and none are neither), as
    is the case for [validation.IsUUID] and [net.ParseIP]. *)
Theorem resolveIP_forms ctx args serverReq s :
  let ip := arg_IP args in
  let result := resolveIP ctx args serverReq s in
  let publicIP := req_PublicIP serverReq in
  let dynamic := req_DynamicIPRequired serverReq in
  (ip = "" ∨ ip = "new" → result = (Return (true, serverReq), s))
  ∧ (IsUUID ip = true → ip ≠ "" → ip ≠ "new" →
     result = (Return (false, withIPFields serverReq (Some ip) dynamic), s))
  ∧ (ParseIP ip = true → ip ≠ "" → ip ≠ "new" → IsUUID ip = false →
     ∀ r w', GetIP (apiInstance ctx) (arg_Zone args) ip (world s) = (r, w') →
       result
       = (match r with
          | Ok res =>
              Return (false, withIPFields serverReq (Some (IP_ID res)) dynamic)
          | Fail _ => Error (Errorf (ip +:+ " does not belongs to you."))
          end,
          mkState w'
            (trace s ++ [EvLog Info "finding public IP UUID from address: %s" [ip];
                         EvGetIP (arg_Zone args) ip r])))
  ∧ (ip = "dynamic" → IsUUID ip = false → ParseIP ip = false →
     result = (Return (false, withIPFields serverReq publicIP (Some true)), s))
  ∧ (ip = "none" → IsUUID ip = false → ParseIP ip = false →
     result = (Return (false, serverReq), s))
  ∧ (ip ≠ "" → ip ≠ "new" → ip ≠ "dynamic" → ip ≠ "none" →
     IsUUID ip = false → ParseIP ip = false →
     result
     = (Error (Errorf ("Invalid IP " +:+ quoted ip
                       +:+ ", should be either 'new', 'dynamic', 'none', an IP address ID or a reserved flexible IP address.")),
        s)).
Proof.
  intros ip result publicIP dynamic. subst result publicIP dynamic.
  unfold resolveIP. fold ip. clearbody ip.
  split; [| split; [| split; [| split; [| split]]]].
  - by intros [-> | ->].
  - intros Hu He Hn. apply eqb_string_false in He, Hn.
    by rewrite He, Hn, Hu.
  - intros Hp He Hn Hu r w' Hget. apply eqb_string_false in He, Hn.
    rewrite He, Hn, Hu, Hp. cbn [orb].
    unfold_monad. unfold call. cbn. rewrite Hget.
    destruct r; cbn; by repeat rewrite <- app_assoc.
  - intros -> Hu Hp. by rewrite Hu, Hp.
  - intros -> Hu Hp. by rewrite Hu, Hp.
  - intros He Hn Hd Hno Hu Hp. apply eqb_string_false in He, Hn, Hd, Hno.
    by rewrite He, Hn, Hu, Hp, Hd, Hno.
Qed.
End IPResolution.

(** ** Image label autocompletion *)

Section Autocomplete.
Context {W : Type} `{Externals}.
Implicit Types (ctx : CommandContext W) (s : state W).

(** C9, as the code has it.  The autocompleter lists the images once.  It
    returns, in the order of the listing, exactly the labels that start,
    byte for byte, with the prefix once its dashes are mapped to
    underscores and it is lower-cased: the case of the typed prefix is
    ignored, the labels are compared as they are listed.  When the listing
    fails it returns no suggestion, and no error. *)
Theorem autocomplete_labels ctx prefix s r w' :
  ListImages (apiMarketplace ctx) (world s) = (r, w') →
  let result := instanceServerCreateImageAutoCompleteFunc ctx prefix s in
  let normalized := ToLower (ReplaceAll "-" "_" prefix) in
  (∀ images, r = Ok images →
     result.1 = Return (List.filter (λ label, HasPrefix label normalized)
                          (map Label images)))
  ∧ (∀ err, r = Fail err → result.1 = Return [])
  ∧ trace result.2 = (trace s ++ [EvListImages r])%list.
Proof.
  intros Hlist result normalized. subst result.
  unfold instanceServerCreateImageAutoCompleteFunc.
  rewrite bind_run, (call_run _ _ _ _ _ Hlist). fold normalized.
  split; [| split].
  - intros images ->. rewrite ret_run. cbn [fst]. f_equal. clear Hlist.
    induction images as [| image images IH]; [done |]. simpl.
    destruct (HasPrefix (Label image) normalized); simpl; by rewrite IH.
  - by intros err ->.
  - by destruct r.
Qed.
End Autocomplete.

(** ** The volume map sent to the API *)

Section VolumeSet.
Context {W : Type} `{Externals}.
Implicit Types (api : instanceAPI W) (s : state W).
Implicit Types (volumes : gmap string VolumeTemplate).

Lemma Itoa_inj n m : Itoa n = Itoa m → n = m.
Proof. apply (inj pretty). Qed.

Lemma Itoa_succ_not_root n : Itoa (n + 1) ≠ "0".
Proof. intros Heq. apply (Itoa_inj (n + 1) 0) in Heq. lia. Qed.

(** A key is the numeral of one of the positions 1 to [n], or of none. *)
Lemma additional_key_cases (k : string) (n : nat) :
  (∃ i, (i < n)%nat ∧ k = Itoa (i + 1))
  ∨ (∀ j, (j < n)%nat → k ≠ Itoa (j + 1)).
Proof.
  induction n as [| n [(i & Hi & ->) | Hno]].
  - right. intros j Hj. lia.
  - left. exists i. split; [lia | done].
  - destruct (decide (k = Itoa (n + 1))) as [-> | Hne].
    + left. exists n. split; [lia | done].
    + right. intros j Hj. destruct (decide (j = n)) as [-> | Hjn].
      * done.
      * apply Hno. lia.
Qed.

(** The loop on the additional volumes writes, for the descriptor at
    position [j], the entry of key [i + j + 1], and leaves the other keys as
    they were. *)
Lemma buildAdditionalVolumes_entries api zone org name additional :
  ∀ i volumes0 s volumes s',
    buildAdditionalVolumes api zone org name i additional volumes0 s
    = (Return volumes, s') →
    (∀ j d, additional !! j = Some d →
       ∃ t s1 s2,
         buildVolumeTemplate api zone org d s1 = (Return t, s2)
         ∧ volumes !! Itoa (i + j + 1)
           = Some (additionalVolume name (Itoa (i + j + 1)) t))
    ∧ (∀ k, (∀ j, (j < length additional)%nat → k ≠ Itoa (i + j + 1)) →
            volumes !! k = volumes0 !! k).
Proof.
  induction additional as [| v rest IH]; intros i volumes0 s volumes s' Hrun;
    simpl in Hrun.
  - injection Hrun as <- <-. split; [| done].
    intros j d Hj. by rewrite lookup_nil in Hj.
  - rewrite bind_run in Hrun.
    destruct (buildVolumeTemplate api zone org v s) as [[t | e |] s1] eqn:Et;
      try discriminate.
    apply IH in Hrun as [Hent Hother]. split.
    + intros [| j] d Hj; simpl in Hj.
      * injection Hj as <-. exists t, s, s1. split; [done |].
        rewrite Hother.
        -- replace (i + 0 + 1)%nat with (i + 1)%nat by lia.
           by rewrite lookup_insert_eq.
        -- intros j _ Heq. apply Itoa_inj in Heq. lia.
      * destruct (Hent j d Hj) as (t' & s1' & s2' & Hb & Hl).
        exists t', s1', s2'. split; [done |].
        by replace (i + S j + 1)%nat with (S i + j + 1)%nat by lia.
    + intros k Hk. rewrite Hother.
      * apply lookup_insert_ne. intros Heq.
        apply (Hk 0%nat); [simpl; lia |].
        by replace (i + 0 + 1)%nat with (i + 1)%nat by lia.
      * intros j Hj. replace (S i + j + 1)%nat with (i + S j + 1)%nat by lia.
        apply Hk. simpl. lia.
Qed.

(** The loop as [buildVolumes] runs it, from position 0. *)
Lemma buildAdditionalVolumes_from_0 api zone org name additional volumes0 s
    volumes s' :
  buildAdditionalVolumes api zone org name 0 additional volumes0 s
  = (Return volumes, s') →
  (∀ j d, additional !! j = Some d →
     ∃ t s1 s2,
       buildVolumeTemplate api zone org d s1 = (Return t, s2)
       ∧ volumes !! Itoa (j + 1) = Some (additionalVolume name (Itoa (j + 1)) t))
  ∧ (∀ k, (∀ j, (j < length additional)%nat → k ≠ Itoa (j + 1)) →
          volumes !! k = volumes0 !! k).
Proof. exact (buildAdditionalVolumes_entries _ _ _ _ _ 0%nat _ _ _ _). Qed.

(** What [sanitizeVolumeMap] makes of the entry of an additional volume. *)
Lemma sanitizeVolume_additional name n t :
  sanitizeVolume name (Itoa (n + 1)) (additionalVolume name (Itoa (n + 1)) t)
  = if negb (ID t =? "")%string
    then {| ID := ID t; Name := name +:+ "-" +:+ Itoa (n + 1); Size := 0;
            VolumeType := ""; Organization := "" |}
    else {| ID := ""; Name := name +:+ "-" +:+ Itoa (n + 1); Size := Size t;
            VolumeType := VolumeType t; Organization := Organization t |}.
Proof.
  unfold sanitizeVolume, additionalVolume. cbn [withName ID Name].
  destruct (ID t =? "")%string eqn:Hid; cbn [negb ID Name Size withName].
  - rewrite Hid. cbn [negb].
    pose proof (Itoa_succ_not_root n) as Hk. apply eqb_string_false in Hk.
    rewrite Hk. cbn [andb]. apply eqb_string_true in Hid.
    unfold withName. cbn [ID Name Size VolumeType Organization].
    by rewrite Hid.
  - by rewrite Hid.
Qed.

(** What [sanitizeVolumeMap] makes of the entry of the root volume. *)
Lemma sanitizeVolume_root name t :
  sanitizeVolume name "0" (withOrganization t "")
  = if negb (ID t =? "")%string
    then {| ID := ID t; Name := name +:+ "-0"; Size := 0;
            VolumeType := ""; Organization := "" |}
    else if negb (Size t =? 0)
    then {| ID := ""; Name := ""; Size := Size t;
            VolumeType := ""; Organization := "" |}
    else {| ID := ""; Name := name +:+ "-0"; Size := 0;
            VolumeType := VolumeType t; Organization := "" |}.
Proof.
  unfold sanitizeVolume. cbn [withName withOrganization ID Name Size].
  destruct (ID t =? "")%string eqn:Hid; cbn [negb]; [| done].
  cbn [String.eqb Ascii.eqb Bool.eqb andb].
  apply eqb_string_true in Hid.
  destruct (Size t =? 0) eqn:Hsize; cbn [negb]; [| done].
  apply N.eqb_eq in Hsize.
  unfold withName, withOrganization. cbn [ID Name Size VolumeType Organization].
  by rewrite Hid, Hsize.
Qed.

(** The keys of the sanitized map, and its entries in terms of the
    templates built from the descriptors. *)
Lemma sanitized_entries api zone org name root additional s volumes s' :
  buildVolumes api zone org name root additional s = (Return volumes, s') →
  let final := sanitizeVolumeMap name volumes in
  (∀ k, is_Some (final !! k)
        ↔ (k = "0" ∧ root ≠ "")
          ∨ ∃ i, (i < length additional)%nat ∧ k = Itoa (i + 1))
  ∧ (∀ i d, additional !! i = Some d →
       ∃ t s1 s2,
         buildVolumeTemplate api zone org d s1 = (Return t, s2)
         ∧ (ID t ≠ "" →
            final !! Itoa (i + 1)
            = Some {| ID := ID t; Name := name +:+ "-" +:+ Itoa (i + 1);
                      Size := 0; VolumeType := ""; Organization := "" |})
         ∧ (ID t = "" →
            final !! Itoa (i + 1)
            = Some {| ID := ""; Name := name +:+ "-" +:+ Itoa (i + 1);
                      Size := Size t; VolumeType := VolumeType t;
                      Organization := Organization t |}))
  ∧ (root ≠ "" →
       ∃ t s2,
         buildVolumeTemplate api zone org root s = (Return t, s2)
         ∧ (ID t ≠ "" →
            final !! "0"
            = Some {| ID := ID t; Name := name +:+ "-0";
                      Size := 0; VolumeType := ""; Organization := "" |})
         ∧ (ID t = "" → Size t ≠ 0 →
            final !! "0"
            = Some {| ID := ""; Name := ""; Size := Size t;
                      VolumeType := ""; Organization := "" |})).
Proof.
  intros Hrun final. subst final. unfold buildVolumes in Hrun.
  rewrite bind_run in Hrun.
  assert (Hfinal : ∀ k, sanitizeVolumeMap name volumes !! k
                        = sanitizeVolume name k <$> volumes !! k).
  { intros k. unfold sanitizeVolumeMap. rewrite map_lookup_imap.
    by destruct (volumes !! k). }
  destruct (root =? "")%string eqn:Hroot; cbn [negb] in Hrun.
  - (* no root descriptor *)
    apply eqb_string_true in Hroot. rewrite ret_run in Hrun.
    apply buildAdditionalVolumes_from_0 in Hrun as [Hent Hother].
    split; [| split; [| done]].
    + intros k. rewrite Hfinal, fmap_is_Some. split.
      * intros Hk. right.
        destruct (additional_key_cases k (length additional)) as [| Hno];
          [done |].
        rewrite (Hother _ Hno), lookup_empty in Hk. by destruct Hk.
      * intros [[_ Hne] | (i & Hi & ->)]; [done |].
        destruct (lookup_lt_is_Some_2 additional i Hi) as [d Hd].
        destruct (Hent i d Hd) as (t & _ & _ & _ & Hl).
        by rewrite Hl.
    + intros i d Hd. destruct (Hent i d Hd) as (t & s1 & s2 & Hb & Hl).
      exists t, s1, s2. split; [done |].
      rewrite Hfinal, Hl. cbn [fmap option_fmap option_map Nat.add].
      rewrite sanitizeVolume_additional.
      split; intros Hid.
      * apply eqb_string_false in Hid. by rewrite Hid.
      * by rewrite Hid.
  - (* a root descriptor *)
    apply eqb_string_false in Hroot. rewrite bind_run in Hrun.
    destruct (buildVolumeTemplate api zone org root s) as [[t0 | e |] s0] eqn:Eroot;
      try discriminate.
    rewrite ret_run in Hrun.
    apply buildAdditionalVolumes_from_0 in Hrun as [Hent Hother].
    assert (Hzero : volumes !! "0" = Some (withOrganization t0 "")).
    { rewrite Hother; [by rewrite lookup_insert_eq |].
      intros j _ Heq. symmetry in Heq. by apply Itoa_succ_not_root in Heq. }
    split; [| split].
    + intros k. rewrite Hfinal, fmap_is_Some. split.
      * intros Hk.
        destruct (additional_key_cases k (length additional)) as [| Hno];
          [by right |].
        left. split; [| done].
        destruct (decide (k = "0")) as [| Hk0]; [done |].
        rewrite (Hother _ Hno), lookup_insert_ne, lookup_empty in Hk;
          [by destruct Hk | done].
      * intros [[-> _] | (i & Hi & ->)]; [by rewrite Hzero |].
        destruct (lookup_lt_is_Some_2 additional i Hi) as [d Hd].
        destruct (Hent i d Hd) as (t & _ & _ & _ & Hl).
        by rewrite Hl.
    + intros i d Hd. destruct (Hent i d Hd) as (t & s1 & s2 & Hb & Hl).
      exists t, s1, s2. split; [done |].
      rewrite Hfinal, Hl. cbn [fmap option_fmap option_map Nat.add].
      rewrite sanitizeVolume_additional.
      split; intros Hid.
      * apply eqb_string_false in Hid. by rewrite Hid.
      * by rewrite Hid.
    + intros _. exists t0, s0. split; [done |].
      rewrite Hfinal, Hzero. cbn [fmap option_fmap option_map].
      rewrite sanitizeVolume_root. split.
      * intros Hid. apply eqb_string_false in Hid. by rewrite Hid.
      * intros Hid Hsize. apply N.eqb_neq in Hsize. by rewrite Hid, Hsize.
Qed.
(** The template of a descriptor of the new-volume form. *)
Lemma buildVolumeTemplate_new_volume api zone org flagV s token size class n :
  Split ":" (TrimSpace flagV) = [token; size] →
  storageClass token class →
  ParseBytes size = Some n →
  buildVolumeTemplate api zone org flagV s = (Return (newVolume class n org), s).
Proof.
  intros Hparts Hclass Hsize. unfold buildVolumeTemplate.
  rewrite Hparts, bind_run.
  destruct Hclass as [[[-> | ->] ->] | [[-> | ->] ->]]; cbn; by rewrite Hsize.
Qed.

(** C8. Let [final] be the sanitized map of a volume map that
    [buildVolumes] returned.  Its keys are 0, when a root descriptor is
    given, and the decimal numerals of 1, 2, ... up to the number of
    additional descriptors.  The entry of key i+1 comes from the template
    [t] built from the additional descriptor at position [i]: when [t]
    references an existing volume (non-empty id) the entry is exactly that
    id with the name made of the server name, a dash and the key, and no
    size, class or organization; otherwise it keeps the storage class, the
    size and the organization of [t] under that name.  The entry of key 0
    comes from the template built from the root descriptor: with an id, the
    id and the name; without an id and with a non-zero size, exactly the
    size.  In particular an additional descriptor of the new-volume form
    gives the entry with its name, its class, its size and the organization
    of the call, and a root descriptor of that form with a non-zero size
    gives the entry with that size alone. *)
Theorem final_volume_map api zone org name root additional s volumes s' :
  buildVolumes api zone org name root additional s = (Return volumes, s') →
  let final := sanitizeVolumeMap name volumes in
  (∀ k, is_Some (final !! k)
        ↔ (k = "0" ∧ root ≠ "")
          ∨ ∃ i, (i < length additional)%nat ∧ k = Itoa (i + 1))
  ∧ (∀ i d, additional !! i = Some d →
       ∃ t s1 s2,
         buildVolumeTemplate api zone org d s1 = (Return t, s2)
         ∧ (ID t ≠ "" →
            final !! Itoa (i + 1)
            = Some {| ID := ID t; Name := name +:+ "-" +:+ Itoa (i + 1);
                      Size := 0; VolumeType := ""; Organization := "" |})
         ∧ (ID t = "" →
            final !! Itoa (i + 1)
            = Some {| ID := ""; Name := name +:+ "-" +:+ Itoa (i + 1);
                      Size := Size t; VolumeType := VolumeType t;
                      Organization := Organization t |}))
  ∧ (root ≠ "" →
       ∃ t s2,
         buildVolumeTemplate api zone org root s = (Return t, s2)
         ∧ (ID t ≠ "" →
            final !! "0"
            = Some {| ID := ID t; Name := name +:+ "-0";
                      Size := 0; VolumeType := ""; Organization := "" |})
         ∧ (ID t = "" → Size t ≠ 0 →
            final !! "0"
            = Some {| ID := ""; Name := ""; Size := Size t;
                      VolumeType := ""; Organization := "" |}))
  ∧ (∀ i d token size class n,
       additional !! i = Some d →
       Split ":" (TrimSpace d) = [token; size] →
       storageClass token class → ParseBytes size = Some n →
       final !! Itoa (i + 1)
       = Some {| ID := ""; Name := name +:+ "-" +:+ Itoa (i + 1);
                 Size := n; VolumeType := class; Organization := org |})
  ∧ (∀ token size class n,
       root ≠ "" →
       Split ":" (TrimSpace root) = [token; size] →
       storageClass token class → ParseBytes size = Some n → n ≠ 0 →
       final !! "0"
       = Some {| ID := ""; Name := ""; Size := n;
                 VolumeType := ""; Organization := "" |}).
Proof.
  intros Hrun final.
  destruct (sanitized_entries _ _ _ _ _ _ _ _ _ Hrun) as (Hkeys & Hadd & Hroot).
  fold final in Hkeys, Hadd, Hroot.
  split; [done | split; [done | split; [done | split]]].
  - intros i d token size class n Hd Hparts Hclass Hsize.
    destruct (Hadd i d Hd) as (t & s1 & s2 & Hbuilt & _ & Hnew).
    rewrite (buildVolumeTemplate_new_volume _ _ _ _ _ _ _ _ _ Hparts Hclass Hsize)
      in Hbuilt.
    injection Hbuilt as <- _. by apply Hnew.
  - intros token size class n Hne Hparts Hclass Hsize Hn.
    destruct (Hroot Hne) as (t & s2 & Hbuilt & _ & Hnew).
    rewrite (buildVolumeTemplate_new_volume _ _ _ _ _ _ _ _ _ Hparts Hclass Hsize)
      in Hbuilt.
    injection Hbuilt as <- _. by apply Hnew.
Qed.
End VolumeSet.

(** * Runs on the reference instance *)

Section Runs.
Import Reference.
#[local] Existing Instance externals.

(** The server creation fails after the IP is created, and the deletion of
    the IP fails too. *)
Lemma compensation_invariant_witness :
  let result := run (instanceServerCreateRun (scripted serverDown) exampleArgs) tt in
  result.1 = Error (CannotCreateServer unavailable)
  ∧ ∃ d, List.filter isDeleteIP (trace result.2) = [EvDeleteIP "fr-par-1" "ip-new" d]
         ∧ ∀ derr, d = Some derr →
             EvLog Warning "cannot delete the create IP %s: %s."
               ["ip-new"; ErrorMsg derr] ∈ trace result.2.
Proof.
  apply (compensation_invariant (scripted serverDown) exampleArgs tt
           "fr-par-1" "" {| IP_ID := "ip-new" |}
           (withPublicIP exampleReq (Some "ip-new")) unavailable);
    vm_compute; repeat constructor.
Defined.

(** C2: the image lookup fails.  The code logs that it skips the size
    validation and then compares the size with the one of the nil
    response: the validation panics, and so does the whole command, where
    the claim has it return success. *)
Theorem validateRootVolume_image_lookup_failure :
  validateRootVolume (apiInstance (scripted imageDown)) "fr-par-1" "img"
    (Some (newVolume VolumeTypeLSSD (20 * 10 ^ 9) "")) start
  = (Panic,
     mkState tt
       [EvGetImage "fr-par-1" "img" (Fail unavailable);
        EvLog Warning "cannot get image %s: %s" ["img"; "service unavailable"];
        EvLog Warning "skip root volume size validation" []])
  ∧ (run (instanceServerCreateRun (scripted imageDown)
            (withRootVolume exampleArgs "l:20GB")) tt).1 = Panic.
Proof. split; vm_compute; reflexivity. Qed.

(** A block root, an existing local volume as root, a root of 5 GB for an
    image of 10 GB, no root. *)
Lemma validateRootVolume_outcomes_witness :
  let api := apiInstance (scripted healthy) in
  validateRootVolume api "fr-par-1" "img"
    (Some (newVolume VolumeTypeBSSD (20 * 10 ^ 9) "")) start
  = (Error RootVolumeMustBeLocal, start)
  ∧ validateRootVolume api "fr-par-1" "img"
      (Some {| ID := uuid1; Name := ""; Size := 50 * 10 ^ 9;
               VolumeType := VolumeTypeLSSD; Organization := "" |}) start
    = (Error RootVolumeCannotBeExisting, start)
  ∧ (validateRootVolume api "fr-par-1" "img"
       (Some (newVolume VolumeTypeLSSD (5 * 10 ^ 9) "")) start).1
    = Error (RootVolumeTooSmall (10 * 10 ^ 9))
  ∧ validateRootVolume api "fr-par-1" "img" None start = (Return tt, start).
Proof.
  intros api.
  destruct (validateRootVolume_outcomes api "fr-par-1" "img" start)
    as (Hclass & Hexisting & Hsmall & Habsent).
  split; [| split; [| split]].
  - apply Hclass. discriminate.
  - apply Hexisting; [reflexivity | discriminate].
  - apply (Hsmall _ {| Image_RootVolume_Size := 10 * 10 ^ 9 |} tt);
      reflexivity.
  - apply Habsent.
Defined.

(** C3, as stated, fails on a root template that references an existing
    volume of the block class, which is what [buildVolumes] makes of the
    UUID of a block volume: the validation answers that the first volume
    must be local, not that an existing volume cannot be the root. *)
Lemma validateRootVolume_existing_block_volume :
  let rootVolume := {| ID := uuid1; Name := ""; Size := 50 * 10 ^ 9;
                       VolumeType := VolumeTypeBSSD; Organization := "" |} in
  (run (buildVolumes (apiInstance (scripted healthy)) "fr-par-1" "org" "srv"
          uuid1 []) tt).1 = Return {[ "0" := rootVolume ]}
  ∧ ID rootVolume ≠ ""
  ∧ validateRootVolume (apiInstance (scripted healthy)) "fr-par-1" "img"
      (Some rootVolume) start
    = (Error RootVolumeMustBeLocal, start)
  ∧ RootVolumeMustBeLocal ≠ RootVolumeCannotBeExisting.
Proof.
  intros rootVolume. split; [| split; [| split]].
  - vm_compute. reflexivity.
  - discriminate.
  - reflexivity.
  - discriminate.
Qed.


(** A failed lookup, an attached volume, a free volume. *)
Lemma buildVolumeTemplateFromUUID_outcomes_witness :
  let attached id : reply Volume :=
    Ok {| Volume_ID := id; Volume_VolumeType := VolumeTypeBSSD;
          Volume_Size := 50 * 10 ^ 9;
          Volume_Server := Some {| ServerSummary_ID := "srv-9" |} |} in
  let lookup sc := (buildVolumeTemplateFromUUID (apiInstance (scripted sc))
                      "fr-par-1" uuid1 start).1 in
  lookup (withGetVolume healthy (λ _, Fail unavailable))
  = Error (Errorf ("Volume " +:+ uuid1 +:+ " does not exist."))
  ∧ lookup (withGetVolume healthy attached)
    = Error (Errorf ("Volume " +:+ uuid1 +:+ " is already attached to srv-9 server."))
  ∧ lookup healthy
    = Return {| ID := uuid1; Name := ""; Size := 50 * 10 ^ 9;
                VolumeType := VolumeTypeBSSD; Organization := "" |}.
Proof.
  intros attached lookup. split; [| split].
  - exact (proj1 (buildVolumeTemplateFromUUID_outcomes
                    (apiInstance (scripted (withGetVolume healthy (λ _, Fail unavailable))))
                    "fr-par-1" uuid1 start _ tt eq_refl) unavailable eq_refl).
  - exact (proj1 (proj2 (buildVolumeTemplateFromUUID_outcomes
                    (apiInstance (scripted (withGetVolume healthy attached)))
                    "fr-par-1" uuid1 start _ tt eq_refl)) _ _ eq_refl eq_refl).
  - exact (proj2 (proj2 (buildVolumeTemplateFromUUID_outcomes
                    (apiInstance (scripted healthy))
                    "fr-par-1" uuid1 start _ tt eq_refl)) _ eq_refl eq_refl).
Defined.

(** Descriptors of each form. *)
Lemma buildVolumeTemplate_forms_witness :
  let parse flagV := buildVolumeTemplate (apiInstance (scripted healthy))
                       "fr-par-1" "org" flagV start in
  parse " l:20GB " = (Return (newVolume VolumeTypeLSSD (20 * 10 ^ 9) "org"), start)
  ∧ parse "block:100G" = (Return (newVolume VolumeTypeBSSD (100 * 10 ^ 9) "org"), start)
  ∧ parse "x:20GB"
    = (Error (Errorf "Invalid volume type x in x:20GB volume."), start)
  ∧ parse "l:much"
    = (Error (Errorf "Invalid size format much in l:much volume."), start)
  ∧ parse uuid1
    = buildVolumeTemplateFromUUID (apiInstance (scripted healthy)) "fr-par-1" uuid1 start
  ∧ parse "20GB"
    = (Error (CliError (Errorf "invalid volume format '20GB'") "" volumeFormatHint),
       start)
  ∧ parse "l:20GB:ssd"
    = (Error (CliError (Errorf "invalid volume format 'l:20GB:ssd'") "" volumeFormatHint),
       start).
Proof.
  intros parse.
  pose proof (λ flagV, buildVolumeTemplate_forms (apiInstance (scripted healthy))
                         "fr-par-1" "org" flagV start) as Hforms.
  split; [| split; [| split; [| split; [| split; [| split]]]]].
  - destruct (Hforms " l:20GB ") as (Hnew & _).
    apply (Hnew "l" "20GB" (20 * 10 ^ 9)); [reflexivity | reflexivity | by left].
  - destruct (Hforms "block:100G") as (Hnew & _).
    apply (Hnew "block" "100G" (100 * 10 ^ 9)); [reflexivity | reflexivity | by right].
  - destruct (Hforms "x:20GB") as (_ & Htype & _).
    apply (Htype "x" "20GB"); [reflexivity | discriminate ..].
  - destruct (Hforms "l:much") as (_ & _ & Hsize & _).
    apply (Hsize "l" "much"); [reflexivity | by left | reflexivity].
  - destruct (Hforms uuid1) as (_ & _ & _ & Huuid & _).
    apply (Huuid uuid1); reflexivity.
  - destruct (Hforms "20GB") as (_ & _ & _ & _ & Hother).
    apply Hother; [discriminate | by intros uuid [= <-]].
  - destruct (Hforms "l:20GB:ssd") as (_ & _ & _ & _ & Hother).
    apply Hother; [discriminate | discriminate].
Defined.

(** An argument of each form. *)
Lemma resolveIP_forms_witness :
  let resolve sc ip := resolveIP (scripted sc) (withIP exampleArgs ip) exampleReq start in
  let notFound : script := {|
    onGetIP := Fail unavailable; onGetVolume := onGetVolume healthy;
    onListServersTypes := onListServersTypes healthy;
    onGetImage := onGetImage healthy; onGetBootscript := onGetBootscript healthy;
    onCreateIP := onCreateIP healthy; onCreateServer := onCreateServer healthy;
    onDeleteIP := onDeleteIP healthy; onServerAction := onServerAction healthy;
    onGetLocalImageIDByLabel := onGetLocalImageIDByLabel healthy;
    onListImages := onListImages healthy |} in
  resolve healthy "" = (Return (true, exampleReq), start)
  ∧ resolve healthy "new" = (Return (true, exampleReq), start)
  ∧ resolve healthy uuid1
    = (Return (false, withIPFields exampleReq (Some uuid1) None), start)
  ∧ (resolve healthy "51.15.0.1").1
    = Return (false, withIPFields exampleReq (Some "ip-1") None)
  ∧ (resolve notFound "51.15.0.1").1
    = Error (Errorf "51.15.0.1 does not belongs to you.")
  ∧ resolve healthy "dynamic"
    = (Return (false, withIPFields exampleReq None (Some true)), start)
  ∧ resolve healthy "none" = (Return (false, exampleReq), start)
  ∧ (resolve healthy "static").1
    = Error (Errorf ("Invalid IP " +:+ quoted "static"
                     +:+ ", should be either 'new', 'dynamic', 'none', an IP address ID or a reserved flexible IP address.")).
Proof.
  intros resolve notFound. subst resolve. cbv beta.
  pose proof (λ sc ip, resolveIP_forms (scripted sc) (withIP exampleArgs ip)
                         exampleReq start) as Hforms.
  split; [| split; [| split; [| split; [| split; [| split; [| split]]]]]].
  - apply (proj1 (Hforms healthy "")). by left.
  - apply (proj1 (Hforms healthy "new")). by right.
  - apply (proj1 (proj2 (Hforms healthy uuid1))); [reflexivity | discriminate ..].
  - destruct (Hforms healthy "51.15.0.1") as (_ & _ & Hliteral & _).
    by rewrite (Hliteral eq_refl ltac:(discriminate) ltac:(discriminate) eq_refl
                  _ tt eq_refl).
  - destruct (Hforms notFound "51.15.0.1") as (_ & _ & Hliteral & _).
    by rewrite (Hliteral eq_refl ltac:(discriminate) ltac:(discriminate) eq_refl
                  _ tt eq_refl).
  - destruct (Hforms healthy "dynamic") as (_ & _ & _ & Hdynamic & _).
    apply Hdynamic; reflexivity.
  - destruct (Hforms healthy "none") as (_ & _ & _ & _ & Hnone & _).
    apply Hnone; reflexivity.
  - destruct (Hforms healthy "static") as (_ & _ & _ & _ & _ & Hother).
    rewrite Hother; [reflexivity | discriminate .. | reflexivity | reflexivity].
Defined.

(** A root volume, a new block volume and an existing volume. *)
Lemma final_volume_map_witness :
  let built : gmap string VolumeTemplate :=
    {[ "0" := newVolume VolumeTypeLSSD (20 * 10 ^ 9) "";
       "1" := {| ID := ""; Name := "srv-1"; Size := 100 * 10 ^ 9;
                 VolumeType := VolumeTypeBSSD; Organization := "org" |};
       "2" := {| ID := uuid1; Name := "srv-2"; Size := 0;
                 VolumeType := ""; Organization := "" |} ]} in
  let final := sanitizeVolumeMap "srv" built in
  (run (buildVolumes (apiInstance (scripted healthy)) "fr-par-1" "org" "srv"
          "l:20GB" ["b:100GB"; uuid1]) tt).1 = Return built
  ∧ (∀ k, is_Some (final !! k)
          ↔ (k = "0" ∧ "l:20GB" ≠ "")
            ∨ ∃ i, (i < 2)%nat ∧ k = Itoa (i + 1))
  ∧ final !! "1"
    = Some {| ID := ""; Name := "srv-1"; Size := 100 * 10 ^ 9;
              VolumeType := VolumeTypeBSSD; Organization := "org" |}
  ∧ final !! "0"
    = Some {| ID := ""; Name := ""; Size := 20 * 10 ^ 9;
              VolumeType := ""; Organization := "" |}
  ∧ final !! "2"
    = Some {| ID := uuid1; Name := "srv-2"; Size := 0;
              VolumeType := ""; Organization := "" |}.
Proof.
  intros built final.
  assert (Hrun : buildVolumes (apiInstance (scripted healthy)) "fr-par-1" "org"
                   "srv" "l:20GB" ["b:100GB"; uuid1] start
                 = (Return built,
                    mkState tt [EvGetVolume "fr-par-1" uuid1
                                  (onGetVolume healthy uuid1)]))
    by (vm_compute; reflexivity).
  destruct (final_volume_map _ _ _ _ _ _ _ _ _ Hrun)
    as (Hkeys & _ & _ & Hnew & Hroot).
  split; [by vm_compute | split; [exact Hkeys | split; [| split]]].
  - apply (Hnew 0%nat "b:100GB" "b" "100GB" VolumeTypeBSSD (100 * 10 ^ 9));
      [reflexivity | reflexivity | right; split; [by left | reflexivity]
      | reflexivity].
  - apply (Hroot "l" "20GB" VolumeTypeLSSD (20 * 10 ^ 9));
      [discriminate | reflexivity | left; split; [by left | reflexivity]
      | reflexivity | discriminate].
  - by vm_compute.
Defined.

(** A prefix typed in upper case with a dash, the empty prefix, a failed
    listing. *)
Lemma autocomplete_labels_witness :
  let complete sc prefix :=
    (instanceServerCreateImageAutoCompleteFunc (scripted sc) prefix start).1 in
  let listingDown : script := {|
    onGetIP := onGetIP healthy; onGetVolume := onGetVolume healthy;
    onListServersTypes := onListServersTypes healthy;
    onGetImage := onGetImage healthy; onGetBootscript := onGetBootscript healthy;
    onCreateIP := onCreateIP healthy; onCreateServer := onCreateServer healthy;
    onDeleteIP := onDeleteIP healthy; onServerAction := onServerAction healthy;
    onGetLocalImageIDByLabel := onGetLocalImageIDByLabel healthy;
    onListImages := Fail unavailable |} in
  complete healthy "UBUNTU-B" = Return ["ubuntu_bionic"]
  ∧ complete healthy "" = Return ["ubuntu_bionic"; "Ubuntu_Focal"; "debian_buster"]
  ∧ complete listingDown "ubuntu" = Return [].
Proof.
  intros complete listingDown. split; [| split].
  - exact (proj1 (autocomplete_labels (scripted healthy) "UBUNTU-B" start _ tt eq_refl)
             _ eq_refl).
  - exact (proj1 (autocomplete_labels (scripted healthy) "" start _ tt eq_refl)
             _ eq_refl).
  - exact (proj1 (proj2 (autocomplete_labels (scripted listingDown) "ubuntu" start
                           _ tt eq_refl)) _ eq_refl).
Defined.

(** C9, as stated, fails on a label with an upper-case letter: a listed
    label that matches the prefix without regard to case is not
    returned. *)
Lemma autocomplete_label_case_matters :
  let labels := ["ubuntu_bionic"; "Ubuntu_Focal"; "debian_buster"] in
  onListImages healthy = Ok (map (λ l, {| Label := l |}) labels)
  ∧ (instanceServerCreateImageAutoCompleteFunc (scripted healthy) "ubuntu" start).1
    = Return ["ubuntu_bionic"]
  ∧ List.filter (λ label, matchesIgnoringCase label (ToLower (ReplaceAll "-" "_" "ubuntu")))
      labels
    = ["ubuntu_bionic"; "Ubuntu_Focal"].
Proof. repeat split. Qed.

(** One additional local volume of 90 GB and no root, against 20 GB to
    100 GB: the total is 110 GB. *)
Lemma validateLocalVolumeSizes_no_root_witness :
  let volumes : gmap string VolumeTemplate :=
    {[ "1" := {| ID := ""; Name := "srv-1"; Size := 90 * 10 ^ 9;
                 VolumeType := VolumeTypeLSSD; Organization := "org" |} ]} in
  let min := 20 * 10 ^ 9 in
  let max := 100 * 10 ^ 9 in
  let total := checkedTotal volumes min in
  total = localVolumeTotalSize volumes + min
  ∧ ¬ (total < min)
  ∧ ((∃ e, (validateLocalVolumeSizes (apiInstance (scripted healthy)) volumes
              "fr-par-1" "DEV1-S" start).1 = Error e)
     ↔ max < total).
Proof.
  intros volumes min max total.
  apply (validateLocalVolumeSizes_no_root (apiInstance (scripted healthy)) volumes
           "fr-par-1" "DEV1-S" start (serverTypes min max) tt
           {| ServerType_VolumesConstraint := {| MinSize := min; MaxSize := max |} |});
    vm_compute; reflexivity.
Defined.


(** C10, as stated, fails when the addition of the minimum wraps around
    2^64: with one local volume of 2^64 - 2048 bytes and no root volume the
    total checked is 2048 bytes short of the minimum, and the check fails
    on the comparison with the minimum, the total being below the
    maximum. *)
Lemma validateLocalVolumeSizes_no_root_below_minimum :
  let volumes : gmap string VolumeTemplate :=
    {[ "1" := {| ID := ""; Name := "srv-1"; Size := 2 ^ 64 - 2048;
                 VolumeType := VolumeTypeLSSD; Organization := "org" |} ]} in
  let min := 20 * 10 ^ 9 in
  let max := 100 * 10 ^ 9 in
  volumes !! "0" = None
  ∧ onListServersTypes healthy = Ok (serverTypes min max)
  ∧ wadd (localVolumeTotalSize volumes) min = min - 2048
  ∧ (wadd (localVolumeTotalSize volumes) min <? min) = true
  ∧ (max <? wadd (localVolumeTotalSize volumes) min) = false
  ∧ (validateLocalVolumeSizes (apiInstance (scripted healthy)) volumes
       "fr-par-1" "DEV1-S" start).1
    = Error (LocalVolumeSizeOutOfRange "DEV1-S" min max).
Proof. repeat split; vm_compute; reflexivity. Qed.

(** The command with its default arguments on a healthy remote side: an IP
    is created, then the server. *)
Example run_with_defaults :
  run (instanceServerCreateRun (scripted healthy) exampleArgs) tt
  = (Return {| Server_ID := "srv-1" |},
     mkState tt
       [EvGetLocalImageIDByLabel "fr-par-1" "ubuntu_bionic" "DEV1-S"
          (Ok "22222222-2222-2222-2222-222222222222");
        EvLog Info "creating IP" [];
        EvCreateIP "fr-par-1" "" (Ok (Some {| IP_ID := "ip-new" |}));
        EvLog Info "IP created: %s" ["ip-new"];
        EvLog Info "creating server" [];
        EvCreateServer (withPublicIP exampleReq (Some "ip-new"))
          (Ok (Some {| Server_ID := "srv-1" |}));
        EvLog Info "server created %s" ["srv-1"]]).
Proof. vm_compute. reflexivity. Qed.

(** With [ip=none] no IP is created and the request has neither a public IP
    nor the dynamic IP flag. *)
Example run_without_ip :
  run (instanceServerCreateRun (scripted healthy) (withIP exampleArgs "none")) tt
  = (Return {| Server_ID := "srv-1" |},
     mkState tt
       [EvGetLocalImageIDByLabel "fr-par-1" "ubuntu_bionic" "DEV1-S"
          (Ok "22222222-2222-2222-2222-222222222222");
        EvLog Info "creating server" [];
        EvCreateServer exampleReq (Ok (Some {| Server_ID := "srv-1" |}));
        EvLog Info "server created %s" ["srv-1"]])
  ∧ req_PublicIP exampleReq = None
  ∧ req_DynamicIPRequired exampleReq = None.
Proof. split; [vm_compute; reflexivity | by split]. Qed.

(** A root volume of 20 GB passes both validations and is sent with its size
    alone; one of 5 GB is below the image's 10 GB. *)
Example run_with_root_volume :
  (run (resolveVolumes (scripted healthy) (withRootVolume exampleArgs "l:20GB")
          exampleReq) tt).1
  = Return (withVolumes exampleReq
              {[ "0" := {| ID := ""; Name := ""; Size := 20 * 10 ^ 9;
                           VolumeType := ""; Organization := "" |} ]})
  ∧ (run (resolveVolumes (scripted healthy) (withRootVolume exampleArgs "l:5GB")
            exampleReq) tt).1
    = Error (RootVolumeTooSmall (10 * 10 ^ 9)).
Proof. split; vm_compute; reflexivity. Qed.
End Runs.

(** * Whole runs of the command *)

Section RunShape.
Context {W : Type} `{Externals}.
Implicit Types (ctx : CommandContext W) (s : state W).

(** [createServer] when the server is created: the server is returned
    whatever the power-on call answers. *)
Lemma createServer_created ctx args need serverReq s server w1 :
  CreateServer (apiInstance ctx) serverReq (world s) = (Ok (Some server), w1) →
  ∃ action w2,
    (action = None ↔ arg_Start args = false)
    ∧ createServer ctx args need serverReq s
      = (Return server,
         mkState w2
           (trace s
            ++ [EvLog Info "creating server" [];
                EvCreateServer serverReq (Ok (Some server));
                EvLog Info "server created %s" [Server_ID server]]
            ++ startEvents (arg_Zone args) server action)).
Proof.
  intros Hcreate. unfold createServer.
  unfold_monad. unfold call. cbn. rewrite Hcreate. cbn.
  destruct (arg_Start args); cbn.
  - destruct (ServerActionPoweron _ _ _ _) as [r w2].
    exists (Some r), w2. split; [done |].
    destruct r as [[] | err]; cbn; by repeat rewrite <- app_assoc.
  - exists None, w1. split; [done |]. cbn. by repeat rewrite <- app_assoc.
Qed.

(** [createServer] when the reply of the creation holds no server: the run
    panics where it reads the id of the server, after the call. *)
Lemma createServer_missing ctx args need serverReq s w1 :
  CreateServer (apiInstance ctx) serverReq (world s) = (Ok None, w1) →
  createServer ctx args need serverReq s
  = (Panic,
     mkState w1 (trace s ++ [EvLog Info "creating server" [];
                             EvCreateServer serverReq (Ok None)])).
Proof.
  intros Hcreate. unfold createServer.
  unfold_monad. unfold call. cbn. rewrite Hcreate. cbn.
  by repeat rewrite <- app_assoc.
Qed.

(** Step 2 goes one of the ways of [Step2]. *)
Lemma step2_shape ctx args need serverReq s :
  let result := (createIP ctx args need serverReq ≫= createServer ctx args need) s in
  ∃ writes, trace result.2 = (trace s ++ writes)%list
            ∧ Step2 args serverReq need result.1 writes.
Proof.
  intros result. subst result. rewrite bind_run. destruct need.
  - destruct (CreateIP (apiInstance ctx) (arg_Zone args) (arg_OrganizationID args)
                (world s)) as [[[res |] | cerr] w1] eqn:Ecreate;
      rewrite (createIP_needed _ _ _ _ _ _ Ecreate).
    + set (s2 := mkState w1 _).
      set (req2 := withPublicIP serverReq (Some (IP_ID res))).
      destruct (CreateServer (apiInstance ctx) req2 (world s2))
        as [[[server |] | serr] w2] eqn:Eserver.
      * destruct (createServer_created ctx args true req2 s2 server w2 Eserver)
          as (action & w3 & Haction & ->).
        eexists. split; [| by apply (Step2_created_with_ip _ _ res server action)].
        subst s2. cbn. by repeat rewrite <- app_assoc.
      * rewrite (createServer_missing _ _ _ _ _ _ Eserver).
        eexists. split; [| apply (Step2_server_missing_with_ip _ _ res)].
        subst s2. cbn. by repeat rewrite <- app_assoc.
      * destruct (DeleteIP (apiInstance ctx) (arg_Zone args) (IP_ID res) w2)
          as [d w3] eqn:Edelete.
        rewrite (createServer_failure ctx args req2 s2 (IP_ID res) serr w2 d w3
                   eq_refl Eserver Edelete).
        eexists. split; [| apply (Step2_compensated _ _ res serr d)].
        subst s2. unfold deleteEvents. cbn. by repeat rewrite <- app_assoc.
    + eexists. split; [| apply Step2_ip_missing]. done.
    + eexists. split; [| apply Step2_ip_failed]. done.
  - unfold createIP. rewrite ret_run.
    destruct (CreateServer (apiInstance ctx) serverReq (world s))
      as [[[server |] | serr] w2] eqn:Eserver.
    + destruct (createServer_created ctx args false serverReq s server w2 Eserver)
        as (action & w3 & Haction & ->).
      eexists. split; [| by apply (Step2_created _ _ server action)]. done.
    + rewrite (createServer_missing _ _ _ _ _ _ Eserver).
      eexists. split; [| apply Step2_server_missing]. done.
    + rewrite (createServer_failure_no_ip _ _ _ _ _ _ Eserver).
      eexists. split; [| apply Step2_failed]. done.
Qed.

(** A run is step 1, which makes no mutating call, followed, when step 1
    returns a request, by step 2. *)
Lemma run_shape ctx args w :
  let result := run (instanceServerCreateRun ctx args) w in
  let prepared := prepareRequest ctx args (mkState w []) in
  Forall quiet (trace prepared.2)
  ∧ match prepared.1 with
    | Return (need, serverReq) =>
        ∃ writes, trace result.2 = (trace prepared.2 ++ writes)%list
                  ∧ Step2 args serverReq need result.1 writes
    | Error e => result = (Error e, prepared.2)
    | Panic => result = (Panic, prepared.2)
    end.
Proof.
  intros result prepared. subst result prepared.
  unfold run, instanceServerCreateRun. rewrite bind_run.
  destruct (prepareRequest ctx args (mkState w [])) as [o1 s1] eqn:E1.
  destruct (emits_run _ _ _ _ _ (prepareRequest_quiet ctx args) E1)
    as (reads & T1 & Q1).
  cbn in T1. cbn [fst snd]. split; [by rewrite T1 |].
  destruct o1 as [[need serverReq] | e |]; [| done ..].
  apply step2_shape.
Qed.

(** The events of step 2 are log lines and mutating calls. *)
Lemma Step2_no_lookup args serverReq need out writes :
  Step2 args serverReq need out writes →
  Forall (λ e, isLookup e = false) writes.
Proof.
  destruct 1 as [cerr | | res serr d | res | res server action _ | serr |
                 | server action _];
    unfold deleteEvents, startEvents;
    try destruct d; try destruct action as [[[] |] |];
    repeat constructor.
Qed.
End RunShape.

(** * Step 1, block by block *)

Section Step1.
Context {W : Type} `{Externals}.
Implicit Types (api : instanceAPI W) (ctx : CommandContext W) (s : state W).

Lemma bind_Return_inv {A B} (m : M W A) (f : A → M W B) s b s' :
  (m ≫= f) s = (Return b, s') →
  ∃ a s1, m s = (Return a, s1) ∧ f a s1 = (Return b, s').
Proof.
  rewrite bind_run. destruct (m s) as [[a | e |] s1]; [| done ..].
  intros Hf. by exists a, s1.
Qed.

Lemma emits_impl {A} (P Q : event → Prop) (m : M W A) :
  (∀ e, P e → Q e) → emits P m → emits Q m.
Proof.
  intros HPQ Hm s. destruct (Hm s) as (evs & E & F).
  exists evs. split; [done |]. by apply (Forall_impl P).
Qed.

(** What each block adds to the trace. *)
Lemma resolveImage_events ctx args serverReq :
  emits (λ e, fromImage e = true) (resolveImage ctx args serverReq).
Proof. unfold resolveImage. emits_cases. Qed.

Lemma resolveIP_events ctx args serverReq :
  emits (λ e, fromIP e = true) (resolveIP ctx args serverReq).
Proof. unfold resolveIP, Infof. emits_cases. Qed.

Lemma buildVolumeTemplate_events api zone orgID flagV :
  emits (λ e, fromVolumes e = true) (buildVolumeTemplate api zone orgID flagV).
Proof.
  unfold buildVolumeTemplate, buildVolumeTemplateFromUUID.
  destruct (Split ":" (TrimSpace flagV)) as [|p0 [|p1 [|p2 rest]]];
    emits_cases.
Qed.

Lemma buildAdditionalVolumes_events api zone org name additional :
  ∀ i volumes,
    emits (λ e, fromVolumes e = true)
      (buildAdditionalVolumes api zone org name i additional volumes).
Proof.
  induction additional as [|v rest IH]; intros i volumes; simpl.
  - apply emits_ret.
  - apply emits_bind; [apply buildVolumeTemplate_events | intros; apply IH].
Qed.

Lemma resolveVolumes_events ctx args serverReq :
  emits (λ e, fromVolumes e = true) (resolveVolumes ctx args serverReq).
Proof.
  unfold resolveVolumes. destruct (_ || _); [| apply emits_ret].
  apply emits_bind; [| intros].
  { unfold buildVolumes. apply emits_bind.
    - destruct (negb _); [| apply emits_ret].
      apply emits_bind; [apply buildVolumeTemplate_events | intros; apply emits_ret].
    - intros. apply buildAdditionalVolumes_events. }
  apply emits_bind; [unfold validateRootVolume, Warningf; emits_cases | intros].
  apply emits_bind; [unfold validateLocalVolumeSizes, Warningf; emits_cases | intros].
  apply emits_ret.
Qed.

Lemma resolveBootscript_events ctx args serverReq :
  emits (λ e, fromBootscript e = true) (resolveBootscript ctx args serverReq).
Proof. unfold resolveBootscript. emits_cases. Qed.

(** The blocks of step 1 run in the order image, IP, volumes, bootscript,
    whatever the outcome. *)
Lemma prepareRequest_stages ctx args s :
  ∃ image ip volumes bootscript,
    trace (prepareRequest ctx args s).2
    = (trace s ++ image ++ ip ++ volumes ++ bootscript)%list
    ∧ Forall (λ e, fromImage e = true) image
    ∧ Forall (λ e, fromIP e = true) ip
    ∧ Forall (λ e, fromVolumes e = true) volumes
    ∧ Forall (λ e, fromBootscript e = true) bootscript.
Proof.
  unfold prepareRequest. fold (initialRequest args). rewrite bind_run.
  destruct (resolveImage_events ctx args (initialRequest args) s) as (image & T1 & F1).
  destruct (resolveImage ctx args (initialRequest args) s) as [[r1 | e |] s1];
    cbn [snd] in T1 |- *;
    [| exists image, [], [], []; rewrite !app_nil_r; by repeat split ..].
  rewrite bind_run.
  destruct (resolveIP_events ctx args r1 s1) as (ip & T2 & F2).
  destruct (resolveIP ctx args r1 s1) as [[[need r2] | e |] s2];
    cbn [snd] in T2 |- *;
    [| exists image, ip, [], []; rewrite !app_nil_r, T2, T1, <- !app_assoc;
       by repeat split ..].
  rewrite bind_run.
  destruct (resolveVolumes_events ctx args r2 s2) as (volumes & T3 & F3).
  destruct (resolveVolumes ctx args r2 s2) as [[r3 | e |] s3];
    cbn [snd] in T3 |- *;
    [| exists image, ip, volumes, []; rewrite !app_nil_r, T3, T2, T1, <- !app_assoc;
       by repeat split ..].
  rewrite bind_run.
  destruct (resolveBootscript_events ctx args r3 s3) as (bootscript & T4 & F4).
  exists image, ip, volumes, bootscript.
  destruct (resolveBootscript ctx args r3 s3) as [[r4 | e |] s4];
    cbn [snd] in T4 |- *; rewrite ?ret_run; cbn [snd];
    rewrite T4, T3, T2, T1, <- !app_assoc; by repeat split.
Qed.
End Step1.

(** * The request that step 1 makes *)

Section PreparedRequest.
Context {W : Type} `{Externals}.
Implicit Types (api : instanceAPI W) (ctx : CommandContext W) (s : state W).

(** A block only adds to the trace. *)
Lemma emits_elem_of {A} P (m : M W A) s e :
  emits P m → e ∈ trace s → e ∈ trace (m s).2.
Proof.
  intros Hm Hin. destruct (Hm s) as (evs & -> & _).
  apply elem_of_app. by left.
Qed.

Lemma resolveImage_result ctx args serverReq s r1 s1 :
  resolveImage ctx args serverReq s = (Return r1, s1) →
  (IsUUID (arg_Image args) = true ∧ r1 = withImage serverReq (arg_Image args)
   ∧ s1 = s)
  ∨ (IsUUID (arg_Image args) = false
     ∧ ∃ imageId,
         r1 = withImage serverReq imageId
         ∧ trace s1
           = (trace s ++ [EvGetLocalImageIDByLabel (arg_Zone args) (arg_Image args)
                            (req_CommercialType serverReq) (Ok imageId)])%list).
Proof.
  unfold resolveImage. destruct (IsUUID (arg_Image args)); cbn [negb].
  - rewrite ret_run. intros [= <- <-]. by left.
  - rewrite bind_run. unfold call.
    destruct (GetLocalImageIDByLabel _ _ _ _ _) as [[imageId | err] w1];
      [| done].
    rewrite ret_run. intros [= <- <-]. right. split; [done |]. by exists imageId.
Qed.

Lemma resolveIP_result ctx args serverReq s need r2 s2 :
  resolveIP ctx args serverReq s = (Return (need, r2), s2) →
  let ip := arg_IP args in
  need = ((ip =? "")%string || (ip =? "new")%string)
  ∧ ((need = true ∧ r2 = serverReq)
     ∨ (need = false ∧ IsUUID ip = true ∧ r2 = withPublicIP serverReq (Some ip))
     ∨ (need = false ∧ IsUUID ip = false ∧ ParseIP ip = true
        ∧ ∃ res, EvGetIP (arg_Zone args) ip (Ok res) ∈ trace s2
                 ∧ r2 = withPublicIP serverReq (Some (IP_ID res)))
     ∨ (need = false ∧ IsUUID ip = false ∧ ParseIP ip = false ∧ ip = "dynamic"
        ∧ r2 = withDynamicIPRequired serverReq (Some true))
     ∨ (need = false ∧ IsUUID ip = false ∧ ParseIP ip = false ∧ ip = "none"
        ∧ r2 = serverReq)).
Proof.
  intros Hrun ip. revert Hrun. unfold resolveIP. fold ip.
  destruct ((ip =? "")%string || (ip =? "new")%string).
  { rewrite ret_run. intros [= <- <- <-]. split; [done |]. by left. }
  destruct (IsUUID ip).
  { rewrite ret_run. intros [= <- <- <-]. split; [done |]. right. by left. }
  destruct (ParseIP ip).
  { unfold_monad. unfold call. cbn.
    destruct (GetIP _ _ _ _) as [[res | err] w1]; [| done].
    intros [= <- <- <-]. split; [done |]. right. right. left.
    repeat split. exists res. split; [| done]. cbn.
    rewrite !elem_of_app, !elem_of_cons. auto. }
  destruct (ip =? "dynamic")%string eqn:Hd.
  { rewrite ret_run. intros [= <- <- <-]. split; [done |].
    apply eqb_string_true in Hd. do 3 right. by left. }
  destruct (ip =? "none")%string eqn:Hn; [| done].
  rewrite ret_run. intros [= <- <- <-]. split; [done |].
  apply eqb_string_true in Hn. by do 4 right.
Qed.

Lemma resolveVolumes_result ctx args serverReq s r3 s3 :
  resolveVolumes ctx args serverReq s = (Return r3, s3) →
  (arg_AdditionalVolumes args = [] ∧ arg_RootVolume args = ""
   ∧ r3 = serverReq ∧ s3 = s)
  ∨ ((arg_AdditionalVolumes args ≠ [] ∨ arg_RootVolume args ≠ "")
     ∧ ∃ volumes, r3 = withVolumes serverReq volumes).
Proof.
  unfold resolveVolumes.
  destruct (arg_AdditionalVolumes args) as [| v rest] eqn:Hadd; cbn [length Nat.ltb Nat.leb orb].
  - destruct (arg_RootVolume args =? "")%string eqn:Hroot; cbn [negb].
    + rewrite ret_run. intros [= <- <-]. left. apply eqb_string_true in Hroot.
      by repeat split.
    + intros Hrun. right. apply eqb_string_false in Hroot. split; [by right |].
      apply bind_Return_inv in Hrun as (volumes & s1 & _ & Hrun).
      apply bind_Return_inv in Hrun as ([] & s2 & _ & Hrun).
      apply bind_Return_inv in Hrun as ([] & s4 & _ & Hrun).
      rewrite ret_run in Hrun. injection Hrun as <- <-. by eexists.
  - intros Hrun. right. split; [by left |].
    apply bind_Return_inv in Hrun as (volumes & s1 & _ & Hrun).
    apply bind_Return_inv in Hrun as ([] & s2 & _ & Hrun).
    apply bind_Return_inv in Hrun as ([] & s4 & _ & Hrun).
    rewrite ret_run in Hrun. injection Hrun as <- <-. by eexists.
Qed.

Lemma resolveBootscript_result ctx args serverReq s r4 s4 :
  resolveBootscript ctx args serverReq s = (Return r4, s4) →
  (arg_BootscriptID args = "" ∧ r4 = serverReq ∧ s4 = s)
  ∨ (arg_BootscriptID args ≠ "" ∧ IsUUID (arg_BootscriptID args) = true
     ∧ r4 = withBootscript serverReq (Some (arg_BootscriptID args))).
Proof.
  unfold resolveBootscript.
  destruct (arg_BootscriptID args =? "")%string eqn:Hb; cbn [negb].
  - rewrite ret_run. intros [= <- <-]. left. apply eqb_string_true in Hb.
    by repeat split.
  - apply eqb_string_false in Hb.
    destruct (IsUUID (arg_BootscriptID args)); cbn [negb]; [| done].
    rewrite bind_run. unfold call.
    destruct (GetBootscript _ _ _ _) as [[[] | err] w1]; [| done].
    rewrite ret_run. intros [= <- <-]. right. by repeat split.
Qed.

(** The blocks of a step 1 that returns a request. *)
Lemma prepareRequest_inv ctx args s need serverReq s' :
  prepareRequest ctx args s = (Return (need, serverReq), s') →
  ∃ r1 s1 r2 s2 r3 s3 r4,
    resolveImage ctx args (initialRequest args) s = (Return r1, s1)
    ∧ resolveIP ctx args r1 s1 = (Return (need, r2), s2)
    ∧ resolveVolumes ctx args r2 s2 = (Return r3, s3)
    ∧ resolveBootscript ctx args r3 s3 = (Return r4, s')
    ∧ serverReq = setGroups args r4.
Proof.
  unfold prepareRequest. fold (initialRequest args). intros Hrun.
  apply bind_Return_inv in Hrun as (r1 & s1 & H1 & Hrun).
  apply bind_Return_inv in Hrun as ([need' r2] & s2 & H2 & Hrun).
  apply bind_Return_inv in Hrun as (r3 & s3 & H3 & Hrun).
  apply bind_Return_inv in Hrun as (r4 & s4 & H4 & Hrun).
  rewrite ret_run in Hrun. injection Hrun as <- <- <-.
  by exists r1, s1, r2, s2, r3, s3, r4.
Qed.
End PreparedRequest.

(** * Properties of whole runs *)

Section WholeRuns.
Context {W : Type} `{Externals}.
Implicit Types (ctx : CommandContext W) (s : state W).

Lemma quiet_filter (f : event → bool) evs :
  (∀ e, f e = true → isMutation e = true) →
  Forall quiet evs → List.filter f evs = [].
Proof.
  intros Hf. induction 1 as [| e evs Q _ IH]; [done |]. simpl. rewrite IH.
  destruct (f e) eqn:Hfe; [| done]. apply Hf in Hfe. unfold quiet in Q. congruence.
Qed.

(** A create-server call of a run is made in step 2, with the request of
    step 1, completed with the created IP when one is created. *)
Lemma run_create_server ctx args w req r :
  let result := run (instanceServerCreateRun ctx args) w in
  EvCreateServer req r ∈ trace result.2 →
  ∃ need serverReq s1,
    prepareRequest ctx args (mkState w []) = (Return (need, serverReq), s1)
    ∧ (∀ e, e ∈ trace s1 → e ∈ trace result.2)
    ∧ ((need = false ∧ req = serverReq)
       ∨ (need = true
          ∧ ∃ res, EvCreateIP (arg_Zone args) (arg_OrganizationID args)
                     (Ok (Some res)) ∈ trace result.2
                   ∧ req = withPublicIP serverReq (Some (IP_ID res)))).
Proof.
  intros result Hin. subst result.
  destruct (run_shape ctx args w) as [Q Hshape].
  destruct (prepareRequest ctx args (mkState w [])) as [[[need serverReq] | e |] s1]
    eqn:E1; cbn [fst snd] in Q, Hshape.
  2, 3: rewrite Hshape in Hin; cbn [snd] in Hin;
        by pose proof (quiet_in _ _ Q Hin).
  destruct Hshape as (writes & T & Hstep).
  exists need, serverReq, s1. split; [done |].
  rewrite T in Hin |- *. split; [intros e He; apply elem_of_app; by left |].
  apply elem_of_app in Hin as [Hin | Hin];
    [by pose proof (quiet_in _ _ Q Hin) |].
  destruct Hstep as [cerr | | res serr d | res | res server action _ | serr |
                     | server action _];
    unfold deleteEvents, startEvents in *.
  - in_cases Hin; discriminate.
  - in_cases Hin; discriminate.
  - right. split; [done |]. exists res. split.
    + rewrite !elem_of_app, !elem_of_cons. auto 10.
    + destruct d; in_cases Hin; try discriminate; by injection Hin as <- _.
  - right. split; [done |]. exists res. split.
    + rewrite !elem_of_app, !elem_of_cons. auto 10.
    + in_cases Hin; try discriminate; by injection Hin as <- _.
  - right. split; [done |]. exists res. split.
    + rewrite !elem_of_app, !elem_of_cons. auto 10.
    + destruct action as [[[] |] |]; in_cases Hin; try discriminate;
        by injection Hin as <- _.
  - left. split; [done |]. in_cases Hin; try discriminate. by injection Hin as <- _.
  - left. split; [done |]. in_cases Hin; try discriminate. by injection Hin as <- _.
  - left. split; [done |].
    destruct action as [[[] |] |]; in_cases Hin; try discriminate;
      by injection Hin as <- _.
Qed.

(** X1. Every request sent to create the server carries the zone, the
    organization, the name, the commercial type, the IPv6 flag and the tags
    of the arguments; its security group, its placement group and its
    bootscript are those of the arguments, and absent when the argument is
    empty. *)
Theorem request_carries_arguments ctx args w req r :
  EvCreateServer req r ∈ trace (run (instanceServerCreateRun ctx args) w).2 →
  req_Zone req = arg_Zone args
  ∧ req_Organization req = arg_OrganizationID args
  ∧ req_Name req = arg_Name args
  ∧ req_CommercialType req = arg_Type args
  ∧ req_EnableIPv6 req = arg_IPv6 args
  ∧ req_Tags req = arg_Tags args
  ∧ req_SecurityGroup req
    = (if (arg_SecurityGroupID args =? "")%string then None
       else Some (arg_SecurityGroupID args))
  ∧ req_PlacementGroup req
    = (if (arg_PlacementGroupID args =? "")%string then None
       else Some (arg_PlacementGroupID args))
  ∧ req_Bootscript req
    = (if (arg_BootscriptID args =? "")%string then None
       else Some (arg_BootscriptID args)).
Proof.
  intros Hin.
  destruct (run_create_server _ _ _ _ _ Hin)
    as (need & serverReq & s1' & Hprep & _ & Hreq).
  apply prepareRequest_inv in Hprep
    as (r1 & s1 & r2 & s2 & r3 & s3 & r4 & H1 & H2 & H3 & H4 & ->).
  apply resolveImage_result in H1.
  apply resolveIP_result in H2 as [_ H2].
  apply resolveVolumes_result in H3.
  apply resolveBootscript_result in H4.
  assert (Hfields :
    req_Zone r3 = arg_Zone args ∧ req_Organization r3 = arg_OrganizationID args
    ∧ req_Name r3 = arg_Name args ∧ req_CommercialType r3 = arg_Type args
    ∧ req_EnableIPv6 r3 = arg_IPv6 args ∧ req_Tags r3 = arg_Tags args
    ∧ req_SecurityGroup r3 = None ∧ req_PlacementGroup r3 = None
    ∧ req_Bootscript r3 = None).
  { destruct H1 as [(_ & -> & _) | (_ & imageId & -> & _)];
      destruct H2 as [(_ & ->) | [(_ & _ & ->) | [(_ & _ & _ & res & _ & ->)
                      | [(_ & _ & _ & _ & ->) | (_ & _ & _ & _ & ->)]]]];
      destruct H3 as [(_ & _ & -> & _) | (_ & volumes & ->)];
      by repeat split. }
  destruct Hfields as (Hz & Ho & Hn & Ht & H6 & Htags & Hsg & Hpg & Hb).
  assert (Hfinal :
    let final := setGroups args r4 in
    req_Zone final = arg_Zone args ∧ req_Organization final = arg_OrganizationID args
    ∧ req_Name final = arg_Name args ∧ req_CommercialType final = arg_Type args
    ∧ req_EnableIPv6 final = arg_IPv6 args ∧ req_Tags final = arg_Tags args
    ∧ req_SecurityGroup final
      = (if (arg_SecurityGroupID args =? "")%string then None
         else Some (arg_SecurityGroupID args))
    ∧ req_PlacementGroup final
      = (if (arg_PlacementGroupID args =? "")%string then None
         else Some (arg_PlacementGroupID args))
    ∧ req_Bootscript final
      = (if (arg_BootscriptID args =? "")%string then None
         else Some (arg_BootscriptID args))).
  { unfold setGroups.
    destruct H4 as [(Hempty & -> & _) | (Hne & _ & ->)].
    - rewrite Hempty.
      destruct (arg_SecurityGroupID args =? "")%string,
               (arg_PlacementGroupID args =? "")%string; by repeat split.
    - apply eqb_string_false in Hne. rewrite Hne.
      destruct (arg_SecurityGroupID args =? "")%string,
               (arg_PlacementGroupID args =? "")%string; by repeat split. }
  destruct Hreq as [(_ & ->) | (_ & res & _ & ->)]; exact Hfinal.
Qed.

(** X2. The IP fields of every request sent to create the server, by the
    form of the [ip] argument.  Empty or new: the public IP is the id of the
    IP that the run created.  A UUID: that UUID.  An IP literal: the id that
    the lookup of the address returned.  dynamic: no public IP, and the
    dynamic IP flag.  none: neither.  The flag is set in the dynamic case
    alone. *)
Theorem request_ip_directive ctx args w req r :
  let result := run (instanceServerCreateRun ctx args) w in
  let ip := arg_IP args in
  EvCreateServer req r ∈ trace result.2 →
  (ip = "" ∨ ip = "new" →
     ∃ res, EvCreateIP (arg_Zone args) (arg_OrganizationID args)
              (Ok (Some res)) ∈ trace result.2
            ∧ req_PublicIP req = Some (IP_ID res)
            ∧ req_DynamicIPRequired req = None)
  ∧ (ip ≠ "" → ip ≠ "new" → IsUUID ip = true →
     req_PublicIP req = Some ip ∧ req_DynamicIPRequired req = None)
  ∧ (ip ≠ "" → ip ≠ "new" → IsUUID ip = false → ParseIP ip = true →
     ∃ res, EvGetIP (arg_Zone args) ip (Ok res) ∈ trace result.2
            ∧ req_PublicIP req = Some (IP_ID res)
            ∧ req_DynamicIPRequired req = None)
  ∧ (ip = "dynamic" → IsUUID ip = false → ParseIP ip = false →
     req_PublicIP req = None ∧ req_DynamicIPRequired req = Some true)
  ∧ (ip = "none" → IsUUID ip = false → ParseIP ip = false →
     req_PublicIP req = None ∧ req_DynamicIPRequired req = None).
Proof.
  intros result ip Hin.
  destruct (run_create_server _ _ _ _ _ Hin)
    as (need & serverReq & s1' & Hprep & Hmono & Hreq).
  fold result in Hmono, Hreq.
  apply prepareRequest_inv in Hprep
    as (r1 & s1 & r2 & s2 & r3 & s3 & r4 & H1 & H2 & H3 & H4 & ->).
  assert (Hkeep : ∀ e, e ∈ trace s2 → e ∈ trace result.2).
  { intros e He. apply Hmono.
    pose proof (emits_elem_of _ _ s2 e (resolveVolumes_events ctx args r2) He) as He3.
    rewrite H3 in He3. cbn [snd] in He3.
    pose proof (emits_elem_of _ _ s3 e (resolveBootscript_events ctx args r3) He3)
      as He4.
    by rewrite H4 in He4. }
  apply resolveImage_result in H1.
  apply resolveIP_result in H2 as [Hneed H2]. fold ip in Hneed, H2.
  apply resolveVolumes_result in H3.
  apply resolveBootscript_result in H4.
  assert (Hip : req_PublicIP (setGroups args r4) = req_PublicIP r2
                ∧ req_DynamicIPRequired (setGroups args r4)
                  = req_DynamicIPRequired r2
                ∧ req_PublicIP r1 = None ∧ req_DynamicIPRequired r1 = None).
  { unfold setGroups.
    destruct H1 as [(_ & -> & _) | (_ & imageId & -> & _)];
      destruct H3 as [(_ & _ & -> & _) | (_ & volumes & ->)];
      destruct H4 as [(_ & -> & _) | (_ & _ & ->)];
      destruct (arg_SecurityGroupID args =? "")%string,
               (arg_PlacementGroupID args =? "")%string; by repeat split. }
  destruct Hip as (Hpub & Hdyn & Hpub1 & Hdyn1).
  assert (Hreq' : req_DynamicIPRequired req = req_DynamicIPRequired r2
                  ∧ ((need = false ∧ req_PublicIP req = req_PublicIP r2)
                     ∨ (need = true
                        ∧ ∃ res, EvCreateIP (arg_Zone args) (arg_OrganizationID args)
                                   (Ok (Some res)) ∈ trace result.2
                                 ∧ req_PublicIP req = Some (IP_ID res)))).
  { destruct Hreq as [(Hn & ->) | (Hn & res & Hres & ->)].
    - split; [done |]. by left.
    - split; [done |]. right. split; [done |]. by exists res. }
  destruct Hreq' as [Hd Hp]. rewrite Hd. clear Hreq Hpub Hdyn Hd.
  split; [| split; [| split; [| split]]].
  - intros Hnew.
    assert (need = true) as Hn.
    { rewrite Hneed. by destruct Hnew as [-> | ->]. }
    destruct Hp as [(Hf & _) | (_ & res & Hres & Hp)]; [congruence |].
    exists res. split; [done |]. split; [done |].
    destruct H2 as [(_ & ->) | [(? & _) | [(? & _) | [(? & _) | (? & _)]]]];
      congruence.
  - intros He Hnw Hu.
    destruct H2 as [(Hn & _) | [(Hn & _ & ->) | [(_ & ? & _) | [(_ & ? & _) | (_ & ? & _)]]]];
      try congruence.
    + apply eqb_string_false in He, Hnw. rewrite He, Hnw in Hneed. cbn in Hneed. congruence.
    + destruct Hp as [(_ & ->) | (? & _)]; [done | congruence].
  - intros He Hnw Hu Hp'.
    destruct H2 as [(Hn & _) | [(_ & ? & _) | [(Hn & _ & _ & res & Hres & ->)
                    | [(_ & _ & ? & _) | (_ & _ & ? & _)]]]];
      try congruence.
    + apply eqb_string_false in He, Hnw. rewrite He, Hnw in Hneed. cbn in Hneed. congruence.
    + destruct Hp as [(_ & ->) | (? & _)]; [| congruence].
      exists res. split; [by apply Hkeep | done].
  - intros Hd Hu Hp'.
    destruct H2 as [(Hn & _) | [(_ & ? & _) | [(_ & _ & ? & _)
                    | [(Hn & _ & _ & _ & ->) | (_ & _ & _ & Hno & _)]]]];
      try congruence.
    + rewrite Hd in Hneed. cbn in Hneed. congruence.
    + destruct Hp as [(_ & ->) | (? & _)]; [done | congruence].
  - intros Hno Hu Hp'.
    destruct H2 as [(Hn & _) | [(_ & ? & _) | [(_ & _ & ? & _)
                    | [(_ & _ & _ & Hd & _) | (Hn & _ & _ & _ & ->)]]]];
      try congruence.
    + rewrite Hno in Hneed. cbn in Hneed. congruence.
    + destruct Hp as [(_ & ->) | (? & _)]; [done | congruence].
Qed.

(** Step 2 adds no lookup to the trace. *)
Lemma step2_events ctx args need serverReq :
  emits (λ e, isLookup e = false)
    (createIP ctx args need serverReq ≫= createServer ctx args need).
Proof.
  apply emits_bind; [unfold createIP, Infof; emits_cases | intros req2].
  unfold createServer, deleteCreatedIP, Infof, Warningf. emits_cases.
Qed.

(** A run adds to the trace what its blocks add. *)
Lemma run_emits (P : event → Prop) ctx args :
  emits P (resolveImage ctx args (initialRequest args)) →
  (∀ r, emits P (resolveIP ctx args r)) →
  (∀ r, emits P (resolveVolumes ctx args r)) →
  (∀ r, emits P (resolveBootscript ctx args r)) →
  (∀ e, isLookup e = false → P e) →
  emits P (instanceServerCreateRun ctx args).
Proof.
  intros Himage Hip Hvolumes Hbootscript Hstep2.
  unfold instanceServerCreateRun.
  apply emits_bind.
  - unfold prepareRequest. fold (initialRequest args).
    apply emits_bind; [done | intros r1].
    apply emits_bind; [done | intros [need r2]].
    apply emits_bind; [done | intros r3].
    apply emits_bind; [done | intros r4]. apply emits_ret.
  - intros [need req]. apply (emits_impl (λ e, isLookup e = false)); [done |].
    apply step2_events.
Qed.

Lemma Forall_filter_nil (f : event → bool) evs :
  Forall (λ e, f e = false) evs → List.filter f evs = [].
Proof. induction 1 as [| e evs He _ IH]; [done |]. simpl. by rewrite He. Qed.

(** X3. The remote calls of a run come in the order of its blocks: the
    image lookup, the IP lookup, the volume lookups, the bootscript lookup,
    and then the calls that create, delete or start a resource; no lookup
    follows a mutating call. *)
Theorem run_stages_in_order ctx args w :
  ∃ image ip volumes bootscript writes,
    trace (run (instanceServerCreateRun ctx args) w).2
    = (image ++ ip ++ volumes ++ bootscript ++ writes)%list
    ∧ Forall (λ e, fromImage e = true) image
    ∧ Forall (λ e, fromIP e = true) ip
    ∧ Forall (λ e, fromVolumes e = true) volumes
    ∧ Forall (λ e, fromBootscript e = true) bootscript
    ∧ Forall (λ e, isLookup e = false) writes.
Proof.
  destruct (prepareRequest_stages ctx args (mkState w []))
    as (image & ip & volumes & bootscript & T & Fi & Fp & Fv & Fb).
  cbn [trace app] in T.
  destruct (run_shape ctx args w) as [_ Hshape].
  destruct (prepareRequest ctx args (mkState w [])) as [[[need req] | e |] s1];
    cbn [fst snd] in T, Hshape.
  - destruct Hshape as (writes & Tw & Hstep).
    exists image, ip, volumes, bootscript, writes.
    rewrite Tw, T, <- !app_assoc. repeat split; try done.
    by apply Step2_no_lookup in Hstep.
  - exists image, ip, volumes, bootscript, []. rewrite Hshape. cbn [snd].
    rewrite T, app_nil_r. by repeat split.
  - exists image, ip, volumes, bootscript, []. rewrite Hshape. cbn [snd].
    rewrite T, app_nil_r. by repeat split.
Qed.

(** X4. A run that fails with an error other than the one of a failed IP
    creation or of a failed server creation made no mutating call: nothing
    was created.  A run that panics made no mutating call either, unless
    it panics right after a creation that returned neither an error nor
    the object: then the last event of its trace is this create-IP or
    create-server call, and the run made no delete-IP and no power-on call
    (an IP that the run created before is not deleted). *)
Theorem failure_before_creation ctx args w :
  let result := run (instanceServerCreateRun ctx args) w in
  ((∃ e, result.1 = Error e
         ∧ (∀ err, e ≠ CannotCreateIP err)
         ∧ (∀ err, e ≠ CannotCreateServer err)) →
   Forall quiet (trace result.2))
  ∧ (result.1 = Panic →
     Forall quiet (trace result.2)
     ∨ ∃ before last,
         trace result.2 = (before ++ [last])%list
         ∧ (last = EvCreateIP (arg_Zone args) (arg_OrganizationID args) (Ok None)
            ∨ ∃ req, last = EvCreateServer req (Ok None))
         ∧ List.filter isDeleteIP (trace result.2) = []
         ∧ List.filter isServerAction (trace result.2) = []).
Proof.
  intros result. subst result.
  destruct (run_shape ctx args w) as [Q Hshape].
  destruct (prepareRequest ctx args (mkState w [])) as [[[need req] | e |] s1];
    cbn [fst snd] in Q, Hshape;
    [| rewrite Hshape; split; [done | by left] ..].
  destruct Hshape as (writes & T & Hstep). rewrite T.
  assert (Hmissing : ∀ evs last,
    writes = (evs ++ [last])%list →
    Forall (λ e, isDeleteIP e = false ∧ isServerAction e = false) writes →
    (last = EvCreateIP (arg_Zone args) (arg_OrganizationID args) (Ok None)
     ∨ ∃ req', last = EvCreateServer req' (Ok None)) →
    ∃ before last',
      (trace s1 ++ writes)%list = (before ++ [last'])%list
      ∧ (last' = EvCreateIP (arg_Zone args) (arg_OrganizationID args) (Ok None)
         ∨ ∃ req', last' = EvCreateServer req' (Ok None))
      ∧ List.filter isDeleteIP (trace s1 ++ writes) = []
      ∧ List.filter isServerAction (trace s1 ++ writes) = []).
  { intros evs last -> Hnone Hlast. exists (trace s1 ++ evs)%list, last.
    split; [by rewrite app_assoc |]. split; [done |].
    rewrite !List.filter_app.
    rewrite (quiet_filter isDeleteIP _ ltac:(by intros []) Q),
            (quiet_filter isServerAction _ ltac:(by intros []) Q).
    rewrite <- !List.filter_app.
    split; apply Forall_filter_nil; eapply Forall_impl; try exact Hnone;
      by intros e0 []. }
  destruct Hstep as [cerr | | res serr d | res | res server action _ | serr |
                     | server action _].
  - split; [| done]. intros (e & [= <-] & Hip & _). by destruct (Hip cerr).
  - split; [by intros (e & ? & _) |]. intros _. right.
    apply (Hmissing [EvLog Info "creating IP" []] _ eq_refl);
      [by repeat constructor | by left].
  - split; [| done]. intros (e & [= <-] & _ & Hsrv). by destruct (Hsrv serr).
  - split; [by intros (e & ? & _) |]. intros _. right.
    apply (Hmissing
             [EvLog Info "creating IP" [];
              EvCreateIP (arg_Zone args) (arg_OrganizationID args) (Ok (Some res));
              EvLog Info "IP created: %s" [IP_ID res];
              EvLog Info "creating server" []] _ eq_refl);
      [by repeat constructor | right; by eexists].
  - split; [by intros (e & ? & _) | done].
  - split; [| done]. intros (e & [= <-] & _ & Hsrv). by destruct (Hsrv serr).
  - split; [by intros (e & ? & _) |]. intros _. right.
    apply (Hmissing [EvLog Info "creating server" []] _ eq_refl);
      [by repeat constructor | right; by eexists].
  - split; [by intros (e & ? & _) | done].
Qed.

(** X5. When the IP creation fails, the run returns the error of the IP
    creation and calls neither the server creation, nor the IP deletion, nor
    the power-on. *)
Theorem ip_creation_failure ctx args w zone org cerr :
  let result := run (instanceServerCreateRun ctx args) w in
  EvCreateIP zone org (Fail cerr) ∈ trace result.2 →
  result.1 = Error (CannotCreateIP cerr)
  ∧ List.filter isCreateServer (trace result.2) = []
  ∧ List.filter isDeleteIP (trace result.2) = []
  ∧ List.filter isServerAction (trace result.2) = [].
Proof.
  intros result Hin. subst result.
  destruct (run_shape ctx args w) as [Q Hshape].
  destruct (prepareRequest ctx args (mkState w [])) as [[[need req] | e |] s1];
    cbn [fst snd] in Q, Hshape.
  2, 3: rewrite Hshape in Hin; cbn [snd] in Hin;
        by pose proof (quiet_in _ _ Q Hin).
  destruct Hshape as (writes & T & Hstep). rewrite T in Hin |- *.
  apply elem_of_app in Hin as [Hin | Hin];
    [by pose proof (quiet_in _ _ Q Hin) |].
  rewrite !List.filter_app.
  rewrite (quiet_filter isCreateServer _ ltac:(by intros []) Q),
          (quiet_filter isDeleteIP _ ltac:(by intros []) Q),
          (quiet_filter isServerAction _ ltac:(by intros []) Q).
  destruct Hstep as [cerr' | | res serr d | res | res server action _ | serr |
                     | server action _];
    unfold deleteEvents, startEvents in *.
  - in_cases Hin; try discriminate. by injection Hin as _ _ <-.
  - in_cases Hin; discriminate.
  - destruct d; in_cases Hin; discriminate.
  - in_cases Hin; discriminate.
  - destruct action as [[[] |] |]; in_cases Hin; discriminate.
  - in_cases Hin; discriminate.
  - in_cases Hin; discriminate.
  - destruct action as [[[] |] |]; in_cases Hin; discriminate.
Qed.

(** X6. A run returns a server exactly when its trace holds a successful
    create-server call, and it returns the server of that call.  Such a run
    deletes no IP, and it calls the power-on once, for that server, when the
    start flag is set, and not at all otherwise; what the power-on answers
    does not change the result. *)
Theorem server_created ctx args w server :
  let result := run (instanceServerCreateRun ctx args) w in
  (result.1 = Return server
   ↔ ∃ req, EvCreateServer req (Ok (Some server)) ∈ trace result.2)
  ∧ (result.1 = Return server →
     List.filter isDeleteIP (trace result.2) = []
     ∧ ∃ action,
         (action = None ↔ arg_Start args = false)
         ∧ List.filter isServerAction (trace result.2)
           = match action with
             | None => []
             | Some a => [EvServerAction (arg_Zone args) (Server_ID server) a]
             end).
Proof.
  intros result. subst result.
  destruct (run_shape ctx args w) as [Q Hshape].
  destruct (prepareRequest ctx args (mkState w [])) as [[[need req] | e |] s1];
    cbn [fst snd] in Q, Hshape.
  2, 3: rewrite Hshape; cbn [fst snd]; split; [split |]; try done;
        intros [req' Hin]; by pose proof (quiet_in _ _ Q Hin).
  destruct Hshape as (writes & T & Hstep). rewrite T.
  rewrite !List.filter_app.
  rewrite (quiet_filter isDeleteIP _ ltac:(by intros []) Q),
          (quiet_filter isServerAction _ ltac:(by intros []) Q).
  assert (Hreads : ∀ req' r, EvCreateServer req' r ∉ trace s1).
  { intros req' r Hin. by pose proof (quiet_in _ _ Q Hin). }
  destruct Hstep as [cerr | | res serr d | res | res server' action Ha | serr |
                     | server' action Ha];
    unfold deleteEvents, startEvents in *.
  - split; [split |]; try done. intros [req' Hin].
    apply elem_of_app in Hin as [Hin | Hin]; [by destruct (Hreads _ _ Hin) |].
    in_cases Hin; discriminate.
  - split; [split |]; try done. intros [req' Hin].
    apply elem_of_app in Hin as [Hin | Hin]; [by destruct (Hreads _ _ Hin) |].
    in_cases Hin; discriminate.
  - split; [split |]; try done. intros [req' Hin].
    apply elem_of_app in Hin as [Hin | Hin]; [by destruct (Hreads _ _ Hin) |].
    destruct d; in_cases Hin; discriminate.
  - split; [split |]; try done. intros [req' Hin].
    apply elem_of_app in Hin as [Hin | Hin]; [by destruct (Hreads _ _ Hin) |].
    in_cases Hin; discriminate.
  - split; [split |].
    + intros [= ->]. eexists. rewrite !elem_of_app, !elem_of_cons. auto 10.
    + intros [req' Hin]. f_equal.
      apply elem_of_app in Hin as [Hin | Hin]; [by destruct (Hreads _ _ Hin) |].
      destruct action as [[[] |] |]; in_cases Hin; try discriminate;
        by injection Hin as _ <-.
    + intros [= ->]. destruct action as [[[] |] |]; cbn; (split; [done |]);
        first [by exists None | eexists (Some _); by split].
  - split; [split |]; try done. intros [req' Hin].
    apply elem_of_app in Hin as [Hin | Hin]; [by destruct (Hreads _ _ Hin) |].
    in_cases Hin; discriminate.
  - split; [split |]; try done. intros [req' Hin].
    apply elem_of_app in Hin as [Hin | Hin]; [by destruct (Hreads _ _ Hin) |].
    in_cases Hin; discriminate.
  - split; [split |].
    + intros [= ->]. eexists. rewrite !elem_of_app, !elem_of_cons. auto 10.
    + intros [req' Hin]. f_equal.
      apply elem_of_app in Hin as [Hin | Hin]; [by destruct (Hreads _ _ Hin) |].
      destruct action as [[[] |] |]; in_cases Hin; try discriminate;
        by injection Hin as _ <-.
    + intros [= ->]. destruct action as [[[] |] |]; cbn; (split; [done |]);
        first [by exists None | eexists (Some _); by split].
Qed.
End WholeRuns.

Section WholeRuns2.
Context {W : Type} `{Externals}.
Implicit Types (ctx : CommandContext W) (s : state W).

(** X7. A run calls the IP creation, the server creation, the IP deletion
    and the power-on at most once each. *)
Theorem mutating_calls_at_most_once ctx args w :
  let events := trace (run (instanceServerCreateRun ctx args) w).2 in
  (length (List.filter isCreateIP events) ≤ 1)%nat
  ∧ (length (List.filter isCreateServer events) ≤ 1)%nat
  ∧ (length (List.filter isDeleteIP events) ≤ 1)%nat
  ∧ (length (List.filter isServerAction events) ≤ 1)%nat.
Proof.
  intros events. subst events.
  destruct (run_shape ctx args w) as [Q Hshape].
  assert (Hreads : List.filter isCreateIP
                     (trace (prepareRequest ctx args (mkState w [])).2) = []
                   ∧ List.filter isCreateServer
                       (trace (prepareRequest ctx args (mkState w [])).2) = []
                   ∧ List.filter isDeleteIP
                       (trace (prepareRequest ctx args (mkState w [])).2) = []
                   ∧ List.filter isServerAction
                       (trace (prepareRequest ctx args (mkState w [])).2) = []).
  { repeat split; apply quiet_filter; try done; by intros []. }
  destruct Hreads as (R1 & R2 & R3 & R4).
  destruct (prepareRequest ctx args (mkState w [])) as [[[need req] | e |] s1];
    cbn [fst snd] in Q, Hshape, R1, R2, R3, R4.
  2, 3: rewrite Hshape; cbn [snd]; rewrite R1, R2, R3, R4; cbn; lia.
  destruct Hshape as (writes & -> & Hstep).
  rewrite !List.filter_app, R1, R2, R3, R4.
  destruct Hstep as [cerr | | res serr d | res | res server action _ | serr |
                     | server action _];
    unfold deleteEvents, startEvents;
    try destruct d; try destruct action as [[[] |] |]; cbn; lia.
Qed.

(** X8. When the [ip] argument is neither empty nor new, the run creates no
    IP and deletes none: an IP that the caller supplies is never deleted. *)
Theorem supplied_ip_is_kept ctx args w :
  let events := trace (run (instanceServerCreateRun ctx args) w).2 in
  arg_IP args ≠ "" → arg_IP args ≠ "new" →
  List.filter isCreateIP events = [] ∧ List.filter isDeleteIP events = [].
Proof.
  intros events He Hn. subst events.
  destruct (run_shape ctx args w) as [Q Hshape].
  pose proof (quiet_filter isCreateIP _ ltac:(by intros []) Q) as R1.
  pose proof (quiet_filter isDeleteIP _ ltac:(by intros []) Q) as R3.
  destruct (prepareRequest ctx args (mkState w [])) as [[[need req] | e |] s1]
    eqn:Hprep; cbn [fst snd] in Q, Hshape, R1, R3.
  2, 3: by rewrite Hshape.
  apply prepareRequest_inv in Hprep
    as (r1 & s1' & r2 & s2 & r3 & s3 & r4 & _ & H2 & _).
  apply resolveIP_result in H2 as [Hneed _].
  apply eqb_string_false in He, Hn. rewrite He, Hn in Hneed. cbn in Hneed.
  subst need.
  destruct Hshape as (writes & -> & Hstep).
  rewrite !List.filter_app, R1, R3.
  inversion Hstep as [| | | | | serr | | server action _]; subst;
    unfold startEvents; try destruct action as [[[] |] |]; done.
Qed.

(** X9. The image of the request.  When the [image] argument is a UUID the
    run makes no marketplace call and every request to create the server
    carries the argument as it is.  Otherwise the label is looked up: when
    the lookup fails the run fails with the bad image label error, this
    lookup being its only remote call; every request to create the server
    carries the id that the lookup returned. *)
Theorem image_resolution ctx args w :
  let result := run (instanceServerCreateRun ctx args) w in
  let image := arg_Image args in
  (IsUUID image = true →
     List.filter fromImage (trace result.2) = []
     ∧ ∀ req r, EvCreateServer req r ∈ trace result.2 → req_Image req = image)
  ∧ (IsUUID image = false →
     (∀ err w',
        GetLocalImageIDByLabel (apiMarketplace ctx) (arg_Zone args) image
          (arg_Type args) w = (Fail err, w') →
        result
        = (Error (Errorf ("Bad image label '" +:+ image +:+ "' for "
                          +:+ arg_Type args +:+ ".")),
           mkState w' [EvGetLocalImageIDByLabel (arg_Zone args) image
                         (arg_Type args) (Fail err)]))
     ∧ ∀ req r, EvCreateServer req r ∈ trace result.2 →
         EvGetLocalImageIDByLabel (arg_Zone args) image (arg_Type args)
           (Ok (req_Image req)) ∈ trace result.2).
Proof.
  intros result image.
  assert (Himage : ∀ req r, EvCreateServer req r ∈ trace result.2 →
            (IsUUID image = true ∧ req_Image req = image)
            ∨ (IsUUID image = false
               ∧ EvGetLocalImageIDByLabel (arg_Zone args) image (arg_Type args)
                   (Ok (req_Image req)) ∈ trace result.2)).
  { intros req r Hin.
    destruct (run_create_server _ _ _ _ _ Hin)
      as (need & serverReq & s1' & Hprep & Hmono & Hreq).
    fold result in Hmono, Hreq.
    apply prepareRequest_inv in Hprep
      as (r1 & s1 & r2 & s2 & r3 & s3 & r4 & H1 & H2 & H3 & H4 & ->).
    assert (Hkeep : ∀ e, e ∈ trace s1 → e ∈ trace result.2).
    { intros e He. apply Hmono.
      pose proof (emits_elem_of _ _ s1 e (resolveIP_events ctx args r1) He) as He2.
      rewrite H2 in He2. cbn [snd] in He2.
      pose proof (emits_elem_of _ _ s2 e (resolveVolumes_events ctx args r2) He2)
        as He3.
      rewrite H3 in He3. cbn [snd] in He3.
      pose proof (emits_elem_of _ _ s3 e (resolveBootscript_events ctx args r3) He3)
        as He4.
      by rewrite H4 in He4. }
    apply resolveImage_result in H1.
    apply resolveIP_result in H2 as [_ H2].
    apply resolveVolumes_result in H3.
    apply resolveBootscript_result in H4.
    assert (Hsame : req_Image req = req_Image r1).
    { destruct Hreq as [(_ & ->) | (_ & res & _ & ->)]; unfold setGroups;
        destruct H2 as [(_ & ->) | [(_ & _ & ->) | [(_ & _ & _ & res' & _ & ->)
                        | [(_ & _ & _ & _ & ->) | (_ & _ & _ & _ & ->)]]]];
        destruct H3 as [(_ & _ & -> & _) | (_ & volumes & ->)];
        destruct H4 as [(_ & -> & _) | (_ & _ & ->)];
        destruct (arg_SecurityGroupID args =? "")%string,
                 (arg_PlacementGroupID args =? "")%string; done. }
    rewrite Hsame.
    destruct H1 as [(Hu & -> & _) | (Hu & imageId & -> & T)]; [by left |].
    right. split; [done |]. apply Hkeep. rewrite T. cbn.
    by apply list_elem_of_singleton. }
  split.
  - intros Hu. split.
    + assert (Hemits : emits (λ e, fromImage e = false)
                         (instanceServerCreateRun ctx args)).
      { apply run_emits.
        - unfold resolveImage. fold image. rewrite Hu. apply emits_ret.
        - intros r. eapply emits_impl; [| apply resolveIP_events]; by intros [].
        - intros r.
          eapply emits_impl; [| apply resolveVolumes_events]; by intros [].
        - intros r.
          eapply emits_impl; [| apply resolveBootscript_events]; by intros [].
        - by intros []. }
      destruct (Hemits (mkState w [])) as (evs & T & F).
      subst result. unfold run. rewrite T. by apply Forall_filter_nil.
    + intros req r Hin. destruct (Himage req r Hin) as [[_ ?] | [? _]]; congruence.
  - intros Hu. split.
    + intros err w' Hget. subst result.
      unfold run, instanceServerCreateRun, prepareRequest, resolveImage.
      fold image. rewrite Hu. cbn [negb req_CommercialType].
      rewrite !bind_run. unfold call. cbn [world trace]. by rewrite Hget.
    + intros req r Hin. destruct (Himage req r Hin) as [[? _] | [_ ?]]; congruence.
Qed.

(** The bootscript block when it returns a request for a bootscript id:
    the id is a UUID that was looked up and found. *)
Lemma resolveBootscript_found ctx args serverReq s r4 s4 :
  resolveBootscript ctx args serverReq s = (Return r4, s4) →
  arg_BootscriptID args ≠ "" →
  IsUUID (arg_BootscriptID args) = true
  ∧ r4 = withBootscript serverReq (Some (arg_BootscriptID args))
  ∧ trace s4
    = (trace s ++ [EvGetBootscript (arg_Zone args) (arg_BootscriptID args) (Ok tt)])%list.
Proof.
  unfold resolveBootscript. intros Hrun Hne.
  apply eqb_string_false in Hne. rewrite Hne in Hrun. cbn [negb] in Hrun.
  destruct (IsUUID (arg_BootscriptID args)); cbn [negb] in Hrun; [| done].
  rewrite bind_run in Hrun. unfold call in Hrun.
  destruct (GetBootscript _ _ _ _) as [[[] | err] w1]; [| done].
  rewrite ret_run in Hrun. by injection Hrun as <- <-.
Qed.

(** A failed bootscript lookup in the trace of step 1: step 1 ends there,
    with the error that the bootscript does not exist. *)
Lemma prepareRequest_bootscript_failure ctx args w zone id err :
  EvGetBootscript zone id (Fail err)
    ∈ trace (prepareRequest ctx args (mkState w [])).2 →
  (prepareRequest ctx args (mkState w [])).1
  = Error (Errorf ("Bootscript ID " +:+ arg_BootscriptID args +:+ " does not exists.")).
Proof.
  unfold prepareRequest. fold (initialRequest args). rewrite bind_run.
  destruct (resolveImage ctx args (initialRequest args) (mkState w []))
    as [o1 s1] eqn:E1.
  destruct (emits_run _ _ _ _ _ (resolveImage_events ctx args _) E1)
    as (evs1 & T1 & F1). cbn [trace app] in T1.
  assert (N1 : ∀ e, e ∈ trace s1 → fromBootscript e = false).
  { intros e He. rewrite T1 in He. rewrite Forall_forall in F1.
    specialize (F1 e He). by destruct e. }
  destruct o1 as [r1 | e1 |]; cbn [fst snd];
    [| intros Hin; by apply N1 in Hin ..].
  rewrite bind_run.
  destruct (resolveIP ctx args r1 s1) as [o2 s2] eqn:E2.
  destruct (emits_run _ _ _ _ _ (resolveIP_events ctx args _) E2)
    as (evs2 & T2 & F2).
  assert (N2 : ∀ e, e ∈ trace s2 → fromBootscript e = false).
  { intros e He. rewrite T2 in He. apply elem_of_app in He as [He | He];
      [by apply N1 |].
    rewrite Forall_forall in F2. specialize (F2 e He). by destruct e. }
  destruct o2 as [[need r2] | e2 |]; cbn [fst snd];
    [| intros Hin; by apply N2 in Hin ..].
  rewrite bind_run.
  destruct (resolveVolumes ctx args r2 s2) as [o3 s3] eqn:E3.
  destruct (emits_run _ _ _ _ _ (resolveVolumes_events ctx args _) E3)
    as (evs3 & T3 & F3).
  assert (N3 : ∀ e, e ∈ trace s3 → fromBootscript e = false).
  { intros e He. rewrite T3 in He. apply elem_of_app in He as [He | He];
      [by apply N2 |].
    rewrite Forall_forall in F3. specialize (F3 e He). by destruct e. }
  destruct o3 as [r3 | e3 |]; cbn [fst snd];
    [| intros Hin; by apply N3 in Hin ..].
  rewrite bind_run. unfold resolveBootscript.
  destruct (arg_BootscriptID args =? "")%string; cbn [negb].
  { rewrite !ret_run. cbn [fst snd]. intros Hin. by apply N3 in Hin. }
  destruct (IsUUID (arg_BootscriptID args)); cbn [negb];
    [| cbn [fst snd]; intros Hin; by apply N3 in Hin].
  rewrite bind_run. unfold call.
  destruct (GetBootscript _ _ _ _) as [[[] | err'] w1]; cbn [fst snd trace];
    [| done].
  rewrite !ret_run. cbn [fst snd trace]. intros Hin.
  apply elem_of_app in Hin as [Hin | Hin]; [by apply N3 in Hin |].
  by apply list_elem_of_singleton in Hin.
Qed.

(** X10. The bootscript of a run.  Without a bootscript id, or with an id
    that is not a UUID, the run looks up no bootscript; with an id that is
    not a UUID it creates nothing and returns no server.  A bootscript
    lookup that fails ends the run with the error that the bootscript does
    not exist, before anything is created.  Every request sent to create
    the server for a bootscript id carries this id as its bootscript, the
    id is a UUID, and its lookup succeeded earlier in the run. *)
Theorem bootscript_checked_before_creation ctx args w :
  let result := run (instanceServerCreateRun ctx args) w in
  let id := arg_BootscriptID args in
  (id = "" ∨ IsUUID id = false →
   List.filter fromBootscript (trace result.2) = [])
  ∧ (id ≠ "" → IsUUID id = false →
     Forall quiet (trace result.2) ∧ ∀ server, result.1 ≠ Return server)
  ∧ (∀ zone id' err,
       EvGetBootscript zone id' (Fail err) ∈ trace result.2 →
       result.1 = Error (Errorf ("Bootscript ID " +:+ id +:+ " does not exists."))
       ∧ Forall quiet (trace result.2))
  ∧ (id ≠ "" →
     ∀ req r, EvCreateServer req r ∈ trace result.2 →
       IsUUID id = true
       ∧ req_Bootscript req = Some id
       ∧ ∃ before after,
           trace result.2
           = (before ++ EvGetBootscript (arg_Zone args) id (Ok tt) :: after)%list
           ∧ EvCreateServer req r ∈ after).
Proof.
  intros result id. split; [| split; [| split]].
  - intros Hid.
    assert (Hemits : emits (λ e, fromBootscript e = false)
                       (instanceServerCreateRun ctx args)).
    { apply run_emits.
      - eapply emits_impl; [| apply resolveImage_events]; by intros [].
      - intros r. eapply emits_impl; [| apply resolveIP_events]; by intros [].
      - intros r. eapply emits_impl; [| apply resolveVolumes_events]; by intros [].
      - intros r. unfold resolveBootscript. fold id.
        destruct Hid as [-> | ->]; [apply emits_ret |].
        destruct (id =? "")%string; cbn [negb]; [apply emits_ret | apply emits_fail].
      - by intros []. }
    destruct (Hemits (mkState w [])) as (evs & T & F).
    subst result. unfold run. rewrite T. by apply Forall_filter_nil.
  - intros Hne Hu. subst result id.
    destruct (run_shape ctx args w) as [Q Hshape].
    destruct (prepareRequest ctx args (mkState w [])) as [[[need req] | e |] s1]
      eqn:Hprep; cbn [fst snd] in Q, Hshape; [| by rewrite Hshape ..].
    apply prepareRequest_inv in Hprep
      as (r1 & s1' & r2 & s2 & r3 & s3 & r4 & _ & _ & _ & H4 & _).
    apply resolveBootscript_result in H4 as [(? & _) | (_ & ? & _)]; congruence.
  - intros zone id' err Hin. subst result.
    destruct (run_shape ctx args w) as [Q Hshape].
    pose proof (prepareRequest_bootscript_failure ctx args w zone id' err) as Hfail.
    destruct (prepareRequest ctx args (mkState w [])) as [[[need req] | e |] s1];
      cbn [fst snd] in Q, Hshape, Hfail.
    + destruct Hshape as (writes & T & Hstep). rewrite T in Hin.
      apply elem_of_app in Hin as [Hin | Hin]; [by specialize (Hfail Hin) |].
      apply Step2_no_lookup in Hstep. rewrite Forall_forall in Hstep.
      by specialize (Hstep _ Hin).
    + rewrite Hshape in Hin |- *. cbn [fst snd] in Hin |- *.
      pose proof (Hfail Hin) as Heq. by injection Heq as ->.
    + rewrite Hshape in Hin. cbn [snd] in Hin. by specialize (Hfail Hin).
  - intros Hne req r Hin.
    destruct (run_create_server _ _ _ _ _ Hin)
      as (need & serverReq & s1' & Hprep & _ & Hreq).
    fold result in Hreq.
    destruct (run_shape ctx args w) as [Q Hshape]. fold result in Hshape.
    rewrite Hprep in Q, Hshape. cbn [fst snd] in Q, Hshape.
    destruct Hshape as (writes & T & _).
    apply prepareRequest_inv in Hprep
      as (r1 & s1 & r2 & s2 & r3 & s3 & r4 & _ & _ & _ & H4 & ->).
    destruct (resolveBootscript_found _ _ _ _ _ _ H4 Hne) as (Hu & -> & T4).
    fold id in Hu, T4. split; [done |]. split.
    + unfold setGroups in Hreq.
      destruct Hreq as [(_ & ->) | (_ & res & _ & ->)];
        destruct (arg_SecurityGroupID args =? "")%string,
                 (arg_PlacementGroupID args =? "")%string; done.
    + exists (trace s3), writes. split.
      * by rewrite T, T4, <- app_assoc.
      * rewrite T in Hin. apply elem_of_app in Hin as [Hin | Hin]; [| done].
        by pose proof (quiet_in _ _ Q Hin).
Qed.

(** X11. Without volume arguments the run looks up no volume, no image and no
    server type, and every request to create the server has an empty volume
    map. *)
Theorem no_volume_arguments ctx args w :
  let result := run (instanceServerCreateRun ctx args) w in
  arg_AdditionalVolumes args = [] → arg_RootVolume args = "" →
  List.filter isVolumeLookup (trace result.2) = []
  ∧ ∀ req r, EvCreateServer req r ∈ trace result.2 → req_Volumes req = ∅.
Proof.
  intros result Hadd Hroot. split.
  - assert (Hemits : emits (λ e, isVolumeLookup e = false)
                       (instanceServerCreateRun ctx args)).
    { apply run_emits.
      - eapply emits_impl; [| apply resolveImage_events]; by intros [].
      - intros r. eapply emits_impl; [| apply resolveIP_events]; by intros [].
      - intros r. unfold resolveVolumes. rewrite Hadd, Hroot. apply emits_ret.
      - intros r.
        eapply emits_impl; [| apply resolveBootscript_events]; by intros [].
      - by intros []. }
    destruct (Hemits (mkState w [])) as (evs & T & F).
    subst result. unfold run. rewrite T. by apply Forall_filter_nil.
  - intros req r Hin.
    destruct (run_create_server _ _ _ _ _ Hin)
      as (need & serverReq & s1' & Hprep & _ & Hreq).
    apply prepareRequest_inv in Hprep
      as (r1 & s1 & r2 & s2 & r3 & s3 & r4 & H1 & H2 & H3 & H4 & ->).
    apply resolveImage_result in H1.
    apply resolveIP_result in H2 as [_ H2].
    apply resolveVolumes_result in H3.
    apply resolveBootscript_result in H4.
    destruct H3 as [(_ & _ & -> & _) | ([? | ?] & _)]; [| done ..].
    destruct Hreq as [(_ & ->) | (_ & res & _ & ->)]; unfold setGroups;
      destruct H1 as [(_ & -> & _) | (_ & imageId & -> & _)];
      destruct H2 as [(_ & ->) | [(_ & _ & ->) | [(_ & _ & _ & res' & _ & ->)
                      | [(_ & _ & _ & _ & ->) | (_ & _ & _ & _ & ->)]]]];
      destruct H4 as [(_ & -> & _) | (_ & _ & ->)];
      destruct (arg_SecurityGroupID args =? "")%string,
               (arg_PlacementGroupID args =? "")%string; done.
Qed.
End WholeRuns2.

(** * The volume loops *)

Section VolumeLoops.
Context {W : Type} `{Externals}.
Implicit Types (api : instanceAPI W) (s : state W).
Implicit Types (volumes : gmap string VolumeTemplate).

Lemma accumulateLocal_sum (entries : list (string * VolumeTemplate)) :
  ∀ total, total < 2 ^ 64 →
    fold_left (λ total entry,
                 if (VolumeType entry.2 =? VolumeTypeLSSD)%string
                 then wadd total (Size entry.2) else total) entries total
    = (total + foldr (λ kv acc, localSize kv.2 + acc) 0 entries) mod 2 ^ 64.
Proof.
  induction entries as [| [k v] rest IH]; intros total Hlt; simpl.
  - rewrite N.add_0_r. symmetry. by apply N.mod_small.
  - unfold localSize at 1. cbn [snd].
    destruct (VolumeType v =? VolumeTypeLSSD)%string.
    + rewrite IH by (unfold wadd; by apply N.mod_lt).
      unfold wadd. rewrite N.Div0.add_mod_idemp_l. f_equal. lia.
    + rewrite IH by done. by rewrite N.add_0_l.
Qed.

Lemma localSize_sum_permutation (l1 l2 : list (string * VolumeTemplate)) :
  l1 ≡ₚ l2 →
  foldr (λ kv acc, localSize kv.2 + acc) 0 l1
  = foldr (λ kv acc, localSize kv.2 + acc) 0 l2.
Proof.
  induction 1 as [| x l1 l2 _ IH | x y l | l1 l2 l3 _ IH1 _ IH2]; simpl;
    [done | by rewrite IH | lia | by rewrite IH1].
Qed.

(** X12. The total of [validateLocalVolumeSizes] does not depend on the order
    in which the range loop visits the map. *)
Theorem local_total_any_order volumes entries :
  entries ≡ₚ map_to_list volumes →
  accumulateLocal entries = localVolumeTotalSize volumes.
Proof.
  intros Hperm. unfold accumulateLocal.
  rewrite accumulateLocal_sum by done.
  rewrite N.add_0_l, (localSize_sum_permutation _ _ Hperm).
  symmetry. apply localVolumeTotalSize_sum.
Qed.

Lemma sanitizeEntries_lookup name (entries : list (string * VolumeTemplate)) :
  ∀ (m0 : gmap string VolumeTemplate) k, NoDup entries.*1 →
    fold_left (λ m entry, <[entry.1 := sanitizeVolume name entry.1 entry.2]> m)
      entries m0 !! k
    = match (list_to_map entries : gmap string VolumeTemplate) !! k with
      | Some v => Some (sanitizeVolume name k v)
      | None => m0 !! k
      end.
Proof.
  induction entries as [| [k' v'] rest IH]; intros m0 k Hnodup.
  - by rewrite list_to_map_nil, lookup_empty.
  - rewrite fmap_cons in Hnodup. apply NoDup_cons in Hnodup as [Hfresh Hnodup].
    cbn [fold_left fst snd]. rewrite list_to_map_cons, IH by done.
    destruct (decide (k = k')) as [-> | Hne].
    + rewrite (not_elem_of_list_to_map_1 rest k') by done.
      by rewrite !lookup_insert_eq.
    + rewrite (lookup_insert_ne (list_to_map rest) k' k) by done.
      destruct (list_to_map rest !! k); [done |].
      by rewrite lookup_insert_ne.
Qed.

(** X13. The map that [sanitizeVolumeMap] returns does not depend on the
    order in which the range loop visits the map. *)
Theorem sanitize_any_order name volumes entries :
  entries ≡ₚ map_to_list volumes →
  sanitizeEntries name entries = sanitizeVolumeMap name volumes.
Proof.
  intros Hperm. apply map_eq. intros k.
  assert (Hnodup : NoDup entries.*1).
  { rewrite Hperm. apply NoDup_fst_map_to_list. }
  unfold sanitizeEntries. rewrite sanitizeEntries_lookup by done.
  rewrite (list_to_map_proper _ _ Hnodup Hperm), list_to_map_to_list.
  unfold sanitizeVolumeMap. rewrite map_lookup_imap, lookup_empty.
  by destruct (volumes !! k).
Qed.

Lemma sanitizeVolume_idempotent name k v :
  sanitizeVolume name k (sanitizeVolume name k v) = sanitizeVolume name k v.
Proof.
  destruct v as [id nm sz ty org]. unfold sanitizeVolume, withName.
  cbn [ID Name Size VolumeType Organization].
  destruct (id =? "")%string eqn:Hid, (k =? "0")%string eqn:Hk,
           (sz =? 0) eqn:Hsz;
    cbn [negb andb ID Name Size VolumeType Organization];
    rewrite ?Hid, ?Hk, ?Hsz;
    cbn [negb andb ID Name Size VolumeType Organization String.eqb];
    rewrite ?Hid, ?Hk, ?Hsz; reflexivity.
Qed.

(** X14. Sanitizing twice is sanitizing once. *)
Theorem sanitizeVolumeMap_idempotent name volumes :
  sanitizeVolumeMap name (sanitizeVolumeMap name volumes)
  = sanitizeVolumeMap name volumes.
Proof.
  apply map_eq. intros k. unfold sanitizeVolumeMap.
  rewrite !map_lookup_imap. destruct (volumes !! k) as [v |]; [| done].
  cbn. by rewrite sanitizeVolume_idempotent.
Qed.

(** X15. [sanitizeVolumeMap] keeps the keys and the ids of a volume map, and
    every entry that it returns with an id has nothing but this id and the
    name made of the server name and the key: no size, no class, no
    organization. *)
Theorem sanitizeVolumeMap_keys_and_ids name volumes :
  let final := sanitizeVolumeMap name volumes in
  dom final = dom volumes
  ∧ (∀ k v, volumes !! k = Some v →
       ∃ v', final !! k = Some v' ∧ ID v' = ID v)
  ∧ (∀ k v', final !! k = Some v' → ID v' ≠ "" →
       v' = {| ID := ID v'; Name := name +:+ "-" +:+ k; Size := 0;
               VolumeType := ""; Organization := "" |}).
Proof.
  intros final. subst final.
  assert (Hfinal : ∀ k, sanitizeVolumeMap name volumes !! k
                        = sanitizeVolume name k <$> volumes !! k).
  { intros k. unfold sanitizeVolumeMap. rewrite map_lookup_imap.
    by destruct (volumes !! k). }
  split; [| split].
  - apply set_eq. intros k. rewrite !elem_of_dom, Hfinal. apply fmap_is_Some.
  - intros k v Hk. rewrite Hfinal, Hk. eexists. split; [done |].
    destruct v as [id nm sz ty org]. unfold sanitizeVolume, withName.
    cbn [ID Name Size VolumeType Organization].
    destruct (id =? "")%string eqn:Hid; cbn [negb]; [| done].
    apply eqb_string_true in Hid.
    by destruct ((k =? "0")%string && negb (sz =? 0)).
  - intros k v'. rewrite Hfinal. destruct (volumes !! k) as [v |]; [| done].
    cbn. intros [= <-]. destruct v as [id nm sz ty org].
    unfold sanitizeVolume, withName.
    cbn [ID Name Size VolumeType Organization].
    destruct (id =? "")%string eqn:Hid; cbn [negb]; [| done].
    apply eqb_string_true in Hid.
    destruct ((k =? "0")%string && negb (sz =? 0)); cbn [ID]; by intros [].
Qed.

(** X16. A template of a class other than the local one, at a key other than
    the root one, does not count in the aggregate check: with or without
    it, [validateLocalVolumeSizes] does the same. *)
Theorem block_volume_not_counted api volumes zone commercialType k v s :
  volumes !! k = None → k ≠ "0" → VolumeType v ≠ VolumeTypeLSSD →
  validateLocalVolumeSizes api (<[k := v]> volumes) zone commercialType s
  = validateLocalVolumeSizes api volumes zone commercialType s.
Proof.
  intros Hfresh Hk Hclass. unfold validateLocalVolumeSizes.
  assert (Htotal : localVolumeTotalSize (<[k := v]> volumes)
                   = localVolumeTotalSize volumes).
  { rewrite !localVolumeTotalSize_sum, (sumLocal_insert _ _ _ Hfresh).
    unfold localSize. apply eqb_string_false in Hclass. by rewrite Hclass. }
  rewrite Htotal. by rewrite (lookup_insert_ne volumes k "0" v Hk).
Qed.
End VolumeLoops.

(** * Building the volume set, and the suggestions *)

Section VolumeSetBuilder.
Context {W : Type} `{Externals}.
Implicit Types (api : instanceAPI W) (ctx : CommandContext W) (s : state W).
Implicit Types (volumes : gmap string VolumeTemplate).

(** The loop on a list of descriptors in two parts is the loop on the first
    part followed by the loop on the second, from the next position. *)
Lemma buildAdditionalVolumes_app api zone org name pre post :
  ∀ i volumes s,
    buildAdditionalVolumes api zone org name i (pre ++ post) volumes s
    = (buildAdditionalVolumes api zone org name i pre volumes
       ≫= buildAdditionalVolumes api zone org name (i + length pre) post) s.
Proof.
  induction pre as [| v rest IH]; intros i volumes s.
  - rewrite bind_run. cbn [app buildAdditionalVolumes length].
    by rewrite ret_run, Nat.add_0_r.
  - cbn [app buildAdditionalVolumes length]. rewrite !bind_run.
    destruct (buildVolumeTemplate api zone org v s) as [[t | e |] s1]; [| done ..].
    rewrite IH, bind_run.
    by replace (S i + length rest)%nat with (i + S (length rest))%nat by lia.
Qed.

(** X17. [buildVolumes] stops at the first descriptor that fails, root
    first, and returns its error as it is, in the state this descriptor
    left: the descriptors after it are not examined. *)
Theorem buildVolumes_first_failure api zone org name root s :
  (∀ additional e s1,
     root ≠ "" →
     buildVolumeTemplate api zone org root s = (Error e, s1) →
     buildVolumes api zone org name root additional s = (Error e, s1))
  ∧ (∀ pre d post volumes1 s1 e s2,
       buildVolumes api zone org name root pre s = (Return volumes1, s1) →
       buildVolumeTemplate api zone org d s1 = (Error e, s2) →
       buildVolumes api zone org name root (pre ++ d :: post) s = (Error e, s2)).
Proof.
  split.
  - intros additional e s1 Hroot Hfail. unfold buildVolumes.
    apply eqb_string_false in Hroot. rewrite Hroot. cbn [negb].
    by rewrite !bind_run, Hfail.
  - intros pre d post volumes1 s1 e s2 Hpre Hfail. unfold buildVolumes in *.
    rewrite bind_run in Hpre |- *.
    destruct (root =? "")%string; cbn [negb] in Hpre |- *.
    + rewrite ret_run in Hpre |- *.
      rewrite buildAdditionalVolumes_app, bind_run, Hpre.
      cbn [buildAdditionalVolumes]. by rewrite bind_run, Hfail.
    + destruct ((buildVolumeTemplate api zone org root ≫= _) s)
        as [[volumes0 | e0 |] s0]; [| done ..].
      rewrite buildAdditionalVolumes_app, bind_run, Hpre.
      cbn [buildAdditionalVolumes]. by rewrite bind_run, Hfail.
Qed.

(** The remote calls of [buildVolumeTemplate]: the lookup of the UUID of the
    descriptor, when it has one. *)
Lemma buildVolumeTemplate_lookup api zone org flagV s :
  ∃ replies,
    length replies = length (option_list (lookedUp flagV))
    ∧ trace (buildVolumeTemplate api zone org flagV s).2
      = (trace s ++ zip_with (EvGetVolume zone) (option_list (lookedUp flagV))
                      replies)%list.
Proof.
  unfold buildVolumeTemplate, lookedUp.
  destruct (Split ":" (TrimSpace flagV)) as [| p0 [| p1 [| p2 rest]]].
  - exists []. by rewrite app_nil_r.
  - destruct (IsUUID p0).
    + destruct (buildVolumeTemplateFromUUID_trace api zone p0 s) as [r Hr].
      exists [r]. by rewrite Hr.
    + exists []. by rewrite app_nil_r.
  - exists []. split; [done |]. rewrite app_nil_r, bind_run.
    destruct ((p0 =? "l")%string || (p0 =? "local")%string);
      [| destruct ((p0 =? "b")%string || (p0 =? "block")%string)];
      cbn; try done; by destruct (ParseBytes p1).
  - exists []. by rewrite app_nil_r.
Qed.

Lemma buildAdditionalVolumes_lookups api zone org name additional :
  ∀ i volumes0 s volumes s',
    buildAdditionalVolumes api zone org name i additional volumes0 s
    = (Return volumes, s') →
    ∃ replies,
      length replies = length (omap lookedUp additional)
      ∧ trace s' = (trace s ++ zip_with (EvGetVolume zone)
                                (omap lookedUp additional) replies)%list.
Proof.
  induction additional as [| d rest IH]; intros i volumes0 s volumes s' Hrun.
  - cbn in Hrun. injection Hrun as _ <-. exists []. by rewrite app_nil_r.
  - cbn [buildAdditionalVolumes] in Hrun. rewrite bind_run in Hrun.
    destruct (buildVolumeTemplate_lookup api zone org d s) as (r1 & L1 & T1).
    destruct (buildVolumeTemplate api zone org d s) as [[t | e |] s1];
      [| done ..].
    cbn [snd] in T1. destruct (IH _ _ _ _ _ Hrun) as (r2 & L2 & T2).
    exists (r1 ++ r2)%list. cbn [omap list_omap].
    destruct (lookedUp d) as [uuid |]; cbn [option_list] in L1, T1.
    + destruct r1 as [| r [| ? ?]]; try done. cbn [app length zip_with].
      split; [by rewrite L2 |]. rewrite T2, T1, <- app_assoc. done.
    + destruct r1; [| done]. cbn [app]. split; [done |].
      rewrite T2, T1. cbn [zip_with]. by rewrite app_nil_r.
Qed.

(** X18. A [buildVolumes] that succeeds has made one lookup per descriptor
    that is a UUID, for that UUID, in the order of the descriptors (the root
    first), and no other remote call: a descriptor of a new volume costs no
    call. *)
Theorem volume_lookups api zone org name root additional s volumes s' :
  buildVolumes api zone org name root additional s = (Return volumes, s') →
  let uuids := omap lookedUp (descriptors root additional) in
  ∃ replies,
    length replies = length uuids
    ∧ trace s' = (trace s ++ zip_with (EvGetVolume zone) uuids replies)%list.
Proof.
  intros Hrun uuids. subst uuids. unfold buildVolumes in Hrun.
  unfold descriptors. rewrite bind_run in Hrun.
  destruct (root =? "")%string; cbn [negb] in Hrun.
  - rewrite ret_run in Hrun. cbn [app].
    by apply buildAdditionalVolumes_lookups in Hrun.
  - rewrite bind_run in Hrun.
    destruct (buildVolumeTemplate_lookup api zone org root s) as (r1 & L1 & T1).
    destruct (buildVolumeTemplate api zone org root s) as [[t | e |] s1];
      [| done ..].
    cbn [snd] in T1. rewrite ret_run in Hrun.
    apply buildAdditionalVolumes_lookups in Hrun as (r2 & L2 & T2).
    exists (r1 ++ r2)%list. cbn [app omap list_omap].
    destruct (lookedUp root) as [uuid |]; cbn [option_list] in L1, T1.
    + destruct r1 as [| r [| ? ?]]; try done. cbn [app length zip_with].
      split; [by rewrite L2 |]. rewrite T2, T1, <- app_assoc. done.
    + destruct r1; [| done]. cbn [app]. split; [done |].
      rewrite T2, T1. cbn [zip_with]. by rewrite app_nil_r.
Qed.

Lemma prefix_trans (a b c : string) :
  String.prefix a b = true → String.prefix b c = true → String.prefix a c = true.
Proof.
  revert a b. induction c as [| z c IH]; intros a b.
  - destruct a, b; simpl; done.
  - destruct a as [| x a]; [done |]. destruct b as [| y b]; [done |]. simpl.
    destruct (ascii_dec x y) as [-> | ?]; [| done].
    destruct (ascii_dec y z) as [-> | ?]; [| done]. apply IH.
Qed.

(** X19. With the empty prefix the autocompleter suggests every listed label;
    and when the prefix of one call extends, once normalized, the prefix of
    another, its suggestions are those of the other call that start with
    it: typing more only narrows the suggestions. *)
Theorem autocomplete_narrows ctx s images w' :
  ListImages (apiMarketplace ctx) (world s) = (Ok images, w') →
  let suggest prefix := (instanceServerCreateImageAutoCompleteFunc ctx prefix s).1 in
  suggest "" = Return (map Label images)
  ∧ ∀ p q, HasPrefix (normalizedPrefix p) (normalizedPrefix q) = true →
      ∃ forP forQ,
        suggest p = Return forP ∧ suggest q = Return forQ
        ∧ forP = List.filter (λ label, HasPrefix label (normalizedPrefix p)) forQ.
Proof.
  intros Hlist suggest.
  assert (Hsuggest : ∀ prefix,
            suggest prefix
            = Return (map Label (List.filter
                        (λ image, HasPrefix (Label image) (normalizedPrefix prefix))
                        images))).
  { intros prefix. subst suggest. cbn beta.
    unfold instanceServerCreateImageAutoCompleteFunc.
    by rewrite bind_run, (call_run _ _ _ _ _ Hlist). }
  split.
  - rewrite Hsuggest. f_equal. clear.
    assert (Hall : ∀ label, HasPrefix label (normalizedPrefix "") = true)
      by (by intros []).
    induction images as [| i l IH]; [done |].
    cbn [List.filter]. rewrite Hall. cbn [map]. by rewrite IH.
  - intros p q Hpq. eexists _, _. split; [apply Hsuggest |].
    split; [apply Hsuggest |]. clear Hsuggest Hlist suggest.
    induction images as [| i l IH]; [done |]. cbn [List.filter].
    destruct (HasPrefix (Label i) (normalizedPrefix p)) eqn:Hp.
    + unfold HasPrefix in *.
      rewrite (prefix_trans _ _ _ Hpq Hp). cbn [map List.filter].
      unfold HasPrefix. rewrite Hp. by rewrite IH.
    + destruct (HasPrefix (Label i) (normalizedPrefix q)); [| done].
      cbn [map List.filter]. by rewrite Hp.
Qed.
End VolumeSetBuilder.

(** * The root volume of the request *)

Section ValidatedRoot.
Context {W : Type} `{Externals}.
Implicit Types (api : instanceAPI W) (ctx : CommandContext W) (s : state W).

(** What a passing [validateRootVolume] has checked. *)
Lemma validateRootVolume_Return_inv api zone image rootVolume s s' :
  validateRootVolume api zone image (Some rootVolume) s = (Return tt, s') →
  VolumeType rootVolume = VolumeTypeLSSD
  ∧ ID rootVolume = ""
  ∧ ∃ res w',
      GetImage api zone image (world s) = (Ok res, w')
      ∧ Image_RootVolume_Size res ≤ Size rootVolume
      ∧ s' = mkState w' (trace s ++ [EvGetImage zone image (Ok res)]).
Proof.
  unfold validateRootVolume. intros Hrun.
  destruct (VolumeType rootVolume =? VolumeTypeLSSD)%string eqn:Hty;
    cbn [negb] in Hrun; [| done].
  destruct (ID rootVolume =? "")%string eqn:Hid; cbn [negb] in Hrun; [| done].
  apply eqb_string_true in Hty. apply eqb_string_true in Hid.
  split; [done |]. split; [done |].
  destruct (GetImage api zone image (world s)) as [[res | err] w'] eqn:Hget;
    rewrite bind_run, (call_run _ _ _ _ _ Hget), bind_run in Hrun.
  - rewrite ret_run in Hrun.
    destruct (Size rootVolume <? Image_RootVolume_Size res) eqn:Hlt; [done |].
    apply N.ltb_ge in Hlt. exists res, w'. split; [done |]. split; [done |].
    by injection Hrun as <-.
  - unfold_monad. cbn in Hrun. done.
Qed.

(** X20. [validateRootVolume] accepts a root volume exactly when it is of
    the local class, is a new volume, and is at least as large as the root
    volume of the image, which is looked up once and found: a failed image
    lookup never lets a root volume through, and a volume of the size of
    the image's passes. *)
Theorem validateRootVolume_accepts api zone image rootVolume s s' :
  validateRootVolume api zone image (Some rootVolume) s = (Return tt, s')
  ↔ VolumeType rootVolume = VolumeTypeLSSD
    ∧ ID rootVolume = ""
    ∧ ∃ res w',
        GetImage api zone image (world s) = (Ok res, w')
        ∧ Image_RootVolume_Size res ≤ Size rootVolume
        ∧ s' = mkState w' (trace s ++ [EvGetImage zone image (Ok res)]).
Proof.
  split.
  - apply validateRootVolume_Return_inv.
  - intros (Hty & Hid & res & w' & Hget & Hle & ->).
    by apply validateRootVolume_large_enough.
Qed.




End ValidatedRoot.

(** * More runs on the reference instance *)

Section MoreRuns.
Import Reference Scenarios.
#[local] Existing Instance externals.

(** A run that creates an IP and the server, and starts it. *)
Lemma request_carries_arguments_witness :
  let args := arguments uuid2 "new" "" [] true uuid1 in
  let req := withBootscript (withPublicIP request (Some "ip-new")) (Some uuid1) in
  req_Zone req = arg_Zone args
  ∧ req_Organization req = arg_OrganizationID args
  ∧ req_Name req = arg_Name args
  ∧ req_CommercialType req = arg_Type args
  ∧ req_EnableIPv6 req = arg_IPv6 args
  ∧ req_Tags req = arg_Tags args
  ∧ req_SecurityGroup req = Some "sg-1"
  ∧ req_PlacementGroup req = None
  ∧ req_Bootscript req = Some uuid1.
Proof.
  intros args req.
  apply (request_carries_arguments (scripted healthy) args tt req
           (Ok (Some {| Server_ID := "srv-1" |}))).
  vm_compute. repeat constructor.
Defined.

(** The IP created by the run is the public IP of the request. *)
Lemma request_ip_directive_witness :
  let args := arguments uuid2 "new" "" [] true "" in
  let result := run (instanceServerCreateRun (scripted healthy) args) tt in
  let req := withPublicIP request (Some "ip-new") in
  ∃ res, EvCreateIP "fr-par-1" "org-1" (Ok (Some res)) ∈ trace result.2
         ∧ req_PublicIP req = Some (IP_ID res)
         ∧ req_DynamicIPRequired req = None.
Proof.
  intros args result req.
  refine (proj1 (request_ip_directive (scripted healthy) args tt req
                   (Ok (Some {| Server_ID := "srv-1" |})) _) _).
  - vm_compute. repeat constructor.
  - by right.
Defined.

(** An [ip] argument of no accepted form: the run fails before any call.
    A root volume and a failed image lookup: the run panics before any
    creation.  A server creation that returns no server, after the IP is
    created: the run panics, and the IP is not deleted. *)
Lemma failure_before_creation_witness :
  Forall quiet
    (trace (run (instanceServerCreateRun (scripted healthy)
                   (arguments uuid2 "static" "" [] true "")) tt).2)
  ∧ (let result := run (instanceServerCreateRun (scripted imageDown)
                          (arguments uuid2 "none" "l:20GB" [] false "")) tt in
     result.1 = Panic ∧ Forall quiet (trace result.2))
  ∧ let result := run (instanceServerCreateRun (scripted serverMissing)
                         (arguments uuid2 "new" "" [] true "")) tt in
    result.1 = Panic
    ∧ EvCreateIP "fr-par-1" "org-1" (Ok (Some {| IP_ID := "ip-new" |}))
        ∈ trace result.2
    ∧ ∃ before last,
        trace result.2 = (before ++ [last])%list
        ∧ (last = EvCreateIP "fr-par-1" "org-1" (Ok None)
           ∨ ∃ req, last = EvCreateServer req (Ok None))
        ∧ List.filter isDeleteIP (trace result.2) = []
        ∧ List.filter isServerAction (trace result.2) = [].
Proof.
  split; [| split].
  - apply (proj1 (failure_before_creation (scripted healthy)
                    (arguments uuid2 "static" "" [] true "") tt)).
    eexists. split; [vm_compute; reflexivity |].
    split; intros err Heq; vm_compute in Heq; discriminate.
  - intros result.
    assert (Hpanic : result.1 = Panic) by (vm_compute; reflexivity).
    split; [done |].
    destruct (proj2 (failure_before_creation (scripted imageDown)
                       (arguments uuid2 "none" "l:20GB" [] false "") tt) Hpanic)
      as [Hquiet | (before & last & Htrace & Hlast & _)]; [exact Hquiet |].
    assert (Hin : last ∈ trace result.2).
    { unfold result. rewrite Htrace. apply elem_of_app. right. constructor. }
    assert (Hall : Forall quiet (trace result.2))
      by (vm_compute; repeat constructor).
    pose proof (quiet_in _ _ Hall Hin) as Hquiet.
    destruct Hlast as [-> | [req ->]]; discriminate.
  - intros result.
    assert (Hpanic : result.1 = Panic) by (vm_compute; reflexivity).
    assert (Hcreated : EvCreateIP "fr-par-1" "org-1"
                         (Ok (Some {| IP_ID := "ip-new" |})) ∈ trace result.2)
      by (vm_compute; repeat constructor).
    split; [done |]. split; [done |].
    destruct (proj2 (failure_before_creation (scripted serverMissing)
                       (arguments uuid2 "new" "" [] true "") tt) Hpanic)
      as [Hquiet | Hlast]; [| exact Hlast].
    by pose proof (quiet_in _ _ Hquiet Hcreated).
Defined.

(** The IP creation fails. *)
Lemma ip_creation_failure_witness :
  let result := run (instanceServerCreateRun (scripted ipDown)
                       (arguments uuid2 "new" "" [] true "")) tt in
  result.1 = Error (CannotCreateIP unavailable)
  ∧ List.filter isCreateServer (trace result.2) = []
  ∧ List.filter isDeleteIP (trace result.2) = []
  ∧ List.filter isServerAction (trace result.2) = [].
Proof.
  apply (ip_creation_failure (scripted ipDown) _ tt "fr-par-1" "org-1" unavailable).
  vm_compute. repeat constructor.
Defined.

(** The caller supplies the IP and the server creation fails: the IP is
    not deleted. *)
Lemma supplied_ip_is_kept_witness :
  let events := trace (run (instanceServerCreateRun (scripted serverDown)
                              (arguments uuid2 uuid1 "" [] true "")) tt).2 in
  List.filter isCreateIP events = [] ∧ List.filter isDeleteIP events = [].
Proof.
  apply (supplied_ip_is_kept (scripted serverDown)
           (arguments uuid2 uuid1 "" [] true "") tt); discriminate.
Defined.

(** No volume argument. *)
Lemma no_volume_arguments_witness :
  let result := run (instanceServerCreateRun (scripted healthy)
                       (arguments uuid2 "none" "" [] false "")) tt in
  List.filter isVolumeLookup (trace result.2) = []
  ∧ ∀ req r, EvCreateServer req r ∈ trace result.2 → req_Volumes req = ∅.
Proof.
  apply (no_volume_arguments (scripted healthy)
           (arguments uuid2 "none" "" [] false "") tt); reflexivity.
Defined.

(** The entries of [threeVolumes] visited from the last to the first. *)
Lemma local_total_any_order_witness :
  accumulateLocal (reverse (map_to_list threeVolumes)) = 50 * 10 ^ 9
  ∧ localVolumeTotalSize threeVolumes = 50 * 10 ^ 9.
Proof.
  assert (Horder : accumulateLocal (reverse (map_to_list threeVolumes))
                   = localVolumeTotalSize threeVolumes).
  { apply local_total_any_order. apply reverse_Permutation. }
  split; [rewrite Horder |]; vm_compute; reflexivity.
Defined.

Lemma sanitize_any_order_witness :
  sanitizeEntries "srv" (reverse (map_to_list threeVolumes))
  = sanitizeVolumeMap "srv" threeVolumes.
Proof. apply sanitize_any_order. apply reverse_Permutation. Defined.

(** A block volume more at key 3. *)
Lemma block_volume_not_counted_witness :
  let api := apiInstance (scripted healthy) in
  validateLocalVolumeSizes api
    (<["3" := newVolume VolumeTypeBSSD (500 * 10 ^ 9) "org-1"]> threeVolumes)
    "fr-par-1" "DEV1-S" start
  = validateLocalVolumeSizes api threeVolumes "fr-par-1" "DEV1-S" start.
Proof.
  intros api. apply block_volume_not_counted;
    [vm_compute; reflexivity | discriminate | discriminate].
Defined.

(** A new root volume, an existing volume, a new volume: one lookup. *)
Lemma volume_lookups_witness :
  let uuids := omap lookedUp (descriptors "l:20GB" [uuid1; "b:100GB"]) in
  uuids = [uuid1]
  ∧ ∃ replies,
      length replies = length uuids
      ∧ [EvGetVolume "fr-par-1" uuid1 (onGetVolume healthy uuid1)]
        = ([] ++ zip_with (EvGetVolume "fr-par-1") uuids replies)%list.
Proof.
  intros uuids. split; [reflexivity |].
  apply (volume_lookups (apiInstance (scripted healthy)) "fr-par-1" "org-1" "srv"
           "l:20GB" [uuid1; "b:100GB"] start
           {[ "0" := newVolume VolumeTypeLSSD (20 * 10 ^ 9) "";
              "1" := {| ID := uuid1; Name := "srv-1"; Size := 0;
                        VolumeType := ""; Organization := "" |};
              "2" := {| ID := ""; Name := "srv-2"; Size := 100 * 10 ^ 9;
                        VolumeType := VolumeTypeBSSD; Organization := "org-1" |} ]}
           (mkState tt [EvGetVolume "fr-par-1" uuid1 (onGetVolume healthy uuid1)])).
  vm_compute. reflexivity.
Defined.

(** A root volume as large as the root volume of the image. *)
Lemma validateRootVolume_accepts_witness :
  validateRootVolume (apiInstance (scripted healthy)) "fr-par-1" "img"
    (Some (newVolume VolumeTypeLSSD (10 * 10 ^ 9) "")) start
  = (Return tt,
     mkState tt [EvGetImage "fr-par-1" "img"
                   (Ok {| Image_RootVolume_Size := 10 * 10 ^ 9 |})]).
Proof.
  apply validateRootVolume_accepts. split; [reflexivity |]. split; [reflexivity |].
  exists {| Image_RootVolume_Size := 10 * 10 ^ 9 |}, tt.
  split; [reflexivity |]. split; [vm_compute; discriminate | reflexivity].
Defined.


(** The labels of the reference catalog. *)
Lemma autocomplete_narrows_witness :
  let suggest prefix :=
    (instanceServerCreateImageAutoCompleteFunc (scripted healthy) prefix start).1 in
  suggest "" = Return ["ubuntu_bionic"; "Ubuntu_Focal"; "debian_buster"]
  ∧ ∃ forP forQ,
      suggest "ubuntu-b" = Return forP ∧ suggest "u" = Return forQ
      ∧ forP = List.filter (λ label, HasPrefix label (normalizedPrefix "ubuntu-b")) forQ.
Proof.
  intros suggest.
  destruct (autocomplete_narrows (scripted healthy) start _ tt eq_refl)
    as [Hempty Hnarrow].
  split; [exact Hempty | by apply Hnarrow].
Defined.

(** The start of the server fails: the server is returned all the same. *)
Lemma server_created_witness :
  let result := run (instanceServerCreateRun (scripted powerDown)
                       (arguments uuid2 "none" "" [] true "")) tt in
  result.1 = Return {| Server_ID := "srv-1" |}
  ∧ List.filter isDeleteIP (trace result.2) = []
  ∧ ∃ action,
      (action = None ↔ true = false)
      ∧ List.filter isServerAction (trace result.2)
        = match action with
          | None => []
          | Some a => [EvServerAction "fr-par-1" "srv-1" a]
          end.
Proof.
  intros result.
  destruct (server_created (scripted powerDown)
              (arguments uuid2 "none" "" [] true "") tt {| Server_ID := "srv-1" |})
    as [Hiff Hcreated].
  assert (Hresult : result.1 = Return {| Server_ID := "srv-1" |}).
  { apply Hiff. exists request. vm_compute. repeat constructor. }
  split; [done |]. by apply Hcreated.
Defined.

(** An image label that the marketplace does not know; an image UUID. *)
Lemma image_resolution_witness :
  run (instanceServerCreateRun (scripted labelDown)
         (arguments "ubuntu_bionic" "none" "" [] false "")) tt
  = (Error (Errorf "Bad image label 'ubuntu_bionic' for DEV1-S."),
     mkState tt [EvGetLocalImageIDByLabel "fr-par-1" "ubuntu_bionic" "DEV1-S"
                   (Fail unavailable)])
  ∧ List.filter fromImage
      (trace (run (instanceServerCreateRun (scripted healthy)
                     (arguments uuid2 "none" "" [] false "")) tt).2) = [].
Proof.
  split.
  - apply (proj2 (image_resolution (scripted labelDown)
                    (arguments "ubuntu_bionic" "none" "" [] false "") tt));
      reflexivity.
  - apply (proj1 (image_resolution (scripted healthy)
                    (arguments uuid2 "none" "" [] false "") tt)).
    reflexivity.
Defined.

(** A bootscript that is not found, one that is found, and an id that is
    not a UUID. *)
Lemma bootscript_checked_before_creation_witness :
  let outcome sc id :=
    run (instanceServerCreateRun (scripted sc)
           (arguments uuid2 "none" "" [] false id)) tt in
  let req := withBootscript request (Some uuid1) in
  ((outcome bootscriptDown uuid1).1
   = Error (Errorf ("Bootscript ID " +:+ uuid1 +:+ " does not exists."))
   ∧ Forall quiet (trace (outcome bootscriptDown uuid1).2))
  ∧ (req_Bootscript req = Some uuid1
     ∧ ∃ before after,
         trace (outcome healthy uuid1).2
         = (before ++ EvGetBootscript "fr-par-1" uuid1 (Ok tt) :: after)%list
         ∧ EvCreateServer req (Ok (Some {| Server_ID := "srv-1" |})) ∈ after)
  ∧ (Forall quiet (trace (outcome healthy "rescue").2)
     ∧ ∀ server, (outcome healthy "rescue").1 ≠ Return server).
Proof.
  intros outcome req. subst outcome. cbv beta.
  pose proof (λ sc id, bootscript_checked_before_creation (scripted sc)
                         (arguments uuid2 "none" "" [] false id) tt) as Hcases.
  split; [| split].
  - destruct (Hcases bootscriptDown uuid1) as (_ & _ & Hfailed & _).
    apply (Hfailed "fr-par-1" uuid1 unavailable). vm_compute. repeat constructor.
  - destruct (Hcases healthy uuid1) as (_ & _ & _ & Hfound).
    apply (Hfound ltac:(discriminate) req (Ok (Some {| Server_ID := "srv-1" |}))).
    vm_compute. repeat constructor.
  - destruct (Hcases healthy "rescue") as (_ & Hrefused & _).
    apply Hrefused; [discriminate | reflexivity].
Defined.

(** A root descriptor of an unknown class; a second additional descriptor
    without a size that parses. *)
Lemma buildVolumes_first_failure_witness :
  let build root additional :=
    buildVolumes (apiInstance (scripted healthy)) "fr-par-1" "org-1" "srv" root
      additional start in
  build "x:20GB" [uuid1]
  = (Error (Errorf "Invalid volume type x in x:20GB volume."), start)
  ∧ build "" (["b:100GB"] ++ "l:much" :: [uuid1])%list
    = (Error (Errorf "Invalid size format much in l:much volume."), start).
Proof.
  intros build. subst build. cbv beta.
  destruct (buildVolumes_first_failure (apiInstance (scripted healthy)) "fr-par-1"
              "org-1" "srv" "x:20GB" start) as [Hroot _].
  destruct (buildVolumes_first_failure (apiInstance (scripted healthy)) "fr-par-1"
              "org-1" "srv" "" start) as [_ Hadditional].
  split.
  - apply Hroot; [discriminate | reflexivity].
  - apply (Hadditional ["b:100GB"] "l:much" [uuid1]
             {[ "1" := {| ID := ""; Name := "srv-1"; Size := 100 * 10 ^ 9;
                          VolumeType := VolumeTypeBSSD; Organization := "org-1" |} ]}
             start); vm_compute; reflexivity.
Defined.
End MoreRuns.
